(** * Margdarshak-AI: the data-normalisation helpers and page operations

    A shallow embedding of the JavaScript helpers of the traffic dashboard
    (EmergencyCorridor.jsx, Dashboard.jsx, MapView.jsx, Login.jsx,
    AirQuality.jsx, api.js), the properties the specification states about
    them, and further properties of the same code.

    JavaScript numbers are IEEE-754 binary64 values: they are modelled by
    Rocq's primitive floats, so that [NaN], the infinities, the comparisons
    and the arithmetic are those of the program.  JSON payloads are modelled
    by the inductive type [value]. *)

From Stdlib Require Import ZArith List Bool Ascii String Floats Uint63 Lia.
From Stdlib Require Import DecimalString Sorted Permutation.
From stdpp Require Import base option list gmap strings.
Import ListNotations.

Set Warnings "-register-all,-inexact-float".

Local Open Scope string_scope.
Local Open Scope list_scope.

(** ** JavaScript values *)

Module JS.

(** A JavaScript value as [JSON.parse] or a component's state can hold it.
    An object is a list of bindings; the first binding of a key is the one a
    property access finds. *)
Inductive value : Type :=
| VUndef
| VNull
| VBool (b : bool)
| VNum (x : float)
| VStr (s : string)
| VArr (items : list value)
| VObj (fields : list (string * value)).

(** [v == null]: true of [null] and [undefined] only. *)
Definition is_nullish (v : value) : bool :=
  match v with
  | VUndef | VNull => true
  | _ => false
  end.

(** ToBoolean. *)
Definition truthy (v : value) : bool :=
  match v with
  | VUndef | VNull => false
  | VBool b => b
  | VNum x => negb (PrimFloat.is_zero x || PrimFloat.is_nan x)
  | VStr s => negb (String.eqb s "")
  | VArr _ | VObj _ => true
  end.

(** [a ?? b], [a || b] and [a && b] on values. The right operand has no
    effect in the modelled code, so evaluating it eagerly changes nothing. *)
Definition coalesce (a b : value) : value := if is_nullish a then b else a.
Definition js_or (a b : value) : value := if truthy a then a else b.
Definition js_and (a b : value) : value := if truthy a then b else a.

Module Import Notations.
Infix "??" := coalesce (at level 60, right associativity).
Infix "|.|" := js_or (at level 60, right associativity).
Infix "&.&" := js_and (at level 60, right associativity).
End Notations.

(** [Array.isArray(v)] and [typeof v === "object"]. *)
Definition isArray (v : value) : bool :=
  match v with VArr _ => true | _ => false end.

Definition typeof_object (v : value) : bool :=
  match v with VNull | VArr _ | VObj _ => true | _ => false end.

Fixpoint assoc (k : string) (fields : list (string * value)) : value :=
  match fields with
  | [] => VUndef
  | (k', v) :: rest => if String.eqb k k' then v else assoc k rest
  end.

(** [v.k] for a named property [k] that no prototype defines (lat, path,
    coordinates, ...): found on objects only. The program reads properties
    of [null] and [undefined] nowhere unguarded except where noted. *)
Definition get (v : value) (k : string) : value :=
  match v with
  | VObj fields => assoc k fields
  | _ => VUndef
  end.

(** The decimal spelling of an index, as a property key. *)
Definition index_key (i : nat) : string :=
  NilZero.string_of_uint (Nat.to_uint i).

(** [v[i]] for a numeric index: an element of an array, a character of a
    string, the property named by the index on an object. *)
Definition get_index (v : value) (i : nat) : value :=
  match v with
  | VArr items => nth i items VUndef
  | VObj fields => assoc (index_key i) fields
  | VStr s => match String.get i s with
              | Some c => VStr (String c EmptyString)
              | None => VUndef
              end
  | _ => VUndef
  end.

(** [v.length] of an array. *)
Definition arr_length (v : value) : nat :=
  match v with VArr items => length items | _ => 0 end.

(** The float of a length or an index. *)
Definition of_nat (n : nat) : float :=
  PrimFloat.of_uint63 (Uint63.of_Z (Z.of_nat n)).

(** The float of an integer below 2^53 in magnitude. *)
Definition of_Z (n : Z) : float :=
  if (n <? 0)%Z then (- PrimFloat.of_uint63 (Uint63.of_Z (- n)))%float
  else PrimFloat.of_uint63 (Uint63.of_Z n).

(** [Math.round(x)]: the integer closest to [x], the one towards +infinity
    on a tie; a result of zero keeps the sign of [x]. A float whose exponent
    is not negative is an integer already. *)
Definition Math_round (x : float) : float :=
  match Prim2SF x with
  | S754_finite neg m e =>
      if (0 <=? e)%Z then x
      else
        let signed := if neg then (- Z.pos m)%Z else Z.pos m in
        let n := ((2 * signed + 2 ^ (- e)) / (2 * 2 ^ (- e)))%Z in
        if (n =? 0)%Z then (if neg then neg_zero else zero) else of_Z n
  | _ => x
  end.

Section Runtime.

(** The two conversions between strings and numbers that the JavaScript
    runtime provides (StringToNumber and Number::toString of ECMA-262). They
    are not code of this repository. *)
Variable StringToNumber : string -> float.
Variable NumberToString : float -> string.

(** ToString, i.e. [String(v)]. An array converts by
    [Array.prototype.join], in which an element that is [null] or
    [undefined] gives the empty string. *)
Fixpoint ToString (v : value) : string :=
  match v with
  | VUndef => "undefined"
  | VNull => "null"
  | VBool true => "true"
  | VBool false => "false"
  | VNum x => NumberToString x
  | VStr s => s
  | VArr items =>
      String.concat ","
        (map (fun x => if is_nullish x then "" else ToString x) items)
  | VObj _ => "[object Object]"
  end.

(** ToNumber, i.e. [Number(v)]. An array converts through its string: the
    empty array gives [""], hence 0; an array of two or more elements gives
    a string with a comma, which is no numeric literal; a plain object gives
    ["[object Object]"]. *)
Definition ToNumber (v : value) : float :=
  match v with
  | VUndef => nan
  | VNull => 0%float
  | VBool true => 1%float
  | VBool false => 0%float
  | VNum x => x
  | VStr s => StringToNumber s
  | VArr [] => 0%float
  | VArr [x] => StringToNumber (if is_nullish x then "" else ToString x)
  | VArr _ => nan
  | VObj _ => nan
  end.

(** The global [isNaN(v)], which converts its argument first. *)
Definition isNaN (v : value) : bool := PrimFloat.is_nan (ToNumber v).

(** [x.toFixed(1)] (Number.prototype.toFixed, ECMA-262 21.1.3.3). For a
    finite [x] below 10^21 in magnitude: the integer [n] for which [n / 10]
    is closest to the exact value of [|x|], the larger one on a tie, printed
    with one decimal and the sign of [x]. *)
Definition tenths (m : positive) (e : Z) : Z :=
  if (0 <=? e)%Z then (10 * Z.pos m * 2 ^ e)%Z
  else ((20 * Z.pos m + 2 ^ (- e)) / (2 * 2 ^ (- e)))%Z.

Definition fixed1 (neg : bool) (n : Z) : string :=
  (if neg then "-" else "")
  ++ NilZero.string_of_uint (N.to_uint (Z.to_N (n / 10)))
  ++ "."
  ++ NilZero.string_of_uint (N.to_uint (Z.to_N (n mod 10))).

Definition toFixed1 (x : float) : string :=
  if PrimFloat.is_nan x then "NaN"
  else if (1e21 <=? abs x)%float then NumberToString x
  else match Prim2SF x with
       | S754_finite neg m e => fixed1 neg (tenths m e)
       | _ => fixed1 false 0
       end.

End Runtime.

End JS.

Import JS JS.Notations.

(** ** EmergencyCorridor.jsx: colours, ETA, point and segment normalisation *)

Module Corridor.

(** CONFIG (EmergencyCorridor.jsx, lines 29-30). *)
Definition SEGMENT_GROUP_SIZE : nat := 5.
Definition AVG_SPEED_KMPH : float := 30%float.

(** The colours of [getTrafficColor] and of the legend box. *)
Definition blue : string := "#0ea5e9".
Definition red : string := "#b91c1c".
Definition yellow : string := "#eab308".
Definition green : string := "#16a34a".

(** The dash shown when no ETA can be computed. *)
Definition dash : string := "—".

(** What [normalizePoint] returns: [{lat, lon, severity}], with [severity]
    a number or [null]. *)
Record point : Type := mkPoint {
  lat : float;
  lon : float;
  severity : option float
}.

(** A coordinate [[lat, lon]] and a segment [{pts, severity}] (the field
    [severity] of a segment is named [seg_severity] here). *)
Definition coord : Type := (float * float)%type.

Record segment : Type := mkSegment {
  pts : list coord;
  seg_severity : option float
}.

(** *** groupSegments *)

(** [s.pts[s.pts.length - 1]], which is [undefined] ([None]) when [s.pts] is
    empty. Reading [x[0]] of an [undefined] entry throws a TypeError, for
    which [None] stands in the results of the functions below. *)
Definition last_pt (s : segment) : option coord := last (pts s).

(** The body of the inner loop over [slice]: all points of the first
    segment, then the last point of each further one. *)
Definition flatten_slice (slice : list segment) : list (option coord) :=
  match slice with
  | [] => []
  | s0 :: rest => map Some (pts s0) ++ map last_pt rest
  end.

(** [prev[0] === p[0] && prev[1] === p[1]]. *)
Definition same_coord (prev p : coord) : bool :=
  (fst prev =? fst p)%float && (snd prev =? snd p)%float.

(** The filter callback at an index beyond 0, [prev] being the entry before
    [p] in the unfiltered list. *)
Fixpoint filter_after (prev : option coord) (l : list (option coord))
  : option (list coord) :=
  match l with
  | [] => Some []
  | p :: rest =>
      match prev, p with
      | Some a, Some b =>
          match filter_after p rest with
          | Some kept => Some (if same_coord a b then kept else b :: kept)
          | None => None
          end
      | _, _ => None
      end
  end.

(** [pts.filter(...)]: the entry at index 0 is kept unread; [cleaned] holds
    the kept coordinates and whether an [undefined] entry stands first. *)
Definition cleaned (l : list (option coord)) : option (list coord) :=
  match l with
  | [] => Some []
  | None :: [] => Some []
  | p0 :: rest =>
      match p0, filter_after p0 rest with
      | Some a, Some kept => Some (a :: kept)
      | _, _ => None
      end
  end.

(** [slice.map(s => s.severity).filter(s => s != null)]. *)
Definition sevs (slice : list segment) : list float :=
  omap seg_severity slice.

(** [sevs.length ? sevs.reduce((a,b)=>a+b,0)/sevs.length : null]. *)
Definition average (l : list float) : option float :=
  match l with
  | [] => None
  | _ => Some (fold_left PrimFloat.add l 0%float / of_nat (length l))%float
  end.

(** One turn of the outer loop on [slice]: the polyline pushed, if any. *)
Definition group_slice (slice : list segment) : option (list segment) :=
  match cleaned (flatten_slice slice) with
  | None => None
  | Some c =>
      if (2 <=? length c)%nat
      then Some [mkSegment c (average (sevs slice))]
      else Some []
  end.

(** The outer loop, [for (i = 0; i < segments.length; i += SEGMENT_GROUP_SIZE)],
    with [turns] bounding the number of turns. *)
Fixpoint group_loop (turns : nat) (segments : list segment) (i : nat)
  : option (list segment) :=
  match turns with
  | O => Some []
  | S turns' =>
      if (i <? length segments)%nat then
        let slice := take SEGMENT_GROUP_SIZE (drop i segments) in
        match group_slice slice with
        | None => None
        | Some g =>
            match group_loop turns' segments (i + SEGMENT_GROUP_SIZE) with
            | None => None
            | Some gs => Some (g ++ gs)
            end
        end
      else Some []
  end.

(** The loop index grows by 5 each turn, so [length segments] turns are more
    than the loop ever takes. *)
Definition groupSegments (segments : list segment) : option (list segment) :=
  group_loop (length segments) segments 0.

Section WithRuntime.

Variable StringToNumber : string -> float.
Variable NumberToString : float -> string.

Abbreviation Number := (ToNumber StringToNumber NumberToString).
Abbreviation global_isNaN := (isNaN StringToNumber NumberToString).
Abbreviation toFixed1 := (JS.toFixed1 NumberToString).

Definition getTrafficColor (severity_pct : value) : string :=
  if is_nullish severity_pct || global_isNaN severity_pct then blue
  else
    let p := Number severity_pct in
    if (66 <? p)%float then red
    else if (33 <? p)%float then yellow
    else green.

Definition etaMinutesFromRoute (routeObj : value) : string :=
  if negb (truthy routeObj) then dash
  else if truthy (get routeObj "duration_s")
          && negb (global_isNaN (get routeObj "duration_s"))
  then toFixed1 (Number (get routeObj "duration_s") / 60)%float
  else if truthy (get routeObj "distance_m")
          && negb (global_isNaN (get routeObj "distance_m"))
  then
    let avgSpeedMps := ((AVG_SPEED_KMPH * 1000) / 3600)%float in
    let estSeconds := (Number (get routeObj "distance_m") / avgSpeedMps)%float in
    toFixed1 (estSeconds / 60)%float
  else dash.

(** The guess of [normalizePoint] on a pair: a first component beyond 90 in
    magnitude with a second within 90 is read as [[lon, lat]]. *)
Definition looks_lon_lat (a0 a1 : float) : bool :=
  (90 <? abs a0)%float && (abs a1 <=? 90)%float.

Definition latRaw (p : value) : value :=
  get p "lat" ?? get p "latitude" ?? get p "lat_deg"
    ?? get_index p 1 ?? get_index p 0 ?? VNull.

Definition lonRaw (p : value) : value :=
  get p "lon" ?? get p "lng" ?? get p "longitude" ?? get p "lon_deg"
    ?? get_index p 0 ?? get_index p 1 ?? VNull.

Definition severityRaw (p : value) : value :=
  get p "severity_pct"
    ?? (get p "traffic"
          &.& (get (get p "traffic") "severity_pct"
                 ?? get (get p "traffic") "severity"))
    ?? get p "traffic_severity" ?? get p "segment_traffic_pct" ?? VNull.

(** [severity != null ? Number(severity) : null]. *)
Definition number_or_null (v : value) : option float :=
  if is_nullish v then None else Some (Number v).

Definition normalizePoint (p : value) : option point :=
  if is_nullish p then None
  else if isArray p && (2 <=? arr_length p)%nat then
    let a0 := Number (get_index p 0) in
    let a1 := Number (get_index p 1) in
    if looks_lon_lat a0 a1 then Some (mkPoint a1 a0 None)
    else Some (mkPoint a0 a1 None)
  else
    let lat := Number (latRaw p) in
    let lon := Number (lonRaw p) in
    if PrimFloat.is_finite lat && PrimFloat.is_finite lon then
      Some (mkPoint lat lon (number_or_null (severityRaw p)))
    else if negb (is_nullish (get_index p 0))
            && negb (is_nullish (get_index p 1)) then
      let a0 := Number (get_index p 0) in
      let a1 := Number (get_index p 1) in
      if PrimFloat.is_finite a0 && PrimFloat.is_finite a1 then
        if looks_lon_lat a0 a1 then Some (mkPoint a1 a0 None)
        else Some (mkPoint a0 a1 None)
      else None
    else None.

(** *** buildSegmentsFromPath *)

(** [segObj.path ?? segObj.segment ?? segObj.coordinates ?? segObj.coords
    ?? segObj.geometry ?? []]. *)
Definition segment_raw (segObj : value) : value :=
  get segObj "path" ?? get segObj "segment" ?? get segObj "coordinates"
    ?? get segObj "coords" ?? get segObj "geometry" ?? VArr [].

(** [Array.isArray(raw) ? raw : []]. *)
Definition array_or_empty (raw : value) : list value :=
  match raw with VArr items => items | _ => [] end.

(** [l.map(normalizePoint).filter(Boolean)]: the points that are not
    [null]. *)
Definition normalizePoints (l : list value) : list point :=
  omap normalizePoint l.

(** [segObj.traffic?.severity_pct ?? segObj.severity_pct
    ?? segObj.segment_traffic_pct ?? null]. *)
Definition segment_severity_raw (segObj : value) : value :=
  (if is_nullish (get segObj "traffic") then VUndef
   else get (get segObj "traffic") "severity_pct")
    ?? get segObj "severity_pct" ?? get segObj "segment_traffic_pct" ?? VNull.

(** The loop [for (const segObj of maybePath)] of the first branch. Reading
    [segObj.path] of a [null] or [undefined] entry throws ([None]). *)
Fixpoint collect_segments (maybePath : list value) : option (list segment) :=
  match maybePath with
  | [] => Some []
  | segObj :: rest =>
      if is_nullish segObj then None
      else
        let pts :=
          map (fun p => (lat p, lon p))
              (normalizePoints (array_or_empty (segment_raw segObj))) in
        let severity := segment_severity_raw segObj in
        match collect_segments rest with
        | None => None
        | Some segments =>
            Some (if (2 <=? length pts)%nat
                  then mkSegment pts (number_or_null severity) :: segments
                  else segments)
        end
  end.

(** [Number.isFinite(a.severity) ? a.severity : null]. *)
Definition finite_or_null (s : option float) : option float :=
  match s with
  | Some x => if PrimFloat.is_finite x then Some x else None
  | None => None
  end.

Definition segSeverity (sA sB : option float) : option float :=
  match sA, sB with
  | Some a, Some b => Some ((a + b) / 2)%float
  | Some a, None => Some a
  | None, Some b => Some b
  | None, None => None
  end.

(** The loop of the second branch: one two-point segment per pair of
    adjacent points. *)
Fixpoint adjacent_segments (ptsWithMeta : list point) : list segment :=
  match ptsWithMeta with
  | a :: (b :: _) as rest =>
      mkSegment [(lat a, lon a); (lat b, lon b)]
                (segSeverity (finite_or_null (severity a))
                             (finite_or_null (severity b)))
        :: adjacent_segments rest
  | _ => []
  end.

(** The test that opens the first branch, on an array. *)
Definition segment_like (maybePath : list value) : bool :=
  let first := nth 0 maybePath VUndef in
  (0 <? length maybePath)%nat && truthy first && typeof_object first
  && truthy (get first "path" |.| get first "segment" |.| get first "coordinates").

(** [buildSegmentsFromPath] on an array. The third branch of the source
    reads [coordinates], [coords] and [path] of the array, finds none, and
    returns [[]]. *)
Definition buildSegmentsFromArray (maybePath : list value)
  : option (list segment) :=
  match (if segment_like maybePath then collect_segments maybePath
         else Some []) with
  | None => None
  | Some segments =>
      if (0 <? length segments)%nat then groupSegments segments
      else
        let ptsWithMeta := normalizePoints maybePath in
        if (2 <=? length ptsWithMeta)%nat
        then groupSegments (adjacent_segments ptsWithMeta)
        else Some []
  end.

(** [buildSegmentsFromPath]. Its one recursive call is made on an array
    ([Array.isArray(coords)]), and on an array the function does not recurse
    again: the call is unfolded into [buildSegmentsFromArray]. *)
Definition buildSegmentsFromPath (maybePath : value) : option (list segment) :=
  if negb (truthy maybePath) then Some []
  else match maybePath with
       | VArr items => buildSegmentsFromArray items
       | VObj _ =>
           let coords :=
             get maybePath "coordinates" ?? get maybePath "coords"
               ?? get maybePath "path" ?? VNull in
           match coords with
           | VArr items => buildSegmentsFromArray items
           | _ => Some []
           end
       | _ => Some []
       end.

End WithRuntime.

End Corridor.

(** ** Dashboard.jsx and MapView.jsx: normalizeRoads *)

Module Roads.

(** ToIntegerOrInfinity of a number, as [Array.prototype.slice] applies it
    to its bounds. *)
Inductive ext_int : Type :=
| Int (k : Z)
| PosInf
| NegInf.

Definition ToIntegerOrInfinity (x : float) : ext_int :=
  match Prim2SF x with
  | S754_nan | S754_zero _ => Int 0
  | S754_infinity false => PosInf
  | S754_infinity true => NegInf
  | S754_finite neg m e =>
      let magnitude :=
        if (0 <=? e)%Z then (Z.pos m * 2 ^ e)%Z else (Z.pos m / 2 ^ (- e))%Z in
      Int (if neg then - magnitude else magnitude)
  end.

(** [l.slice(0, limit)]: a negative bound counts from the end. *)
Definition slice0 {A : Type} (l : list A) (limit : float) : list A :=
  match ToIntegerOrInfinity limit with
  | Int k =>
      if (k <? 0)%Z then take (Z.to_nat (Z.of_nat (length l) + k)) l
      else take (Z.to_nat k) l
  | PosInf => l
  | NegInf => []
  end.

(** The regular expression [/^unnamed/i]: the first seven characters spell
    "unnamed" in either case. *)
Definition lower (c : ascii) : ascii :=
  let n := nat_of_ascii c in
  if ((65 <=? n) && (n <=? 90))%nat then ascii_of_nat (n + 32) else c.

Fixpoint lowercase (s : string) : string :=
  match s with
  | String c rest => String (lower c) (lowercase rest)
  | EmptyString => EmptyString
  end.

Definition starts_unnamed (s : string) : bool :=
  String.eqb (lowercase (substring 0 7 s)) "unnamed".

(** [Array.isArray(r.coordinates) && r.coordinates.length > 0]; reading a
    property of a [null] or [undefined] entry throws ([None]). *)
Definition valid_road (r : value) : option bool :=
  if is_nullish r then None
  else Some (isArray (get r "coordinates")
             && (0 <? arr_length (get r "coordinates"))%nat).

Fixpoint filter_valid (roads : list value) : option (list value) :=
  match roads with
  | [] => Some []
  | r :: rest =>
      match valid_road r, filter_valid rest with
      | Some keep, Some valid => Some (if keep then r :: valid else valid)
      | _, _ => None
      end
  end.

(** [(r.name || "").trim()]: a truthy name that is no string has no [trim]
    method, and calling it throws ([None]). [String.prototype.trim] is a
    function of the runtime, as [Number] and [String] are: the parameter
    [trim] of the definitions that call it. *)
Definition road_name (trim : string -> string) (r : value) : option string :=
  match get r "name" |.| VStr "" with
  | VStr s => Some (trim s)
  | _ => None
  end.

(** [!name || /^unnamed/i.test(name)], the test that sends a road to the
    list [unnamed]. *)
Definition unnamed_name (name : string) : bool :=
  String.eqb name "" || starts_unnamed name.

(** The loop that splits [valid] into [named] and [unnamed]. *)
Fixpoint split_named (trim : string -> string) (valid : list value)
  : option (list value * list value) :=
  match valid with
  | [] => Some ([], [])
  | r :: rest =>
      match road_name trim r, split_named trim rest with
      | Some name, Some (named, unnamed) =>
          Some (if unnamed_name name then (named, r :: unnamed)
                else (r :: named, unnamed))
      | _, _ => None
      end
  end.

(** [r.coordinates?.length || 0] on a road that passed the filter: its
    coordinates are an array. *)
Definition coordinate_count (r : value) : nat :=
  arr_length (get r "coordinates").

Definition byLengthDesc (a b : value) : Z :=
  (Z.of_nat (coordinate_count b) - Z.of_nat (coordinate_count a))%Z.

(** [Array.prototype.sort] with a comparator is stable; with a comparator
    that orders by a key its result is the one stable ordering, which this
    insertion sort computes. *)
Fixpoint insert_by (cmp : value -> value -> Z) (x : value) (l : list value)
  : list value :=
  match l with
  | [] => [x]
  | y :: rest =>
      if (cmp x y <=? 0)%Z then x :: y :: rest
      else y :: insert_by cmp x rest
  end.

Fixpoint sort_by (cmp : value -> value -> Z) (l : list value) : list value :=
  match l with
  | [] => []
  | x :: rest => insert_by cmp x (sort_by cmp rest)
  end.

(** [roads || []], for a value that is an array or is falsy; another truthy
    value has no [filter] method, and calling it throws ([None]). *)
Definition roads_or_empty (roads : value) : option (list value) :=
  match roads |.| VArr [] with
  | VArr items => Some items
  | _ => None
  end.

Definition normalizeRoads (trim : string -> string) (roads : value)
    (limit : float) : option (list value) :=
  match roads_or_empty roads with
  | None => None
  | Some items =>
      match filter_valid items with
      | None => None
      | Some valid =>
          match split_named trim valid with
          | None => None
          | Some (named, unnamed) =>
              Some (slice0 (sort_by byLengthDesc named
                              ++ sort_by byLengthDesc unnamed) limit)
          end
      end
  end.

End Roads.

(** ** The page components: network requests, feedback and storage *)

Module Pages.

(** How a promise settles, and how a [try] block ends: with a value, or with
    a thrown error, of which the model keeps the message. *)
Inductive outcome (A : Type) : Type :=
| Resolved (a : A)
| Rejected (message : string).
Arguments Resolved {A} a.
Arguments Rejected {A} message.

(** The message of the TypeError a property read of [null] or [undefined]
    throws; its wording is the engine's and is not empty. *)
Definition TypeError : string := "TypeError".

(** A [fetch] response: its [ok] flag and how [json()] and [text()] settle. *)
Record response : Type := mkResponse {
  ok : bool;
  json : outcome value;
  text : outcome string
}.

(** The requests the components send with [fetch], by what they ask for. *)
Inductive request : Type :=
| OpenWeatherGeo (cityName : string)
| OpenWeatherAir (lat lon : value)
| OpenMeteoGeocode (name : string)
| OpenMeteoAirQuality (lat lon : value)
| CorridorGeocode (address : string)
| CorridorRequest (body : value)
| CorridorUpdatePosition (body : value)
| CorridorStatus (requestId : value).

(** The remote services: how each request of api.js and each [fetch]
    settles, and in which order the live-traffic requests of the roads
    [roads], sent together, settle: [settled roads], some rearrangement of
    [roads]. *)
Record network : Type := mkNetwork {
  loginUser : string -> string -> outcome value;
  getRoads : string -> float -> outcome value;
  getLiveTraffic : value -> value -> value -> string -> outcome value;
  predictToday : value -> float -> float -> string -> outcome value;
  fetch : request -> outcome response;
  settled : list value -> list value;
  settled_all : forall roads, settled roads ≡ₚ roads
}.

(** What a page does to the browser around it. *)
#[projections(primitive)]
Record browser : Type := mkBrowser {
  localStorage : gmap string string;
  alerts : list string;
  console : list string;
  location : option string
}.

(** A handler of a component with state [C]: it reads and updates the
    browser and the component, and ends as [outcome] says. *)
Definition M (C A : Type) : Type := browser * C -> outcome A * (browser * C).

Definition ret {C A : Type} (a : A) : M C A := fun s => (Resolved a, s).

Definition bind {C A B : Type} (m : M C A) (k : A -> M C B) : M C B :=
  fun s =>
    match m s with
    | (Resolved a, s') => k a s'
    | (Rejected e, s') => (Rejected e, s')
    end.

Definition throw {C A : Type} (e : string) : M C A :=
  fun s => (Rejected e, s).

Definition await {C A : Type} (p : outcome A) : M C A := fun s => (p, s).

Definition try_catch {C A : Type} (body : M C A) (handler : string -> M C A)
  : M C A :=
  fun s =>
    match body s with
    | (Resolved a, s') => (Resolved a, s')
    | (Rejected e, s') => handler e s'
    end.

Definition finally {C A : Type} (body : M C A) (cleanup : M C unit) : M C A :=
  fun s =>
    match body s with
    | (r, s') =>
        match cleanup s' with
        | (Resolved _, s'') => (r, s'')
        | (Rejected e, s'') => (Rejected e, s'')
        end
    end.

Definition state {C : Type} : M C C := fun s => (Resolved (snd s), s).

Definition set_state {C : Type} (f : C -> C) : M C unit :=
  fun s => (Resolved tt, (fst s, f (snd s))).

Definition set_browser {C : Type} (f : browser -> browser) : M C unit :=
  fun s => (Resolved tt, (f (fst s), snd s)).

Module Import MNotations.
Notation "'let*' x ':=' m 'in' k" := (bind m (fun x => k))
  (at level 10, x pattern, m at level 100, k at level 200).
Notation "m ';>' k" := (bind m (fun _ => k))
  (at level 100, k at level 200, right associativity).
End MNotations.

(** [localStorage.setItem(k, v)], [alert(msg)], [console.error(msg)] and
    the router's [navigate(path)]. *)
Definition setItem {C : Type} (k v : string) : M C unit :=
  set_browser (fun b =>
    mkBrowser (<[k := v]> (localStorage b)) (alerts b) (console b) (location b)).

Definition alert {C : Type} (msg : string) : M C unit :=
  set_browser (fun b =>
    mkBrowser (localStorage b) (msg :: alerts b) (console b) (location b)).

Definition console_error {C : Type} (msg : string) : M C unit :=
  set_browser (fun b =>
    mkBrowser (localStorage b) (alerts b) (msg :: console b) (location b)).

Definition navigate {C : Type} (path : string) : M C unit :=
  set_browser (fun b =>
    mkBrowser (localStorage b) (alerts b) (console b) (Some path)).

(** [v.k], which throws a TypeError when [v] is [null] or [undefined]. *)
Definition prop {C : Type} (v : value) (k : string) : M C value :=
  if is_nullish v then throw TypeError else ret (get v k).

Definition prop_index {C : Type} (v : value) (i : nat) : M C value :=
  if is_nullish v then throw TypeError else ret (get_index v i).

(** [v?.k] and [v?.[i]]. *)
Definition opt_get (v : value) (k : string) : value :=
  if is_nullish v then VUndef else get v k.

Definition opt_index (v : value) (i : nat) : value :=
  if is_nullish v then VUndef else get_index v i.

(** A helper of this repository that throws ([None]) or returns. *)
Definition of_option {C A : Type} (o : option A) : M C A :=
  match o with
  | Some a => ret a
  | None => throw TypeError
  end.

(** A loop that threads the variables its body assigns. *)
Fixpoint fold_each {C A B : Type} (body : A -> B -> M C B) (l : list A) (acc : B)
  : M C B :=
  match l with
  | [] => ret acc
  | x :: rest => let* acc' := body x acc in fold_each body rest acc'
  end.

(** [await Promise.all(roads.map(async (road) => { ... }))], for callbacks
    that each await one live-traffic request and nothing else. The requests
    are sent at once, in the order of the list; a callback then runs from
    its [await] to its end, without interruption, when its own request
    settles. So the callbacks assign the variables they share in the order
    in which the requests settle, [settled net roads], not in the order of
    the list. [Promise.all] is rejected as soon as one callback is; the
    callbacks still waiting at that time run later and reach only the
    variables of the loop and the console. *)
Definition all_each {C B : Type} (net : network) (body : value -> B -> M C B)
    (roads : list value) (acc : B) : M C B :=
  fold_each body (settled net roads) acc.

Section WithRuntime.

Variable StringToNumber : string -> float.
Variable NumberToString : float -> string.

Abbreviation Number := (ToNumber StringToNumber NumberToString).
Abbreviation String_of := (ToString NumberToString).

(** *** fetchCO2ForCity (Dashboard.jsx and MapView.jsx, the same text) *)

(** The body of the [try] block; [console.warn] is logged like
    [console.error]. *)
Definition fetchCO2_body {C : Type} (net : network) (cityName : string)
  : M C value :=
  let* geoRes := await (fetch net (OpenWeatherGeo cityName)) in
  let* geoData := await (json geoRes) in
  if negb (isArray geoData) || (arr_length geoData =? 0)%nat then
    console_error "No geocoding result for city" ;> ret VNull
  else
    let* lat := prop (get_index geoData 0) "lat" in
    let* lon := prop (get_index geoData 0) "lon" in
    let* airRes := await (fetch net (OpenWeatherAir lat lon)) in
    let* airData := await (json airRes) in
    let first := opt_index (opt_get airData "list") 0 in
    let components := opt_get first "components" in
    let co := opt_get components "co" in
    if is_nullish co then ret VNull
    else
      let factor := (44 / 28)%float in
      let co2FromCo := (Number co * factor)%float in
      ret (VObj [("co", co); ("co2FromCo", VNum co2FromCo)]).

Definition fetchCO2ForCity {C : Type} (net : network) (cityName : string)
  : M C value :=
  try_catch (fetchCO2_body net cityName)
    (fun err => console_error "Failed to fetch CO/CO2 from OpenWeather" ;>
                ret VNull).

(** [coords[Math.floor(coords.length / 2)] || coords[0] || [0, 0]] for
    [coords = road.coordinates || []]; the roads that reach it passed
    [normalizeRoads], so [coords] is an array. *)
Definition mid_point (road : value) : value :=
  let coords := get road "coordinates" |.| VArr [] in
  get_index coords (arr_length coords / 2)
    |.| get_index coords 0 |.| VArr [VNum 0; VNum 0].

(** [prettifyRoadName(raw)] (Dashboard.jsx) rewrites a name with regular
    expressions. The model keeps when it throws: [raw.replace] is no
    function when [raw] is truthy and not a string. The pretty name itself
    is not modelled, and the rows below carry [rawName] only. *)
Definition prettifyRoadName_throws (raw : value) : bool :=
  truthy raw && negb (match raw with VStr _ => true | _ => false end).

Definition prettifyRoadName {C : Type} (raw : value) : M C unit :=
  if prettifyRoadName_throws raw then throw TypeError else ret tt.

End WithRuntime.

End Pages.

Import Pages Pages.MNotations.

(** ** Login.jsx *)

Module Login.

(** The state of the component: the two inputs and the error text, which
    the page renders when it is not empty. *)
#[projections(primitive)]
Record state : Type := mkState {
  u : string;
  p : string;
  err : string
}.

Definition setErr (msg : string) : M state unit :=
  set_state (fun st => mkState (u st) (p st) msg).

Section WithRuntime.

Variable NumberToString : float -> string.

Definition go (net : network) : M state unit :=
  try_catch
    (let* st := Pages.state in
     let* r := await (loginUser net (u st) (p st)) in
     let* data := prop r "data" in
     let* access_token := prop data "access_token" in
     setItem "md_jwt" (ToString NumberToString access_token) ;>
     navigate "/dashboard")
    (fun _ => setErr "Wrong username or password").

End WithRuntime.

End Login.

(** ** Dashboard.jsx *)

Module Dashboard.

(** A row of [data]. The fields [name] and [shortName], which
    [prettifyRoadName] computes, are left out. *)
Record live_row : Type := mkLiveRow {
  segment : value;
  time : string;
  vehicle_count : float;
  lat : value;
  lon : value;
  rawName : value
}.

Record predicted_row : Type := mkPredictedRow {
  p_segment : value;
  avg_7d : value;
  predicted : value;
  p_rawName : value
}.

(** [data] after [load] is the array [rows]; after [loadPredictive] it is
    [Object.values(rows)] of an object keyed by road id, whose listing
    order is not modelled. *)
Inductive rows : Type :=
| Live (l : list live_row)
| Predictive (m : gmap string predicted_row).

#[projections(primitive)]
Record state : Type := mkState {
  city : string;
  segmentsNum : float;
  timeSteps : float;
  data : rows;
  predictions : gmap string value;
  loading : bool;
  error : string;
  co2Value : value
}.

Definition setData (d : rows) : M state unit :=
  set_state (fun st =>
    mkState (city st) (segmentsNum st) (timeSteps st) d (predictions st)
            (loading st) (error st) (co2Value st)).

Definition setPredictions (m : gmap string value) : M state unit :=
  set_state (fun st =>
    mkState (city st) (segmentsNum st) (timeSteps st) (data st) m
            (loading st) (error st) (co2Value st)).

Definition setLoading (b : bool) : M state unit :=
  set_state (fun st =>
    mkState (city st) (segmentsNum st) (timeSteps st) (data st)
            (predictions st) b (error st) (co2Value st)).

Definition setError (msg : string) : M state unit :=
  set_state (fun st =>
    mkState (city st) (segmentsNum st) (timeSteps st) (data st)
            (predictions st) (loading st) msg (co2Value st)).

Definition setCo2Value (v : value) : M state unit :=
  set_state (fun st =>
    mkState (city st) (segmentsNum st) (timeSteps st) (data st)
            (predictions st) (loading st) (error st) v).

Section WithRuntime.

Variable trim : string -> string.
Variable StringToNumber : string -> float.
Variable NumberToString : float -> string.

Abbreviation Number := (ToNumber StringToNumber NumberToString).
Abbreviation String_of := (ToString NumberToString).

(** The three initialisers of [useState], in a browser (where [window] is
    defined). [getItem] gives [null] ([None]) for a key never written. *)
Definition init_city (b : browser) : string :=
  match localStorage b !! "trafficCity" with
  | Some v => if String.eqb v "" then "Kolkata" else v
  | None => "Kolkata"
  end.

Definition init_number (key : string) (default : float) (b : browser) : float :=
  match localStorage b !! key with
  | Some v =>
      if negb (PrimFloat.is_nan (StringToNumber v)) then StringToNumber v
      else default
  | None => default
  end.

Definition init_segmentsNum : browser -> float :=
  init_number "trafficSegments" 5%float.

Definition init_timeSteps : browser -> float :=
  init_number "trafficTimeSteps" 10%float.

(** The state of a freshly mounted Dashboard. *)
Definition mount (b : browser) : state :=
  mkState (init_city b) (init_segmentsNum b) (init_timeSteps b)
          (Live []) ∅ false "" VNull.

Definition computeSeverity (trafficResp : value) : value :=
  let d := opt_get trafficResp "data" |.| VObj [] in
  if negb (is_nullish (get d "severity")) then get d "severity"
  else
    let jf := get d "jamFactor" ?? VNum 0 in
    VNum (Math_round ((Number jf * 10) * 10)%float).

(** [typeof sev === "number" ? sev : Number(sev) || 0]. *)
Definition severity_value (sev : value) : float :=
  match sev with
  | VNum x => x
  | _ => if truthy (VNum (Number sev)) then Number sev else 0%float
  end.

(** The callback of [list.map] in [load], on the local variables [rows]
    and [preds]. *)
Definition live_road (net : network) (city : string) (road : value)
    (acc : list live_row * gmap string value)
  : M state (list live_row * gmap string value) :=
  let rows := fst acc in
  let preds := snd acc in
  try_catch
    (let mid := mid_point road in
     let lat := get_index mid 0 in
     let lon := get_index mid 1 in
     let* t := await (getLiveTraffic net (get road "id") lat lon city) in
     let sev := computeSeverity t in
     let value := severity_value sev in
     let preds := <[String_of (get road "id") := VNum value]> preds in
     prettifyRoadName (get road "name" |.| get road "id") ;>
     ret (rows ++ [mkLiveRow (get road "id") "Now" value lat lon
                             (get road "name" |.| get road "id")],
          preds))
    (fun e =>
       console_error "live traffic error" ;>
       let preds := <[String_of (get road "id") := VNum 0]> preds in
       prettifyRoadName (get road "name" |.| get road "id") ;>
       ret (rows ++ [mkLiveRow (get road "id") "Now" 0 (VNum 0) (VNum 0)
                               (get road "name" |.| get road "id")],
            preds)).

(** The [try ... catch ... finally] statement of [load], [st] being the
    state that the handler closed over. The callbacks that [Promise.all]
    waits for push their rows as their requests settle ([all_each]);
    [preds] is keyed by road id. *)
Definition load_try (net : network) (st : state) : M state unit :=
  finally
    (try_catch
       (let* co2 := fetchCO2ForCity StringToNumber NumberToString net (city st) in
        let* r := await (getRoads net (city st) (segmentsNum st * 3)%float) in
        let* r_data := prop r "data" in
        let* roads := prop r_data "roads" in
        let* list :=
          of_option
            (Roads.normalizeRoads trim (roads |.| VArr []) (segmentsNum st)) in
        let* acc := all_each net (live_road net (city st)) list ([], ∅) in
        setData (Live (fst acc)) ;>
        setPredictions (snd acc) ;>
        setCo2Value co2)
       (fun e =>
          console_error e ;>
          setError "Failed to fetch road data or live traffic."))
    (setLoading false).

Definition load (net : network) : M state unit :=
  let* st := Pages.state in
  setLoading true ;>
  setError "" ;>
  setData (Live []) ;>
  setPredictions ∅ ;>
  setCo2Value VNull ;>
  setItem "trafficCity" (city st) ;>
  setItem "trafficSegments" (NumberToString (segmentsNum st)) ;>
  setItem "trafficTimeSteps" (NumberToString (timeSteps st)) ;>
  load_try net st.

(** The body of the loop of [loadPredictive]. *)
Definition predict_road (net : network) (city : string) (timeSteps : float)
    (road : value) (acc : gmap string predicted_row * gmap string value)
  : M state (gmap string predicted_row * gmap string value) :=
  let rows := fst acc in
  let preds := snd acc in
  let* res := await (predictToday net (get road "id") 30%float timeSteps city) in
  let* d := prop res "data" in
  let* predicted_today := prop d "predicted_today" in
  let preds := <[String_of (get road "id") := predicted_today]> preds in
  prettifyRoadName (get road "name" |.| get road "id") ;>
  ret (<[String_of (get road "id") :=
           mkPredictedRow (get road "id") (get d "avg_7d") predicted_today
                          (get road "name" |.| get road "id")]> rows,
       preds).

Definition loadPredictive (net : network) : M state unit :=
  let* st := Pages.state in
  setLoading true ;>
  setError "" ;>
  setData (Live []) ;>
  setPredictions ∅ ;>
  finally
    (try_catch
       (let* r := await (getRoads net (city st) (segmentsNum st * 3)%float) in
        let* r_data := prop r "data" in
        let* roads := prop r_data "roads" in
        let* list :=
          of_option
            (Roads.normalizeRoads trim (roads |.| VArr []) (segmentsNum st)) in
        let* acc :=
          fold_each (predict_road net (city st) (timeSteps st)) list (∅, ∅) in
        setData (Predictive (fst acc)) ;>
        setPredictions (snd acc))
       (fun e => setError "Failed to load predictive traffic"))
    (setLoading false).

End WithRuntime.

End Dashboard.

(** ** MapView.jsx *)

Module MapView.

(** The state of the component that the handlers below touch. MapView has
    no error state and renders no error text. *)
#[projections(primitive)]
Record state : Type := mkState {
  center : value;
  roads : list value;
  severity : gmap string value;
  loading : bool;
  coordsRef : option (list value);
  co2Value : value;
  city : string;
  segmentsNum : float;
  timeSteps : float
}.

Definition setCenter (c : value) : M state unit :=
  set_state (fun st =>
    mkState c (roads st) (severity st) (loading st) (coordsRef st)
            (co2Value st) (city st) (segmentsNum st) (timeSteps st)).

Definition setRoads (l : list value) : M state unit :=
  set_state (fun st =>
    mkState (center st) l (severity st) (loading st) (coordsRef st)
            (co2Value st) (city st) (segmentsNum st) (timeSteps st)).

Definition setSeverity (m : gmap string value) : M state unit :=
  set_state (fun st =>
    mkState (center st) (roads st) m (loading st) (coordsRef st)
            (co2Value st) (city st) (segmentsNum st) (timeSteps st)).

Definition setLoading (b : bool) : M state unit :=
  set_state (fun st =>
    mkState (center st) (roads st) (severity st) b (coordsRef st)
            (co2Value st) (city st) (segmentsNum st) (timeSteps st)).

Definition set_coordsRef (r : option (list value)) : M state unit :=
  set_state (fun st =>
    mkState (center st) (roads st) (severity st) (loading st) r
            (co2Value st) (city st) (segmentsNum st) (timeSteps st)).

Definition setCo2Value (v : value) : M state unit :=
  set_state (fun st =>
    mkState (center st) (roads st) (severity st) (loading st) (coordsRef st)
            v (city st) (segmentsNum st) (timeSteps st)).

Section WithRuntime.

Variable trim : string -> string.
Variable StringToNumber : string -> float.
Variable NumberToString : float -> string.

Abbreviation Number := (ToNumber StringToNumber NumberToString).
Abbreviation String_of := (ToString NumberToString).

(** The state of a freshly mounted MapView: the same three initialisers as
    Dashboard's, and the defaults of the other [useState] calls. *)
Definition init_city (b : browser) : string :=
  match localStorage b !! "trafficCity" with
  | Some v => if String.eqb v "" then "Kolkata" else v
  | None => "Kolkata"
  end.

Definition init_number (key : string) (default : float) (b : browser) : float :=
  match localStorage b !! key with
  | Some v =>
      if negb (PrimFloat.is_nan (StringToNumber v)) then StringToNumber v
      else default
  | None => default
  end.

Definition mount (b : browser) : state :=
  mkState (VArr [VNum 19.076%float; VNum 72.8777%float]) [] ∅ true None VNull
          (init_city b)
          (init_number "trafficSegments" 5%float b)
          (init_number "trafficTimeSteps" 10%float b).

(** The callback of [list.slice(0, 40).map] in [loadMapData], on the local
    variable [sevMap]. It reads the city of the component's state. *)
Definition severity_road (net : network) (city : string) (road : value)
    (sevMap : gmap string value) : M state (gmap string value) :=
  try_catch
    (let mid := mid_point road in
     let lat := get_index mid 0 in
     let lon := get_index mid 1 in
     let* t := await (getLiveTraffic net (get road "id") lat lon city) in
     let* t_data := prop t "data" in
     let s :=
       opt_get t_data "severity"
         ?? VNum (Math_round
                    ((Number (opt_get t_data "jamFactor" ?? VNum 0) * 10) * 10)%float) in
     ret (<[String_of (get road "id") := s]> sevMap))
    (fun _ => ret (<[String_of (get road "id") := VNum 0]> sevMap)).

Definition loadMapData (net : network) (cityArg : string)
    (segmentsArg timeStepsArg : float) : M state unit :=
  let* st := Pages.state in
  setLoading true ;>
  finally
    (try_catch
       (let* co2 := fetchCO2ForCity StringToNumber NumberToString net cityArg in
        let* r := await (getRoads net cityArg (segmentsArg * 3)%float) in
        let* r_data := prop r "data" in
        let raw := opt_get r_data "roads" |.| VArr [] in
        let* list := of_option (Roads.normalizeRoads trim raw segmentsArg) in
        setRoads list ;>
        setCo2Value (co2 |.| VNull) ;>
        (match list with
         | first :: _ =>
             set_coordsRef (Some (map (fun x => get x "coordinates") list)) ;>
             let* c := prop_index (get first "coordinates") 0 in
             let* c0 := prop_index c 0 in
             let* c1 := prop_index c 1 in
             setCenter (VArr [c0; c1])
         | [] => set_coordsRef None
         end) ;>
        let* sevMap :=
          all_each net (severity_road net (city st)) (take 40 list) ∅ in
        setSeverity sevMap)
       (fun e => console_error e))
    (setLoading false).

Definition handleSearch (net : network) : M state unit :=
  let* st := Pages.state in
  setItem "trafficCity" (city st) ;>
  setItem "trafficSegments" (NumberToString (segmentsNum st)) ;>
  setItem "trafficTimeSteps" (NumberToString (timeSteps st)) ;>
  loadMapData net (city st) (segmentsNum st) (timeSteps st).

(** [handleCopy]: the clipboard is not modelled. *)
Definition handleCopy (id : value) : M state unit :=
  try_catch (alert ("Copied: " ++ String_of id)) (fun _ => ret tt).

End WithRuntime.

End MapView.

(** ** AirQuality.jsx *)

Module AirQuality.

(** [location] without its label, which the properties below do not read. *)
#[projections(primitive)]
Record state : Type := mkState {
  query : string;
  location_lat : value;
  location_lon : value;
  loading : bool;
  error : string;
  aqData : value
}.

Definition setLocation (lat lon : value) : M state unit :=
  set_state (fun st =>
    mkState (query st) lat lon (loading st) (error st) (aqData st)).

Definition setLoading (b : bool) : M state unit :=
  set_state (fun st =>
    mkState (query st) (location_lat st) (location_lon st) b (error st)
            (aqData st)).

Definition setError (msg : string) : M state unit :=
  set_state (fun st =>
    mkState (query st) (location_lat st) (location_lon st) (loading st) msg
            (aqData st)).

Definition setAqData (v : value) : M state unit :=
  set_state (fun st =>
    mkState (query st) (location_lat st) (location_lon st) (loading st)
            (error st) v).

(** [data.results.length === 0]. *)
Definition length_is_zero (results : value) : bool :=
  match results with
  | VArr items => (length items =? 0)%nat
  | VObj _ =>
      match get results "length" with
      | VNum x => (x =? 0)%float
      | _ => false
      end
  | _ => false
  end.

Definition geocodeCity (net : network) (name : string)
  : M state (value * value) :=
  let* res := await (fetch net (OpenMeteoGeocode name)) in
  if negb (ok res) then throw "Failed to geocode city"
  else
    let* data := await (json res) in
    let* results := prop data "results" in
    if negb (truthy results) || length_is_zero results
    then throw "Location not found"
    else
      let* latitude := prop (get_index results 0) "latitude" in
      let* longitude := prop (get_index results 0) "longitude" in
      ret (latitude, longitude).

Definition fetchAirQuality (net : network) (lat lon : value) : M state value :=
  let* res := await (fetch net (OpenMeteoAirQuality lat lon)) in
  if negb (ok res) then throw "Failed to fetch air quality"
  else await (json res).

(** [query.trim() || "Kolkata"]. *)
Definition query_or_default (trim : string -> string) (query : string)
  : string :=
  if String.eqb (trim query) "" then "Kolkata" else trim query.

(** [e.message || "Failed to load air quality"]. *)
Definition message_or_default (message : string) : string :=
  if String.eqb message "" then "Failed to load air quality" else message.

Definition load (trim : string -> string) (net : network)
    (fromButton : bool) : M state unit :=
  let* st := Pages.state in
  finally
    (try_catch
       (setLoading true ;>
        setError "" ;>
        let* loc :=
          if fromButton || negb (truthy (aqData st)) then
            let* loc := geocodeCity net (query_or_default trim (query st)) in
            setLocation (fst loc) (snd loc) ;>
            ret loc
          else ret (location_lat st, location_lon st) in
        let* data := fetchAirQuality net (fst loc) (snd loc) in
        setAqData data)
       (fun e =>
          console_error e ;>
          setError (message_or_default e)))
    (setLoading false).

End AirQuality.

(** ** EmergencyCorridor.jsx: the handlers of the page *)

Module CorridorPage.

#[projections(primitive)]
Record state : Type := mkState {
  vehicleId : string;
  origin : value;
  destination : value;
  originAddress : string;
  destinationAddress : string;
  requestId : value;
  status : value;
  alternatives : value;
  route : value;
  ambulancePos : value;
  loading : bool;
  toast : option string
}.

Definition setOrigin (v : value) : M state unit :=
  set_state (fun st =>
    mkState (vehicleId st) v (destination st) (originAddress st)
            (destinationAddress st) (requestId st) (status st)
            (alternatives st) (route st) (ambulancePos st) (loading st)
            (toast st)).

Definition setDestination (v : value) : M state unit :=
  set_state (fun st =>
    mkState (vehicleId st) (origin st) v (originAddress st)
            (destinationAddress st) (requestId st) (status st)
            (alternatives st) (route st) (ambulancePos st) (loading st)
            (toast st)).

Definition setRequestId (v : value) : M state unit :=
  set_state (fun st =>
    mkState (vehicleId st) (origin st) (destination st) (originAddress st)
            (destinationAddress st) v (status st)
            (alternatives st) (route st) (ambulancePos st) (loading st)
            (toast st)).

Definition setStatus (v : value) : M state unit :=
  set_state (fun st =>
    mkState (vehicleId st) (origin st) (destination st) (originAddress st)
            (destinationAddress st) (requestId st) v
            (alternatives st) (route st) (ambulancePos st) (loading st)
            (toast st)).

Definition setAlternatives (v : value) : M state unit :=
  set_state (fun st =>
    mkState (vehicleId st) (origin st) (destination st) (originAddress st)
            (destinationAddress st) (requestId st) (status st)
            v (route st) (ambulancePos st) (loading st) (toast st)).

Definition setRoute (v : value) : M state unit :=
  set_state (fun st =>
    mkState (vehicleId st) (origin st) (destination st) (originAddress st)
            (destinationAddress st) (requestId st) (status st)
            (alternatives st) v (ambulancePos st) (loading st) (toast st)).

Definition setAmbulancePos (v : value) : M state unit :=
  set_state (fun st =>
    mkState (vehicleId st) (origin st) (destination st) (originAddress st)
            (destinationAddress st) (requestId st) (status st)
            (alternatives st) (route st) v (loading st) (toast st)).

Definition setLoading (b : bool) : M state unit :=
  set_state (fun st =>
    mkState (vehicleId st) (origin st) (destination st) (originAddress st)
            (destinationAddress st) (requestId st) (status st)
            (alternatives st) (route st) (ambulancePos st) b (toast st)).

(** [showToast]: the message is shown; the timer that hides it again is not
    modelled. *)
Definition showToast (message : string) : M state unit :=
  set_state (fun st =>
    mkState (vehicleId st) (origin st) (destination st) (originAddress st)
            (destinationAddress st) (requestId st) (status st)
            (alternatives st) (route st) (ambulancePos st) (loading st)
            (Some message)).

(** [call] and [callGet]: a response that is not [ok] is thrown with its
    text as message. *)
Definition call (net : network) (req : request) : M state value :=
  let* res := await (fetch net req) in
  if negb (ok res) then
    let* message := await (text res) in throw message
  else await (json res).

Section WithRuntime.

Variable trim : string -> string.
Variable StringToNumber : string -> float.
Variable NumberToString : float -> string.

Abbreviation Number := (ToNumber StringToNumber NumberToString).
Abbreviation String_of := (ToString NumberToString).

Definition lat_lon (lat lon : value) : value :=
  VObj [("lat", lat); ("lon", lon)].

(** The position update that [setTimeout] schedules 50 ms later is applied
    at once. *)
Definition geocodeOrigin (net : network) : M state unit :=
  let* st := Pages.state in
  if String.eqb (trim (originAddress st)) "" then
    alert "Enter origin address"
  else
    finally
      (try_catch
         (setLoading true ;>
          let* geo := call net (CorridorGeocode (trim (originAddress st))) in
          let* lat := prop geo "lat" in
          let* lon := prop geo "lon" in
          setOrigin (lat_lon lat lon) ;>
          setAmbulancePos (lat_lon lat lon))
         (fun _ => alert "Failed to geocode origin"))
      (setLoading false).

Definition geocodeDestination (net : network) : M state unit :=
  let* st := Pages.state in
  if String.eqb (trim (destinationAddress st)) "" then
    alert "Enter destination address"
  else
    finally
      (try_catch
         (setLoading true ;>
          let* geo :=
            call net (CorridorGeocode (trim (destinationAddress st))) in
          let* lat := prop geo "lat" in
          let* lon := prop geo "lon" in
          setDestination (lat_lon lat lon) ;>
          setAmbulancePos (lat_lon lat lon))
         (fun _ => alert "Failed to geocode destination"))
      (setLoading false).

(** The body that [createRequest] posts. *)
Definition request_body (st : state) : value :=
  VObj [("vehicle_id", VStr (vehicleId st));
        ("origin_lat", VNum (Number (get (origin st) "lat")));
        ("origin_lon", VNum (Number (get (origin st) "lon")));
        ("dest_lat", VNum (Number (get (destination st) "lat")));
        ("dest_lon", VNum (Number (get (destination st) "lon")));
        ("priority", VStr "high")].

Definition createRequest (net : network) : M state unit :=
  let* st := Pages.state in
  finally
    (try_catch
       (setLoading true ;>
        let* res := call net (CorridorRequest (request_body st)) in
        let* request_id := prop res "request_id" in
        if truthy request_id then
          setRequestId request_id ;>
          setRoute (get res "route") ;>
          setAmbulancePos
            (lat_lon (VNum (Number (get (origin st) "lat")))
                     (VNum (Number (get (origin st) "lon")))) ;>
          setAlternatives
            (opt_get (get res "corridor_plan") "alternatives"
               ?? get res "alternatives" ?? VArr []) ;>
          setStatus VNull ;>
          showToast
            "Corridor created • Signals synchronized • Route optimized • Traffic cleared"
        else ret tt)
       (fun err =>
          console_error err ;>
          alert "Failed to create emergency request"))
    (setLoading false).

(** The position that [updatePosition] reports and the body it posts;
    [random1] and [random2] are the two results of [Math.random()] and
    [now] that of [Date.now()]. *)
Definition newLat (st : state) (random1 : float) : float :=
  (Number (get (origin st) "lat") + (random1 - 0.5) * 0.01)%float.

Definition newLon (st : state) (random2 : float) : float :=
  (Number (get (origin st) "lon") + (random2 - 0.5) * 0.01)%float.

Definition position_body (st : state) (random1 random2 now : float) : value :=
  VObj [("request_id", requestId st);
        ("vehicle_id", VStr (vehicleId st));
        ("lat", VNum (newLat st random1));
        ("lon", VNum (newLon st random2));
        ("speed_mps", VNum 12.3%float);
        ("bearing_deg", VNum 88%float);
        ("ts", VNum (now / 1000)%float)].

Definition updatePosition (net : network) (random1 random2 now : float)
  : M state unit :=
  let* st := Pages.state in
  if negb (truthy (requestId st)) then alert "Create request first!"
  else
    finally
      (try_catch
         (setLoading true ;>
          let* _ :=
            call net
              (CorridorUpdatePosition (position_body st random1 random2 now)) in
          setAmbulancePos
            (lat_lon (VNum (newLat st random1)) (VNum (newLon st random2))))
         (fun _ => alert "Failed to update position"))
      (setLoading false).

(** [s.status === "active"]. *)
Definition is_active (v : value) : bool :=
  match v with VStr s => String.eqb s "active" | _ => false end.

Definition checkStatus (net : network) : M state unit :=
  let* st := Pages.state in
  if negb (truthy (requestId st)) then alert "Create request first!"
  else
    finally
      (try_catch
         (setLoading true ;>
          let* s := call net (CorridorStatus (requestId st)) in
          setStatus s ;>
          let* s_status := prop s "status" in
          (if is_active s_status then
             showToast ("Request "
                        ++ String_of (requestId st |.| get s "request_id")
                        ++ " is active")
           else ret tt) ;>
          setRoute (get s "route" ?? s) ;>
          setAlternatives
            (opt_get (get s "corridor_plan") "alternatives"
               ?? get s "alternatives"
               ?? (opt_get (opt_get (get s "route") "corridor_plan") "alternatives"
                     ?? opt_get (get s "route") "alternatives")
               ?? VArr []))
         (fun err =>
            console_error err ;>
            alert "Failed to fetch status"))
      (setLoading false).

End WithRuntime.

End CorridorPage.

(** * Vocabulary of the specification *)

Module Spec.

Import Corridor.

(** "The first present of" a list of fields: the value of the first field
    that is neither missing nor [null]. *)
Fixpoint first_present (keys : list string) (p : value) : option value :=
  match keys with
  | [] => None
  | k :: rest =>
      if is_nullish (get p k) then first_present rest p else Some (get p k)
  end.

(** The legend drawn over the map (LegendBox): the severities of each
    colour, in percent. *)
Definition LegendBox : list (Z * Z * string) :=
  [(0, 33, green); (34, 66, yellow); (67, 100, red)]%Z.

(** A field that is missing, [null], zero or [NaN]. *)
Definition absent_or_zero (v : value) : Prop :=
  is_nullish v = true
  \/ exists x, v = VNum x /\ (PrimFloat.is_zero x || PrimFloat.is_nan x) = true.

(** A polyline that the map can draw: two points or more, finite
    coordinates, no point repeated by its successor. *)
Definition finite_coord (c : coord) : Prop :=
  PrimFloat.is_finite (fst c) = true /\ PrimFloat.is_finite (snd c) = true.

Definition no_repeat (l : list coord) : Prop :=
  forall i a b, l !! i = Some a -> l !! S i = Some b -> a <> b.

Definition renderable (s : segment) : Prop :=
  2 <= length (pts s) /\ Forall finite_coord (pts s) /\ no_repeat (pts s).

(** The first point of [l] is not [===] to [a], and no point of [l] is
    [===] to the one before it. *)
Definition starts_apart (a : coord) (l : list coord) : Prop :=
  match l with
  | [] => True
  | h :: _ => same_coord a h = false
  end.

Fixpoint adjacent_apart (l : list coord) : Prop :=
  match l with
  | a :: (b :: _) as rest => same_coord a b = false /\ adjacent_apart rest
  | _ => True
  end.

Definition drawable (s : segment) : Prop :=
  2 <= length (pts s) /\ adjacent_apart (pts s).

(** The array that [buildSegmentsFromPath] walks: the payload itself, or
    its [coordinates], [coords] or [path]. *)
Definition path_entries (maybePath : value) : list value :=
  match maybePath with
  | VArr items => items
  | VObj _ =>
      match get maybePath "coordinates" ?? get maybePath "coords"
              ?? get maybePath "path" ?? VNull with
      | VArr items => items
      | _ => []
      end
  | _ => []
  end.

(** The arithmetic mean of the severities of a run that are not [null],
    summed in the order of the run; [None] when there is none. *)
Definition non_null_severities (run : list segment) : list float :=
  omap seg_severity run.

Definition mean (l : list float) : float :=
  (fold_left PrimFloat.add l 0 / of_nat (length l))%float.

Definition mean_severity (run : list segment) : option float :=
  match non_null_severities run with
  | [] => None
  | xs => Some (mean xs)
  end.

(** The polylines [out] come from the runs [runs], in order, at most one
    from each run, and each with the mean severity of its run. *)
Inductive grouped : list (list segment) -> list segment -> Prop :=
| grouped_nil : grouped [] []
| grouped_keep run runs o out :
    seg_severity o = mean_severity run ->
    grouped runs out ->
    grouped (run :: runs) (o :: out)
| grouped_drop run runs out :
    grouped runs out ->
    grouped (run :: runs) out.

(** The consecutive runs of [SEGMENT_GROUP_SIZE] elements of a list, the
    last one shorter when the length is no multiple of it; [turns] bounds
    their number. *)
Fixpoint chunks {A : Type} (turns : nat) (l : list A) : list (list A) :=
  match turns with
  | O => []
  | S turns' =>
      match l with
      | [] => []
      | _ => take SEGMENT_GROUP_SIZE l
               :: chunks turns' (drop SEGMENT_GROUP_SIZE l)
      end
  end.

(** The turns of the outer loop of [groupSegments], run by run. *)
Fixpoint group_runs (runs : list (list segment)) : option (list segment) :=
  match runs with
  | [] => Some []
  | run :: rest =>
      match group_slice run with
      | None => None
      | Some g =>
          match group_runs rest with
          | None => None
          | Some gs => Some (g ++ gs)
          end
      end
  end.

(** The points of the polyline of a run: the points of its first segment,
    then the last point of each further segment. *)
Definition run_points (run : list segment) : list coord :=
  match run with
  | [] => []
  | first :: rest => pts first ++ omap (fun s => last (pts s)) rest
  end.

(** [l] without every point that is identical to the point before it. *)
Definition without_repeats (l : list coord) : list coord :=
  match l with
  | [] => []
  | first :: rest =>
      first
        :: map snd
             (List.filter (fun pair => negb (same_coord (fst pair) (snd pair)))
                          (combine l rest))
  end.

(** The polyline that a run gives, when it gives one: its points without
    repeats, if they are two or more, with the mean severity of the run. *)
Definition polyline_of (run : list segment) : option segment :=
  let points := without_repeats (run_points run) in
  if (2 <=? length points)%nat
  then Some (mkSegment points (mean_severity run))
  else None.

(** The runs of a list of segments. *)
Definition runs_of (segments : list segment) : list (list segment) :=
  chunks (length segments) segments.

(** A road whose [coordinates] are a non-empty array. *)
Definition has_coordinates (r : value) : Prop :=
  isArray (get r "coordinates") = true
  /\ 0 < Roads.coordinate_count r.

(** The side of the split of [normalizeRoads] that a road goes to: [true]
    for the list [named]. *)
Definition is_named (trim : string -> string) (r : value) : bool :=
  match Roads.road_name trim r with
  | Some name => negb (Roads.unnamed_name name)
  | None => false
  end.

(** The name of a road as text: its name when that is a string, the empty
    text when the road has no name. *)
Definition name_text (r : value) : string :=
  match get r "name" with
  | VStr s => s
  | _ => ""
  end.

(** The character [c] is the small letter [l], in either case: the capital
    letters stand 32 places before the small ones. *)
Definition same_letter (c l : ascii) : Prop :=
  c = l \/ nat_of_ascii c + 32 = nat_of_ascii l.

(** The text [t] starts with "unnamed", in any mix of cases. *)
Definition starts_with_unnamed (t : string) : Prop :=
  exists head rest,
    list_ascii_of_string t = head ++ rest
    /\ Forall2 same_letter head (list_ascii_of_string "unnamed").

(** A road with a name: its name, once trimmed of white space, is not
    empty and does not start with "unnamed" in any case. *)
Definition has_name (trim : string -> string) (r : value) : Prop :=
  trim (name_text r) <> "" /\ ~ starts_with_unnamed (trim (name_text r)).

(** The same without the trimming: a non-empty name that does not start
    with "unnamed". *)
Definition is_named_untrimmed (r : value) : bool :=
  match get r "name" with
  | VStr s => negb (String.eqb s "") && negb (Roads.starts_unnamed s)
  | _ => false
  end.

(** [a] has at least as many coordinates as [b]. *)
Definition more_coordinates (a b : value) : Prop :=
  Roads.coordinate_count b <= Roads.coordinate_count a.

(** A road as the roads service sends it: an object (not [null]) whose name
    is a string or is missing. *)
Definition road_object (r : value) : Prop :=
  is_nullish r = false
  /\ match get r "name" |.| VStr "" with VStr _ => True | _ => False end.

(** The keys of the three stored preferences. *)
Definition preference_keys : list string :=
  ["trafficCity"; "trafficSegments"; "trafficTimeSteps"].

(** [m] leaves every key of the browser storage outside [keys] as it
    was. *)
Definition writes_only {C A : Type} (keys : list string) (m : Pages.M C A)
  : Prop :=
  forall (s : Pages.browser * C) (k : string),
    ~ In k keys ->
    Pages.localStorage (fst (snd (m s))) !! k = Pages.localStorage (fst s) !! k.

(** The closed examples of this file need [String.prototype.trim]. A
    string is held as its UTF-8 text, as the string literals of this file
    are; [utf8_trim] strips from both ends the white space and the line
    terminators of ECMA-262: TAB, LF, VT, FF, CR, SPACE, U+00A0, U+1680,
    U+2000 to U+200A, U+2028, U+2029, U+202F, U+205F, U+3000 and U+FEFF. *)
Definition white_space : list (list ascii) :=
  map (map ascii_of_nat)
    [[9]; [10]; [11]; [12]; [13]; [32]; [194; 160]; [225; 154; 128];
     [226; 128; 128]; [226; 128; 129]; [226; 128; 130]; [226; 128; 131];
     [226; 128; 132]; [226; 128; 133]; [226; 128; 134]; [226; 128; 135];
     [226; 128; 136]; [226; 128; 137]; [226; 128; 138]; [226; 128; 168];
     [226; 128; 169]; [226; 128; 175]; [226; 129; 159]; [227; 128; 128];
     [239; 187; 191]].

(** [s] without the characters [w] at its start, when it starts with
    them. *)
Fixpoint without_prefix (w s : list ascii) : option (list ascii) :=
  match w, s with
  | [], _ => Some s
  | c :: w', d :: s' => if Ascii.eqb c d then without_prefix w' s' else None
  | _ :: _, [] => None
  end.

Fixpoint strip_one (spaces : list (list ascii)) (s : list ascii)
  : option (list ascii) :=
  match spaces with
  | [] => None
  | w :: rest =>
      match without_prefix w s with
      | Some s' => Some s'
      | None => strip_one rest s
      end
  end.

(** A white space takes a character or more, so [length s] turns strip
    every white space at the start of [s]. *)
Fixpoint strip (turns : nat) (spaces : list (list ascii)) (s : list ascii)
  : list ascii :=
  match turns with
  | O => s
  | S turns' =>
      match strip_one spaces s with
      | Some s' => strip turns' spaces s'
      | None => s
      end
  end.

Definition utf8_trim (s : string) : string :=
  let l := list_ascii_of_string s in
  let l := strip (length l) white_space l in
  string_of_list_ascii
    (rev (strip (length l) (map (@rev ascii) white_space) (rev l))).

(** The closed examples of this file need the two conversions of the
    runtime on the decimal spellings of the naturals below 2^53 only, where
    these two functions compute them. *)
Definition decimal_NumberToString (x : float) : string :=
  match Prim2SF x with
  | S754_zero _ => "0"
  | S754_finite false m e =>
      if (0 <=? e)%Z
      then NilZero.string_of_uint (N.to_uint (Z.to_N (Z.pos m * 2 ^ e)))
      else if (Z.pos m mod 2 ^ (- e) =? 0)%Z
      then NilZero.string_of_uint (N.to_uint (Z.to_N (Z.pos m / 2 ^ (- e))))
      else ""
  | _ => ""
  end.

Definition decimal_StringToNumber (s : string) : float :=
  match NilZero.uint_of_string s with
  | Some d => of_Z (Z.of_N (N.of_uint d))
  | None => nan
  end.

(** A [fetch] request fails: the promise is rejected, or the response is
    not [ok], or its body is no JSON. *)
Definition request_fails (net : Pages.network) (req : Pages.request) : Prop :=
  match Pages.fetch net req with
  | Pages.Rejected _ => True
  | Pages.Resolved res =>
      Pages.ok res = false \/ exists e, Pages.json res = Pages.Rejected e
  end.

(** What the two live-traffic loops record for a road: the severity read
    from the response, or 0 when the request of the road failed. *)
Section LiveTraffic.

Variable StringToNumber : string -> float.
Variable NumberToString : float -> string.
Variable net : Pages.network.
Variable city : string.

Definition road_traffic (road : value) : Pages.outcome value :=
  Pages.getLiveTraffic net (get road "id")
    (get_index (Pages.mid_point road) 0) (get_index (Pages.mid_point road) 1)
    city.

Definition road_key (road : value) : string :=
  ToString NumberToString (get road "id").

(** MapView: [sevMap[road.id]]. *)
Definition road_severity (road : value) : value :=
  match road_traffic road with
  | Pages.Resolved t =>
      if is_nullish t then VNum 0
      else
        Pages.opt_get (get t "data") "severity"
          ?? VNum (Math_round
                     ((ToNumber StringToNumber NumberToString
                         (Pages.opt_get (get t "data") "jamFactor" ?? VNum 0)
                       * 10) * 10)%float)
  | Pages.Rejected _ => VNum 0
  end.

Definition severity_map (list : list value) : gmap string value :=
  foldl (fun m road => <[road_key road := road_severity road]> m) ∅ list.

(** Dashboard: [preds[road.id]] and the row pushed to [rows]. *)
Definition road_value (road : value) : float :=
  match road_traffic road with
  | Pages.Resolved t =>
      Dashboard.severity_value StringToNumber NumberToString
        (Dashboard.computeSeverity StringToNumber NumberToString t)
  | Pages.Rejected _ => 0%float
  end.

Definition road_row (road : value) : Dashboard.live_row :=
  match road_traffic road with
  | Pages.Resolved t =>
      Dashboard.mkLiveRow (get road "id") "Now" (road_value road)
        (get_index (Pages.mid_point road) 0) (get_index (Pages.mid_point road) 1)
        (get road "name" |.| get road "id")
  | Pages.Rejected _ =>
      Dashboard.mkLiveRow (get road "id") "Now" 0 (VNum 0) (VNum 0)
        (get road "name" |.| get road "id")
  end.

Definition predictions_of (list : list value) : gmap string value :=
  foldl (fun m road => <[road_key road := VNum (road_value road)]> m) ∅ list.

End LiveTraffic.

(** The first coordinate of the first road is there to centre the map on. *)
Definition center_known (list : list value) : Prop :=
  match list with
  | [] => True
  | first :: _ =>
      is_nullish (get first "coordinates") = false
      /\ is_nullish (get_index (get first "coordinates") 0) = false
  end.

(** The name shown for a road is a string ([prettifyRoadName] does not
    throw on it). *)
Definition printable_name (road : value) : Prop :=
  Pages.prettifyRoadName_throws (get road "name" |.| get road "id") = false.

(** Sample data of the closed examples: an empty browser, a network on
    which every request fails, one on which the login succeeds, and one
    that lists two roads and fails on the live traffic of the first. *)
Definition empty_browser : Pages.browser := Pages.mkBrowser ∅ [] [] None.

Definition offline : Pages.network :=
  Pages.mkNetwork
    (fun _ _ => Pages.Rejected "Network Error")
    (fun _ _ => Pages.Rejected "Network Error")
    (fun _ _ _ _ => Pages.Rejected "Network Error")
    (fun _ _ _ _ => Pages.Rejected "Network Error")
    (fun _ => Pages.Rejected "Failed to fetch")
    (fun roads => roads) (fun roads => Permutation_refl roads).

Definition login_ok : Pages.network :=
  Pages.mkNetwork
    (fun _ _ =>
       Pages.Resolved (VObj [("data", VObj [("access_token", VStr "token")])]))
    (fun _ _ => Pages.Rejected "Network Error")
    (fun _ _ _ _ => Pages.Rejected "Network Error")
    (fun _ _ _ _ => Pages.Rejected "Network Error")
    (fun _ => Pages.Rejected "Failed to fetch")
    (fun roads => roads) (fun roads => Permutation_refl roads).

Definition road_a : value :=
  VObj [("id", VStr "a"); ("name", VStr "Park Street");
        ("coordinates", VArr [VArr [VNum 22.5; VNum 88.25];
                              VArr [VNum 22.75; VNum 88.5]])].

Definition road_b : value :=
  VObj [("id", VStr "b"); ("name", VStr "Strand Road");
        ("coordinates", VArr [VArr [VNum 22.25; VNum 88.125]])].

Definition one_road_down : Pages.network :=
  Pages.mkNetwork
    (fun _ _ => Pages.Rejected "Network Error")
    (fun _ _ =>
       Pages.Resolved (VObj [("data", VObj [("roads", VArr [road_a; road_b])])]))
    (fun road_id _ _ _ =>
       match road_id with
       | VStr "a" => Pages.Rejected "Network Error"
       | _ => Pages.Resolved (VObj [("data", VObj [("severity", VNum 40)])])
       end)
    (fun _ _ _ _ => Pages.Rejected "Network Error")
    (fun _ => Pages.Rejected "Failed to fetch")
    (@rev value) (fun roads => Permutation_sym (Permutation_rev roads)).

(** Sample states, roads and segments of the closed examples. *)
Definition dashboard_state (city : string) (segmentsNum timeSteps : float)
  : Dashboard.state :=
  Dashboard.mkState city segmentsNum timeSteps (Dashboard.Live []) ∅ false ""
    VNull.

Definition login_state : Login.state := Login.mkState "asha" "secret" "".

Definition road (name : string) (points : nat) : value :=
  VObj [("name", VStr name);
        ("coordinates", VArr (repeat (VArr [VNum 22.5; VNum 88.25]) points))].

Definition six_segments : list segment :=
  [mkSegment [(1, 1); (2, 2)] (Some 10);
   mkSegment [(2, 2); (3, 3)] None;
   mkSegment [(3, 3); (4, 4)] (Some 30);
   mkSegment [(4, 4); (5, 5)] None;
   mkSegment [(5, 5); (6, 6)] (Some 50);
   mkSegment [(6, 6); (7, 7)] None]%float.

(** Two segments of which the second has no point. *)
Definition pointless : list segment :=
  [mkSegment [(1, 1); (2, 2)] (Some 10); mkSegment [] None]%float.

(** The coordinates of a GeoJSON MultiLineString of two lines. *)
Definition two_lines : value :=
  VArr [VArr [VArr [VNum 72.5; VNum 19.25]; VArr [VNum 72.75; VNum 19.5]];
        VArr [VArr [VNum 72.75; VNum 19.5]; VArr [VNum 73; VNum 19.75]]].

End Spec.

Import Corridor Spec.

(** * Further code of the pages *)

(** ** EmergencyCorridor.jsx: the path of a route and the primary polylines *)

Module RoutePath.

(** ToInt32: the 32-bit two's complement integer of an integer. *)
Definition ToInt32 (z : Z) : Z := ((z + 2 ^ 31) mod 2 ^ 32 - 2 ^ 31)%Z.

(** [x << shift] on 32-bit integers; the shift count is taken modulo 32. *)
Definition shl (x shift : Z) : Z := ToInt32 (Z.shiftl x (shift mod 32)).

(** The UTF-16 code units of a string, which [charCodeAt] reads. *)
Definition code_units (s : string) : list Z :=
  map (fun c => Z.of_nat (nat_of_ascii c)) (list_ascii_of_string s).

(** One loop [do { b = str.charCodeAt(index++) - 63; result |= (b & 0x1f)
    << shift; shift += 5; } while (b >= 0x20)] of [decode], on the code
    units from [index] on: the final [result] and the code units left. Past
    the end of the string [charCodeAt] gives [NaN]: [NaN & 0x1f] is 0, which
    leaves [result] as it is, and [NaN >= 0x20] is false, which ends the
    loop. *)
Fixpoint chunk_loop (str : list Z) (shift result : Z) : Z * list Z :=
  match str with
  | [] => (result, [])
  | c :: rest =>
      let b := (c - 63)%Z in
      let result := Z.lor result (shl (Z.land b 31) shift) in
      if (32 <=? b)%Z then chunk_loop rest (shift + 5) result
      else (result, rest)
  end.

(** [(result & 1) ? ~(result >> 1) : (result >> 1)]. *)
Definition delta (result : Z) : Z :=
  if (Z.land result 1 =? 0)%Z then Z.shiftr result 1
  else Z.lnot (Z.shiftr result 1).

(** The loop [while (index < str.length)] of [decode]; [turns] bounds the
    number of its turns. *)
Fixpoint decode_loop (turns : nat) (str : list Z) (lat lng : float)
  : list value :=
  match turns, str with
  | S turns', _ :: _ =>
      let (result1, str1) := chunk_loop str 0 0 in
      let lat := (lat + of_Z (delta result1))%float in
      let (result2, str2) := chunk_loop str1 0 0 in
      let lng := (lng + of_Z (delta result2))%float in
      VArr [VNum (lat / 1e5); VNum (lng / 1e5)]
        :: decode_loop turns' str2 lat lng
  | _, _ => []
  end.

(** Every turn reads a code unit or more, so the loop takes no more turns
    than the string has code units. *)
Definition decode (str : string) : list value :=
  decode_loop (String.length str) (code_units str) 0 0.

(** Nothing in [decode] throws, so the [catch] clause of
    [decodePolylineIfNeeded] is never entered. *)
Definition decodePolylineIfNeeded (poly : value) : value :=
  match poly with
  | VArr _ => poly
  | VStr s => if (0 <? String.length s)%nat then VArr (decode s) else VNull
  | _ => VNull
  end.

Definition getRoutePathCandidate (routeObj : value) : value :=
  if negb (truthy routeObj) then VNull
  else if truthy (get routeObj "path") then get routeObj "path"
  else if truthy (get routeObj "geometry"
                    &.& get (get routeObj "geometry") "coordinates")
  then get (get routeObj "geometry") "coordinates"
  else if truthy (get routeObj "coordinates") then get routeObj "coordinates"
  else if truthy (get routeObj "segments") then get routeObj "segments"
  else if truthy (get routeObj "polyline")
  then decodePolylineIfNeeded (get routeObj "polyline")
  else if isArray routeObj then routeObj
  else VNull.

(** [v.length]: of an array, of a string, or the property of an object. *)
Definition js_length (v : value) : value :=
  match v with
  | VArr items => VNum (of_nat (length items))
  | VStr s => VNum (of_nat (String.length s))
  | VObj _ => get v "length"
  | _ => VUndef
  end.

Section WithRuntime.

Variable StringToNumber : string -> float.
Variable NumberToString : float -> string.

Abbreviation Number := (ToNumber StringToNumber NumberToString).

(** The callback of [route.path.map] in [polylinePoints]: a pair
    [[lat, lon]] or [null]; reading [p.lat] of a [null] or [undefined] entry
    throws ([None]). *)
Definition path_point (p : value) : option value :=
  if is_nullish p then None
  else
    let lat :=
      Number (get p "lat" ?? get p "latitude"
                ?? (if isArray p then get_index p 0 else VNum nan)) in
    let lon :=
      Number (get p "lon" ?? get p "lng" ?? get p "longitude"
                ?? (if isArray p then get_index p 1 else VNum nan)) in
    Some (if PrimFloat.is_finite lat && PrimFloat.is_finite lon
          then VArr [VNum lat; VNum lon] else VNull).

(** [if (origin) pts.push([Number(origin.lat), Number(origin.lon)])], and
    the same for the destination. *)
Definition end_point (place : value) : list value :=
  if truthy place
  then [VArr [VNum (Number (get place "lat")); VNum (Number (get place "lon"))]]
  else [].

(** [if (route?.intersections) route.intersections.forEach((i) =>
    pts.push([i.lat, i.lon]))]: a truthy value that is no array has no
    [forEach] method, and calling it throws, as does reading [i.lat] of a
    [null] entry. *)
Definition intersection_points (route : value) : option (list value) :=
  let intersections := opt_get route "intersections" in
  if truthy intersections then
    match intersections with
    | VArr items =>
        mapM (fun i => if is_nullish i then None
                       else Some (VArr [get i "lat"; get i "lon"])) items
    | _ => None
    end
  else Some [].

(** The memoised [polylinePoints]. With a [route.path] whose [length] is
    truthy the points of the path are mapped; a value with such a [length]
    that is no array has no [map] method, and calling it throws. *)
Definition polylinePoints (route origin destination : value)
  : option (list value) :=
  let path := opt_get route "path" in
  if truthy (if is_nullish path then VUndef else js_length path) then
    match path with
    | VArr items => option_map (List.filter truthy) (mapM path_point items)
    | _ => None
    end
  else
    match intersection_points route with
    | None => None
    | Some between =>
        Some (end_point origin ++ between ++ end_point destination)
    end.

(** [primarySegments]: [buildSegmentsFromPath(pathCandidate ?? route?.path
    ?? polylinePoints)]; [polylinePoints] is computed before, as the
    component renders. *)
Definition primarySegments (route origin destination : value)
  : option (list segment) :=
  match polylinePoints route origin destination with
  | None => None
  | Some points =>
      buildSegmentsFromPath StringToNumber NumberToString
        (getRoutePathCandidate route ?? opt_get route "path" ?? VArr points)
  end.

(** The [pathOptions] of the polyline of a primary segment: its colour and
    its [dashArray] ([None] for [undefined]). *)
Definition primary_color (route : value) (seg : segment) : string :=
  match seg_severity seg with
  | Some x => getTrafficColor StringToNumber NumberToString (VNum x)
  | None =>
      getTrafficColor StringToNumber NumberToString
        (opt_get (opt_get route "traffic") "severity_pct")
  end.

Definition dashArray (seg : segment) : option string :=
  match seg_severity seg with
  | Some _ => None
  | None => Some "6 6"
  end.

(** The memoised [mapCenter]. *)
Definition mapCenter (st : CorridorPage.state) : value :=
  if truthy (CorridorPage.ambulancePos st)
  then VArr [get (CorridorPage.ambulancePos st) "lat";
             get (CorridorPage.ambulancePos st) "lon"]
  else VArr [VNum (Number (get (CorridorPage.origin st) "lat"));
             VNum (Number (get (CorridorPage.origin st) "lon"))].

End WithRuntime.

End RoutePath.

(** ** The Encoded Polyline Algorithm Format *)

(** The format that the comment of the decoder names ("Google encoded
    polyline algorithm"): a signed integer is shifted left by one bit and
    inverted when negative, then written in chunks of five bits, lowest
    first, each but the last marked with 0x20, and each moved by 63 into the
    printable characters. A path is written as the differences from point
    to point of its coordinates, which are integers: degrees times 1e5. *)
Module PolylineFormat.

Definition zigzag (d : Z) : Z :=
  if (d <? 0)%Z then Z.lnot (Z.shiftl d 1) else Z.shiftl d 1.

(** The code units of [n], in [chunks] + 1 chunks at most. *)
Fixpoint encode_unsigned (chunks : nat) (n : Z) : list Z :=
  match chunks with
  | O => [(n + 63)%Z]
  | S chunks' =>
      if (n <? 32)%Z then [(n + 63)%Z]
      else (Z.lor 32 (Z.land n 31) + 63)%Z
             :: encode_unsigned chunks' (Z.shiftr n 5)
  end.

(** Six chunks hold the thirty bits of a difference between -2^29 and
    2^29, which is more than 5000 degrees. *)
Definition encode_signed (d : Z) : list Z := encode_unsigned 5 (zigzag d).

Definition in_range (d : Z) : Prop := (- 2 ^ 29 <= d < 2 ^ 29)%Z.

Definition string_of_code_units (l : list Z) : string :=
  string_of_list_ascii (map (fun c => ascii_of_nat (Z.to_nat c)) l).

Definition encode (deltas : list (Z * Z)) : string :=
  string_of_code_units
    (concat (map (fun d => encode_signed (fst d) ++ encode_signed (snd d))
                 deltas)).

(** The points of a path given by its differences: the sums of the
    differences so far, as the decoder adds them up, in degrees. *)
Fixpoint coordinates (lat lng : float) (deltas : list (Z * Z)) : list value :=
  match deltas with
  | [] => []
  | d :: rest =>
      let lat := (lat + of_Z (fst d))%float in
      let lng := (lng + of_Z (snd d))%float in
      VArr [VNum (lat / 1e5); VNum (lng / 1e5)] :: coordinates lat lng rest
  end.

(** The example of the format's description: the points (38.5, -120.2),
    (40.7, -120.95) and (43.252, -126.453). *)
Definition example_deltas : list (Z * Z) :=
  [(3850000, -12020000); (220000, -75000); (255200, -550300)]%Z.

End PolylineFormat.

(** ** Vocabulary: the points of a path and the polylines drawn for it *)

Module Drawing.

(** A point given as an array of two elements or more, the one shape whose
    numbers [normalizePoint] does not test with [Number.isFinite]. *)
Definition coordinate_pair (p : value) : bool :=
  isArray p && (2 <=? arr_length p)%nat.

(** No point of the payload is such an array: neither an entry of the path
    array nor a point of the [path], [segment], [coordinates], [coords] or
    [geometry] of an entry. *)
Definition point_objects (entries : list value) : Prop :=
  Forall (fun v => coordinate_pair v = false) entries
  /\ Forall (fun segObj =>
               Forall (fun p => coordinate_pair p = false)
                      (array_or_empty (segment_raw segObj))) entries.

(** The coordinate [[lat, lon]] of a normalised point. *)
Definition coord_of (p : point) : coord := (lat p, lon p).

(** The windows of a path: six points each, the last one fewer, every
    window starting on the last point of the one before; [turns] bounds
    their number. *)
Fixpoint windows (turns : nat) (path : list coord) : list (list coord) :=
  match turns with
  | O => []
  | S turns' =>
      if (2 <=? length path)%nat
      then take (S SEGMENT_GROUP_SIZE) path
             :: windows turns' (drop SEGMENT_GROUP_SIZE path)
      else []
  end.

(** Sample places of the closed examples. *)
Definition andheri : value := VObj [("lat", VNum 19.125); ("lon", VNum 72.875)].
Definition fort : value := VObj [("lat", VNum 18.9375); ("lon", VNum 72.8125)].

Definition seven_points : list point :=
  [mkPoint 1 1 None; mkPoint 2 2 None; mkPoint 3 3 None; mkPoint 4 4 None;
   mkPoint 5 5 None; mkPoint 6 6 None; mkPoint 7 7 None]%float.

End Drawing.

(** ** Vocabulary: the roads that [normalizeRoads] keeps *)

Module RoadList.

(** The test of the filter of [normalizeRoads], on a road that is an
    object. *)
Definition with_coordinates (r : value) : bool :=
  isArray (get r "coordinates") && (0 <? arr_length (get r "coordinates"))%nat.

(** A name that is truthy and no string: a number, [true], an array, an
    object. *)
Definition name_not_string (r : value) : bool :=
  match get r "name" with
  | VStr _ => false
  | name => truthy name
  end.

(** Sample roads of the closed examples. *)
Definition three_roads : list value :=
  [road "Unnamed Road" 4; road "Park Street" 2; road "Strand Road" 3].

End RoadList.

(** ** Vocabulary: how a handler ends *)

Module Settling.

(** Run on [s], the handler [m] ends normally (its promise is resolved,
    not rejected) in a state of the component that satisfies [after]. *)
Definition ends {C A : Type} (after : C -> Prop) (m : Pages.M C A)
    (s : Pages.browser * C) : Prop :=
  exists (a : A) (s' : Pages.browser * C),
    m s = (Pages.Resolved a, s') /\ after (snd s').

(** [m] does so from every state that satisfies [before]. *)
Definition settles {C A : Type} (m : Pages.M C A) (before after : C -> Prop)
  : Prop :=
  forall s : Pages.browser * C, before (snd s) -> ends after m s.

Definition always {C : Type} : C -> Prop := fun _ => True.

(** A state of the corridor page, before a request. *)
Definition corridor_state : CorridorPage.state :=
  CorridorPage.mkState "AMB101" Drawing.andheri Drawing.fort
    "Andheri, Mumbai" "Fort, Mumbai" VNull VNull (VArr []) VNull VNull false
    None.

End Settling.

(** ** api.js: the request interceptor *)

Module Api.

(** [import.meta.env.VITE_API_KEY || "1a6x..."]. *)
Definition API_KEY (VITE_API_KEY : value) : value :=
  VITE_API_KEY |.| VStr "1a6x1hi1wlUUYkBcUEDuQ5xjdRrqKda6mJXF8Ayf2oc".

(** [obj[k] = v] on the bindings of an object: a key that is there keeps its
    place, a new key comes last. *)
Fixpoint put (k : string) (v : value) (fields : list (string * value))
  : list (string * value) :=
  match fields with
  | [] => [(k, v)]
  | (k', v') :: rest =>
      if String.eqb k k' then (k, v) :: rest else (k', v') :: put k v rest
  end.

(** What the callback of the interceptor does with a configuration: it
    returns one, it throws, or it sets the properties on an array, which
    becomes an array with named properties and is no JSON value. *)
Inductive intercepted : Type :=
| Passed (config : value)
| Thrown
| ArrayWithProperties.

(** The callback of [API.interceptors.request.use], which axios runs on the
    configuration of every request of api.js. Assigning to a property of a
    primitive value throws in module code. *)
Definition request_interceptor (VITE_API_KEY : value) (b : Pages.browser)
    (config : value) : intercepted :=
  if negb (truthy config) then Passed config
  else
    match config with
    | VObj fields =>
        match get config "headers" |.| VObj [] with
        | VObj headers =>
            let headers := put "x-api-key" (API_KEY VITE_API_KEY) headers in
            let headers :=
              match Pages.localStorage b !! "md_jwt" with
              | Some token =>
                  if String.eqb token "" then headers
                  else put "Authorization" (VStr ("Bearer " ++ token)) headers
              | None => headers
              end in
            Passed (VObj (put "headers" (VObj headers) fields))
        | VArr _ => ArrayWithProperties
        | _ => Thrown
        end
    | VArr _ => ArrayWithProperties
    | _ => Thrown
    end.

(** The configuration that [API.get("/api/roads", { params })] starts
    from, with the default headers of the instance. *)
Definition roads_request : list (string * value) :=
  [("url", VStr "/api/roads");
   ("headers", VObj [("Content-Type", VStr "application/json")])].

End Api.

(** ** What the pages show *)

(** *** EmergencyCorridor.jsx: the status panel and the list of
    alternatives *)

Module CorridorPanel.

Section WithRuntime.

Variable StringToNumber : string -> float.
Variable NumberToString : float -> string.

Abbreviation Number := (ToNumber StringToNumber NumberToString).

(** The colour of the traffic figure of the primary route:
    [severity_pct > 50 ? "#b91c1c" : severity_pct > 30 ? "#eab308" :
    "#059669"]. *)
Definition status_traffic_color (severity_pct : value) : string :=
  if (50 <? Number severity_pct)%float then "#b91c1c"
  else if (30 <? Number severity_pct)%float then "#eab308"
  else "#059669".

(** The ETA of the status panel, before " min": [status.route ?
    (status.route.duration_s / 60).toFixed(1) :
    etaMinutesFromRoute(status.route)]. *)
Definition status_eta (route : value) : string :=
  if truthy route
  then JS.toFixed1 NumberToString (Number (get route "duration_s") / 60)%float
  else etaMinutesFromRoute StringToNumber NumberToString route.

(** The ETA of an alternative in the list, before " min":
    [alt.route?.duration_s ? (alt.route.duration_s / 60).toFixed(1) :
    etaMinutesFromRoute(alt.route)], [route] being [alt.route]. *)
Definition alternative_eta (route : value) : string :=
  if truthy (opt_get route "duration_s")
  then JS.toFixed1 NumberToString (Number (get route "duration_s") / 60)%float
  else etaMinutesFromRoute StringToNumber NumberToString route.

End WithRuntime.

End CorridorPanel.

(** *** Reading an object that is used as a map *)

Module PlainObject.

(** The properties that an object created by [{}] inherits from
    [Object.prototype]. *)
Definition Object_prototype_keys : list string :=
  ["constructor"; "__defineGetter__"; "__defineSetter__"; "hasOwnProperty";
   "__lookupGetter__"; "__lookupSetter__"; "isPrototypeOf";
   "propertyIsEnumerable"; "toString"; "valueOf"; "__proto__";
   "toLocaleString"].

Definition inherited (key : string) : bool :=
  existsb (String.eqb key) Object_prototype_keys.

(** [obj[key]] on such an object with the own properties [own]: the own
    property; else, for a key of [Object.prototype], a function or the
    prototype itself, which is no JSON value ([None]): it is not nullish,
    its type is not "number", and it is [NaN] as a number; else
    [undefined]. *)
Definition read (own : gmap string value) (key : string) : option value :=
  match own !! key with
  | Some v => Some v
  | None => if inherited key then None else Some VUndef
  end.

End PlainObject.

(** *** Dashboard.jsx: the cards *)

Module DashboardCards.

(** What a card shows of the prediction of a segment: the figure and the
    level, a label and a colour. *)
Record card : Type := mkCard {
  figure : string;
  level : string * string
}.

Section WithRuntime.

Variable StringToNumber : string -> float.
Variable NumberToString : float -> string.

Abbreviation Number := (ToNumber StringToNumber NumberToString).

Definition levelFor (v : value) : string * string :=
  if (Number v <? 30)%float then ("Low", "green")
  else if (Number v <? 70)%float then ("Medium", "orange")
  else ("High", "red").

(** The entry of [summary] for a row of the live mode, whose
    [vehicle_count] is a number: [avg] and [predicted], which is
    [predictions[d.segment] ?? d.vehicle_count] ([None] for a function). *)
Definition summary_avg (d : Dashboard.live_row) : float :=
  StringToNumber (JS.toFixed1 NumberToString (Dashboard.vehicle_count d)).

Definition summary_predicted (predictions : gmap string value)
    (d : Dashboard.live_row) : option value :=
  match PlainObject.read predictions
          (ToString NumberToString (Dashboard.segment d)) with
  | Some v => Some (v ?? VNum (Dashboard.vehicle_count d))
  | None => None
  end.

(** The card of that entry: [pred = typeof s.predicted === "number" ?
    s.predicted : s.avg], shown as [pred ? Number(pred).toFixed(1) : "-"]
    with the level [levelFor(pred)]. *)
Definition live_card (predictions : gmap string value)
    (d : Dashboard.live_row) : card :=
  let pred :=
    match summary_predicted predictions d with
    | Some (VNum x) => x
    | _ => summary_avg d
    end in
  mkCard (if truthy (VNum pred) then JS.toFixed1 NumberToString pred else "-")
         (levelFor (VNum pred)).

End WithRuntime.

End DashboardCards.

(** *** AirQuality.jsx: the level of an index *)

Module AirQualityLevel.

Section WithRuntime.

Variable StringToNumber : string -> float.
Variable NumberToString : float -> string.

Abbreviation Number := (ToNumber StringToNumber NumberToString).

(** [aqiLevel]: a label and a colour. *)
Definition aqiLevel (aqi : value) : string * string :=
  if is_nullish aqi then ("Unknown", "#9ca3af")
  else if (Number aqi <=? 50)%float then ("Good", "#22c55e")
  else if (Number aqi <=? 100)%float then ("Moderate", "#eab308")
  else if (Number aqi <=? 150)%float then ("Unhealthy (SG)", "#f97316")
  else if (Number aqi <=? 200)%float then ("Unhealthy", "#ef4444")
  else if (Number aqi <=? 300)%float then ("Very Unhealthy", "#a855f7")
  else ("Hazardous", "#7f1d1d").

End WithRuntime.

(** The bands of the US AQI scale, for a whole index. *)
Definition us_aqi_band (n : Z) : string :=
  if (n <=? 50)%Z then "Good"
  else if (n <=? 100)%Z then "Moderate"
  else if (n <=? 150)%Z then "Unhealthy (SG)"
  else if (n <=? 200)%Z then "Unhealthy"
  else if (n <=? 300)%Z then "Very Unhealthy"
  else "Hazardous".

End AirQualityLevel.

(** *** MapView.jsx: the line of a road *)

Module MapRoads.

(** [Math.max] and [Math.min] of two numbers: [NaN] when either is [NaN];
    of the two zeros, +0 is the larger. *)
Definition Math_max (a b : float) : float :=
  if PrimFloat.is_nan a || PrimFloat.is_nan b then nan
  else if (a <? b)%float then b
  else if (b <? a)%float then a
  else if PrimFloat.get_sign a then b else a.

Definition Math_min (a b : float) : float :=
  if PrimFloat.is_nan a || PrimFloat.is_nan b then nan
  else if (a <? b)%float then a
  else if (b <? a)%float then b
  else if PrimFloat.get_sign a then a else b.

Section WithRuntime.

Variable StringToNumber : string -> float.
Variable NumberToString : float -> string.

Abbreviation Number := (ToNumber StringToNumber NumberToString).

Definition severityColor (sev : value) : string :=
  if (Number sev <? 33)%float then "#34d399"
  else if (Number sev <? 66)%float then "#f59e0b"
  else "#fb7185".

(** [sev = severity[road.id] ?? 20] ([None] for a function). *)
Definition shown_severity (severity : gmap string value) (road : value)
  : option value :=
  match PlainObject.read severity (ToString NumberToString (get road "id")) with
  | Some v => Some (v ?? VNum 20)
  | None => None
  end.

(** [Math.max(3, Math.min(8, Math.round(sev / 15)))]. *)
Definition road_weight (sev : value) : float :=
  Math_max 3 (Math_min 8 (Math_round (Number sev / 15)%float)).

(** The [pathOptions] of the line of a road: [color: severityColor(sev)]
    and [weight]. *)
Definition line_color (severity : gmap string value) (road : value) : string :=
  match shown_severity severity road with
  | Some sev => severityColor sev
  | None => "#fb7185"
  end.

Definition line_weight (severity : gmap string value) (road : value) : float :=
  match shown_severity severity road with
  | Some sev => road_weight sev
  | None => Math_max 3 (Math_min 8 (Math_round nan))
  end.

End WithRuntime.

End MapRoads.

(** Sample networks of the closed examples: one that answers every [fetch]
    with the JSON value [res]. *)
Module Samples.

Definition answering (res : value) : Pages.network :=
  Pages.mkNetwork
    (fun _ _ => Pages.Rejected "Network Error")
    (fun _ _ => Pages.Rejected "Network Error")
    (fun _ _ _ _ => Pages.Rejected "Network Error")
    (fun _ _ _ _ => Pages.Rejected "Network Error")
    (fun _ => Pages.Resolved
                (Pages.mkResponse true (Pages.Resolved res) (Pages.Resolved "")))
    (fun roads => roads) (fun roads => Permutation_refl roads).

(** A network on which the geocoding of Open-Meteo answers with one place
    and every other request fails. *)
Definition geocoding_only : Pages.network :=
  Pages.mkNetwork
    (fun _ _ => Pages.Rejected "Network Error")
    (fun _ _ => Pages.Rejected "Network Error")
    (fun _ _ _ _ => Pages.Rejected "Network Error")
    (fun _ _ _ _ => Pages.Rejected "Network Error")
    (fun req =>
       match req with
       | Pages.OpenMeteoGeocode _ =>
           Pages.Resolved
             (Pages.mkResponse true
                (Pages.Resolved
                   (VObj [("results",
                           VArr [VObj [("latitude", VNum 18.5);
                                       ("longitude", VNum 73.875)]])]))
                (Pages.Resolved ""))
       | _ => Pages.Rejected "Failed to fetch"
       end)
    (fun roads => roads) (fun roads => Permutation_refl roads).

(** The corridor page once a request has been made. *)
Definition requested_state : CorridorPage.state :=
  CorridorPage.mkState "AMB101" Drawing.andheri Drawing.fort
    "Andheri, Mumbai" "Fort, Mumbai" (VStr "r1") VNull (VArr []) VNull
    Drawing.fort false None.

End Samples.

(** *** AirQuality.jsx: the rows of the hourly charts *)

Module AirQualityCharts.

(** [t.slice(11, 16)], a method of strings and of arrays; on another value
    the call throws ([None]). *)
Definition slice_11_16 (t : value) : option value :=
  match t with
  | VStr s => Some (VStr (substring 11 5 s))
  | VArr items => Some (VArr (take 5 (drop 11 items)))
  | _ => None
  end.

(** The callback of [times.map], at index [i]. *)
Definition chart_row (pm25 pm10 ozone uv : value) (i : nat) (t : value)
  : option value :=
  match slice_11_16 t with
  | Some label =>
      Some (VObj [("time", label);
                  ("pm25", get_index pm25 i ?? VNull);
                  ("pm10", get_index pm10 i ?? VNull);
                  ("ozone", get_index ozone i ?? VNull);
                  ("uv", get_index uv i ?? VNull)])
  | None => None
  end.

Fixpoint chart_rows (pm25 pm10 ozone uv : value) (i : nat) (times : list value)
  : option (list value) :=
  match times with
  | [] => Some []
  | t :: rest =>
      match chart_row pm25 pm10 ozone uv i t,
            chart_rows pm25 pm10 ozone uv (S i) rest with
      | Some row, Some rows => Some (row :: rows)
      | _, _ => None
      end
  end.

(** The memoised [hourlyChartData]. A truthy [hourly.time] that is no array
    has no [map] method, and calling it throws. *)
Definition hourlyChartData (aqData : value) : option (list value) :=
  let hourly := opt_get aqData "hourly" in
  if negb (truthy (opt_get hourly "time")) then Some []
  else
    match get hourly "time" with
    | VArr times =>
        chart_rows (get hourly "pm2_5" |.| VArr []) (get hourly "pm10" |.| VArr [])
                   (get hourly "ozone" |.| VArr [])
                   (get hourly "uv_index" |.| VArr []) 0 times
    | _ => None
    end.

(** The series of a row, by the key of the row and the key of [hourly]. *)
Definition series : list (string * string) :=
  [("pm25", "pm2_5"); ("pm10", "pm10"); ("ozone", "ozone"); ("uv", "uv_index")].

(** Sample data: three hours, with a particulate series of two values. *)
Definition three_hours : value :=
  VObj [("hourly",
         VObj [("time", VArr [VStr "2025-01-01T00:00"; VStr "2025-01-01T01:00";
                              VStr "2025-01-01T02:00"]);
               ("pm2_5", VArr [VNum 12; VNum 15])])].

End AirQualityCharts.

(** The air quality page showing Kolkata, with "Pune" typed in. *)
Module AirSamples.

Definition air_state : AirQuality.state :=
  AirQuality.mkState "Pune" (VNum 22.5626) (VNum 88.363) false ""
    AirQualityCharts.three_hours.

End AirSamples.

(** *** Dashboard.jsx: the summary of the predictive mode *)

Module PredictiveSummary.

Section WithRuntime.

Variable StringToNumber : string -> float.
Variable NumberToString : float -> string.

(** [v.toFixed(1)], a method of numbers: on another value the call throws
    ([None]). *)
Definition value_toFixed1 (v : value) : option string :=
  match v with
  | VNum x => Some (JS.toFixed1 NumberToString x)
  | _ => None
  end.

(** The entry of [summary] for a row of the predictive mode: [avg:
    Number(d.avg_7d.toFixed(1))] and [predicted:
    Number(d.predicted.toFixed(1))]. The memoised [summary] is computed as
    the component renders, so that an entry that throws leaves nothing
    rendered. *)
Definition predictive_summary (d : Dashboard.predicted_row)
  : option (float * float) :=
  match value_toFixed1 (Dashboard.avg_7d d),
        value_toFixed1 (Dashboard.predicted d) with
  | Some avg, Some predicted =>
      Some (StringToNumber avg, StringToNumber predicted)
  | _, _ => None
  end.

(** The data of the answer of the prediction service for a road, when
    there is an answer with [data]. *)
Definition prediction (net : Pages.network) (city : string)
    (timeSteps : float) (road : value) : option value :=
  match Pages.predictToday net (get road "id") 30%float timeSteps city with
  | Pages.Resolved res =>
      if is_nullish res || is_nullish (get res "data") then None
      else Some (get res "data")
  | Pages.Rejected _ => None
  end.

End WithRuntime.

(** The row that the loop of [loadPredictive] records for a road whose
    prediction has the data [d]. *)
Definition row_of (road d : value) : Dashboard.predicted_row :=
  Dashboard.mkPredictedRow (get road "id") (get d "avg_7d")
    (get d "predicted_today") (get road "name" |.| get road "id").

(** A network that lists the roads "a" and "b" and predicts 42 vehicles for
    each, without a seven-day average. *)
Definition no_average : Pages.network :=
  Pages.mkNetwork
    (fun _ _ => Pages.Rejected "Network Error")
    (fun _ _ =>
       Pages.Resolved (VObj [("data", VObj [("roads", VArr [road_a; road_b])])]))
    (fun _ _ _ _ => Pages.Rejected "Network Error")
    (fun _ _ _ _ =>
       Pages.Resolved (VObj [("data", VObj [("predicted_today", VNum 42)])]))
    (fun _ => Pages.Rejected "Failed to fetch")
    (fun roads => roads) (fun roads => Permutation_refl roads).

End PredictiveSummary.

(** *** fetchCO2ForCity: the reading that the responses hold *)

Module CarbonMonoxide.

(** The carbon monoxide reading for a city, as the two responses of
    OpenWeather give it: the geocoding answers with an array whose first
    entry is the place; the air-pollution service, asked for the [lat] and
    [lon] of that place, answers with data whose [list[0].components.co]
    is the reading. There is none ([None]) when a request fails, a body is
    no JSON, the array is empty or starts with [null], or the reading is
    [null] or missing. *)
Definition reading (net : Pages.network) (cityName : string) : option value :=
  match Pages.fetch net (Pages.OpenWeatherGeo cityName) with
  | Pages.Resolved geoRes =>
      match Pages.json geoRes with
      | Pages.Resolved (VArr (place :: _)) =>
          if is_nullish place then None
          else
            match Pages.fetch net
                    (Pages.OpenWeatherAir (get place "lat") (get place "lon"))
            with
            | Pages.Resolved airRes =>
                match Pages.json airRes with
                | Pages.Resolved airData =>
                    let co :=
                      Pages.opt_get
                        (Pages.opt_get
                           (Pages.opt_index (Pages.opt_get airData "list") 0)
                           "components")
                        "co" in
                    if is_nullish co then None else Some co
                | Pages.Rejected _ => None
                end
            | Pages.Rejected _ => None
            end
      | _ => None
      end
  | Pages.Rejected _ => None
  end.

(** A network on which OpenWeather knows one place and reads 280 there,
    and every other request fails. *)
Definition monitored : Pages.network :=
  Pages.mkNetwork
    (fun _ _ => Pages.Rejected "Network Error")
    (fun _ _ => Pages.Rejected "Network Error")
    (fun _ _ _ _ => Pages.Rejected "Network Error")
    (fun _ _ _ _ => Pages.Rejected "Network Error")
    (fun req =>
       match req with
       | Pages.OpenWeatherGeo _ =>
           Pages.Resolved
             (Pages.mkResponse true
                (Pages.Resolved
                   (VArr [VObj [("lat", VNum 22.5); ("lon", VNum 88.25)]]))
                (Pages.Resolved ""))
       | Pages.OpenWeatherAir _ _ =>
           Pages.Resolved
             (Pages.mkResponse true
                (Pages.Resolved
                   (VObj [("list",
                           VArr [VObj [("components",
                                        VObj [("co", VNum 280)])]])]))
                (Pages.Resolved ""))
       | _ => Pages.Rejected "Failed to fetch"
       end)
    (fun roads => roads) (fun roads => Permutation_refl roads).

End CarbonMonoxide.

(** * Properties of EmergencyCorridor.jsx *)

Section CorridorProperties.

Variable StringToNumber : string -> float.
Variable NumberToString : float -> string.

Abbreviation Number := (ToNumber StringToNumber NumberToString).
Abbreviation normalizePoint' := (normalizePoint StringToNumber NumberToString).
Abbreviation getTrafficColor' := (getTrafficColor StringToNumber NumberToString).
Abbreviation etaMinutesFromRoute' :=
  (etaMinutesFromRoute StringToNumber NumberToString).
Abbreviation toFixed1' := (toFixed1 NumberToString).

Lemma first_present_lat fields x :
  first_present ["lat"; "latitude"; "lat_deg"] (VObj fields) = Some x ->
  latRaw (VObj fields) = x.
Proof.
  unfold latRaw, coalesce; simpl.
  repeat (destruct (is_nullish (assoc _ fields)); [| congruence]).
  discriminate.
Qed.

Lemma first_present_lon fields y :
  first_present ["lon"; "lng"; "longitude"; "lon_deg"] (VObj fields) = Some y ->
  lonRaw (VObj fields) = y.
Proof.
  unfold lonRaw, coalesce; simpl.
  repeat (destruct (is_nullish (assoc _ fields)); [| congruence]).
  discriminate.
Qed.

(** C1. On an array of two numbers [[a, b]], [normalizePoint] returns the
    swapped point [{lat: b, lon: a}] when [|a| > 90] and [|b| <= 90], and
    [{lat: a, lon: b}] otherwise. On an object it reads the latitude from
    the first present of lat, latitude, lat_deg and the longitude from the
    first present of lon, lng, longitude, lon_deg; when both convert to
    finite numbers, they are the point it returns. *)
Theorem normalizePoint_ordering :
  (forall a b : float,
     normalizePoint' (VArr [VNum a; VNum b]) =
       Some (if (90 <? abs a)%float && (abs b <=? 90)%float
             then mkPoint b a None else mkPoint a b None))
  /\
  (forall fields x y,
     first_present ["lat"; "latitude"; "lat_deg"] (VObj fields) = Some x ->
     first_present ["lon"; "lng"; "longitude"; "lon_deg"] (VObj fields) = Some y ->
     latRaw (VObj fields) = x /\ lonRaw (VObj fields) = y /\
     (PrimFloat.is_finite (Number x) = true ->
      PrimFloat.is_finite (Number y) = true ->
      normalizePoint' (VObj fields) =
        Some (mkPoint (Number x) (Number y)
                (number_or_null StringToNumber NumberToString
                   (severityRaw (VObj fields)))))).
Proof.
  split.
  - intros a b. unfold normalizePoint, looks_lon_lat. simpl.
    destruct ((90 <? abs a)%float && (abs b <=? 90)%float); reflexivity.
  - intros fields x y Hx Hy.
    pose proof (first_present_lat _ _ Hx) as Hlat.
    pose proof (first_present_lon _ _ Hy) as Hlon.
    repeat split; trivial.
    intros Fx Fy. unfold normalizePoint.
    change (is_nullish (VObj fields)) with false.
    change (isArray (VObj fields)) with false. cbv iota. simpl andb.
    rewrite Hlat, Hlon, Fx, Fy. reflexivity.
Qed.

Lemma colours_distinct :
  blue <> red /\ blue <> yellow /\ blue <> green
  /\ red <> yellow /\ red <> green /\ yellow <> green.
Proof. repeat split; discriminate. Qed.

(** The colour of every whole percentage from 0 to 100, by running the
    function on each. *)
Lemma getTrafficColor_percent (p : Z) :
  (0 <= p <= 100)%Z ->
  getTrafficColor' (VNum (of_Z p)) =
    if (p <=? 33)%Z then green else if (p <=? 66)%Z then yellow else red.
Proof.
  intros Hp.
  assert (Hall :
    forallb (fun n =>
      String.eqb (getTrafficColor' (VNum (of_Z (Z.of_nat n))))
                 (if (Z.of_nat n <=? 33)%Z then green
                  else if (Z.of_nat n <=? 66)%Z then yellow else red))
      (seq 0 101) = true) by (vm_compute; reflexivity).
  rewrite forallb_forall in Hall.
  specialize (Hall (Z.to_nat p)).
  rewrite Z2Nat.id in Hall by lia.
  apply String.eqb_eq, Hall, in_seq. lia.
Qed.


Lemma absent_or_zero_unusable v :
  absent_or_zero v ->
  truthy v && negb (isNaN StringToNumber NumberToString v) = false.
Proof.
  intros [H | (x & -> & H)].
  - destruct v; try discriminate; reflexivity.
  - simpl. rewrite H. reflexivity.
Qed.

Lemma number_usable x :
  PrimFloat.is_nan x = false -> PrimFloat.is_zero x = false ->
  truthy (VNum x) && negb (isNaN StringToNumber NumberToString (VNum x)) = true.
Proof.
  intros Hn Hz. unfold isNaN. simpl. rewrite Hn, Hz. reflexivity.
Qed.

(** C8, as amended. [etaMinutesFromRoute] returns [duration_s / 60]
    formatted to one decimal when [duration_s] is a number other than zero
    and [NaN]; when [duration_s] is missing, [null], zero or [NaN] and
    [distance_m] is a number other than zero and [NaN], it returns
    [distance_m] divided by 30 km/h in m/s, then by 60, formatted to one
    decimal; it returns the dash when the route object is falsy ([null]
    included) or when both fields are missing, [null], zero or [NaN]. *)
Theorem etaMinutesFromRoute_cases (routeObj : value) :
  (forall x,
     truthy routeObj = true ->
     get routeObj "duration_s" = VNum x ->
     PrimFloat.is_nan x = false -> PrimFloat.is_zero x = false ->
     etaMinutesFromRoute' routeObj = toFixed1' (x / 60)%float)
  /\ (forall y,
       truthy routeObj = true ->
       absent_or_zero (get routeObj "duration_s") ->
       get routeObj "distance_m" = VNum y ->
       PrimFloat.is_nan y = false -> PrimFloat.is_zero y = false ->
       etaMinutesFromRoute' routeObj =
         toFixed1' ((y / ((30 * 1000) / 3600)) / 60)%float)
  /\ (truthy routeObj = false
      \/ (absent_or_zero (get routeObj "duration_s")
          /\ absent_or_zero (get routeObj "distance_m")) ->
      etaMinutesFromRoute' routeObj = dash)
  /\ etaMinutesFromRoute' VNull = dash.
Proof.
  repeat split.
  - intros x Ht Hd Hn Hz. unfold etaMinutesFromRoute.
    rewrite Ht, Hd, number_usable by assumption. reflexivity.
  - intros y Ht Hd Hm Hn Hz. unfold etaMinutesFromRoute.
    rewrite Ht, (absent_or_zero_unusable _ Hd), Hm, number_usable by assumption.
    reflexivity.
  - intros [Ht | [Hd Hm]]; unfold etaMinutesFromRoute.
    + rewrite Ht. reflexivity.
    + rewrite (absent_or_zero_unusable _ Hd), (absent_or_zero_unusable _ Hm).
      destruct (truthy routeObj); reflexivity.
Qed.

End CorridorProperties.

(** C1, on the object [{latitude: 19.25, lng: 72.5, lat: null}]. *)
Lemma normalizePoint_ordering_witness :
  normalizePoint decimal_StringToNumber decimal_NumberToString
    (VObj [("lat", VNull); ("latitude", VNum 19.25); ("lng", VNum 72.5)])
  = Some (mkPoint 19.25 72.5 None).
Proof.
  exact (proj2 (proj2 (proj2 (normalizePoint_ordering
                                decimal_StringToNumber decimal_NumberToString)
    [("lat", VNull); ("latitude", VNum 19.25%float); ("lng", VNum 72.5%float)]
    (VNum 19.25%float) (VNum 72.5%float) eq_refl eq_refl)) eq_refl eq_refl).
Defined.


(** C8 as stated fails on [{duration_s: 0, distance_m: 3000}]: the duration
    is present and numeric, yet the ETA is computed from the distance. *)
Lemma etaMinutesFromRoute_zero_duration :
  let routeObj := VObj [("duration_s", VNum 0); ("distance_m", VNum 3000)] in
  get routeObj "duration_s" = VNum 0
  /\ toFixed1 decimal_NumberToString (0 / 60)%float = "0.0"
  /\ etaMinutesFromRoute decimal_StringToNumber decimal_NumberToString routeObj = "6.0"
  /\ etaMinutesFromRoute decimal_StringToNumber decimal_NumberToString routeObj
     <> toFixed1 decimal_NumberToString (0 / 60)%float.
Proof.
  vm_compute. repeat split; try reflexivity. discriminate.
Qed.

(** C8 as amended, on [{distance_m: 3000}]: 3000 m at 30 km/h. *)
Lemma etaMinutesFromRoute_cases_witness :
  etaMinutesFromRoute decimal_StringToNumber decimal_NumberToString
    (VObj [("distance_m", VNum 3000)])
  = toFixed1 decimal_NumberToString ((3000 / ((30 * 1000) / 3600)) / 60)%float.
Proof.
  refine (proj1 (proj2 (etaMinutesFromRoute_cases
            decimal_StringToNumber decimal_NumberToString
            (VObj [("distance_m", VNum 3000%float)])))
            3000%float eq_refl _ eq_refl eq_refl eq_refl).
  left. reflexivity.
Defined.

(** * Properties of groupSegments *)

Section GroupingProperties.

(** The outer loop cuts the list into the chunks that [chunks] lists. *)
Lemma drop_nil_iff {A : Type} (l : list A) (i : nat) :
  (i <? length l)%nat = false -> drop i l = [].
Proof.
  intros H. apply Nat.ltb_ge in H. apply drop_ge. exact H.
Qed.

Lemma group_loop_runs (turns : nat) (segments : list segment) (i : nat) :
  group_loop turns segments i = group_runs (chunks turns (drop i segments)).
Proof.
  revert i. induction turns as [| turns IH]; intros i; simpl; [reflexivity |].
  destruct (i <? length segments)%nat eqn:Hi.
  - apply Nat.ltb_lt in Hi.
    destruct (drop i segments) as [| s rest] eqn:Hd.
    + apply (f_equal length) in Hd. rewrite length_drop in Hd. simpl in Hd. lia.
    + rewrite <- Hd. rewrite IH. rewrite drop_drop. simpl.
      destruct (group_slice (take SEGMENT_GROUP_SIZE (drop i segments)));
        reflexivity.
  - rewrite (drop_nil_iff _ _ Hi). reflexivity.
Qed.

Lemma chunks_concat {A : Type} (turns : nat) (l : list A) :
  length l <= turns -> concat (chunks turns l) = l.
Proof.
  revert l. induction turns as [| turns IH]; intros l Hl.
  - destruct l; [reflexivity | simpl in Hl; lia].
  - destruct l as [| x l']; [reflexivity |].
    change (chunks (S turns) (x :: l'))
      with (take SEGMENT_GROUP_SIZE (x :: l')
              :: chunks turns (drop SEGMENT_GROUP_SIZE (x :: l'))).
    rewrite concat_cons, IH.
    + apply take_drop.
    + rewrite length_drop. unfold SEGMENT_GROUP_SIZE. simpl in *. lia.
Qed.

Lemma chunks_sizes {A : Type} (turns : nat) (l : list A) :
  Forall (fun run => 1 <= length run <= SEGMENT_GROUP_SIZE) (chunks turns l).
Proof.
  revert l. induction turns as [| turns IH]; intros l; [constructor |].
  destruct l as [| x l']; [constructor |].
  change (chunks (S turns) (x :: l'))
    with (take SEGMENT_GROUP_SIZE (x :: l')
            :: chunks turns (drop SEGMENT_GROUP_SIZE (x :: l'))).
  constructor; [| apply IH].
  rewrite length_take. unfold SEGMENT_GROUP_SIZE. cbn [length]. lia.
Qed.

Lemma chunks_count {A : Type} (turns : nat) (l : list A) :
  length l <= turns -> length (chunks turns l) = (length l + 4) / 5.
Proof.
  revert l. induction turns as [| turns IH]; intros l Hl.
  - destruct l; [reflexivity | simpl in Hl; lia].
  - destruct l as [| x l']; [reflexivity |].
    change (chunks (S turns) (x :: l'))
      with (take SEGMENT_GROUP_SIZE (x :: l')
              :: chunks turns (drop SEGMENT_GROUP_SIZE (x :: l'))).
    cbn [length]. rewrite IH.
    + rewrite length_drop. unfold SEGMENT_GROUP_SIZE. cbn [length].
      set (n := length l').
      destruct (Nat.le_gt_cases 4 n) as [Hn | Hn].
      * replace (S n + 4) with ((S n - 5 + 4) + 1 * 5) by lia.
        rewrite Nat.div_add by lia. lia.
      * replace (S n - 5 + 4) with 4 by lia.
        change (4 / 5) with 0.
        apply (Nat.div_unique (S n + 4) 5 1 (S n + 4 - 5)); lia.
    + rewrite length_drop. unfold SEGMENT_GROUP_SIZE. simpl in *. lia.
Qed.

(** A slice whose segments all have a point is cleaned without error. *)
Lemma filter_after_total (prev : option coord) (l : list (option coord)) :
  is_Some prev -> Forall is_Some l -> is_Some (filter_after prev l).
Proof.
  revert prev. induction l as [| p l IH]; intros prev Hprev Hl; simpl.
  - eauto.
  - inversion Hl as [| ? ? Hp Hl']; subst.
    destruct Hprev as [a ->]. destruct Hp as [b ->].
    destruct (IH (Some b)) as [kept ->]; eauto.
Qed.

Lemma cleaned_total (l : list (option coord)) :
  Forall is_Some l -> is_Some (cleaned l).
Proof.
  intros Hl. destruct l as [| p0 rest]; simpl; [eauto |].
  inversion Hl as [| ? ? Hp Hrest]; subst. destruct Hp as [a ->].
  destruct (filter_after_total (Some a) rest) as [kept Hk]; eauto.
  rewrite Hk. destruct rest; eauto.
Qed.

Lemma last_pt_some (s : segment) : pts s <> [] -> is_Some (last_pt s).
Proof.
  unfold last_pt. intros H.
  destruct (pts s) as [| c l] using rev_ind; [congruence |].
  rewrite last_snoc. eauto.
Qed.

Lemma flatten_slice_some (slice : list segment) :
  Forall (fun s => pts s <> []) slice -> Forall is_Some (flatten_slice slice).
Proof.
  intros H. destruct slice as [| s0 rest]; simpl; [constructor |].
  inversion H as [| ? ? _ Hrest]; subst.
  apply Forall_app. split.
  - apply Forall_forall. intros o Ho. apply list_elem_of_fmap in Ho.
    destruct Ho as (c & -> & _). eauto.
  - apply Forall_forall. intros o Ho. apply list_elem_of_fmap in Ho.
    destruct Ho as (s & -> & Hs).
    apply last_pt_some. rewrite Forall_forall in Hrest. auto.
Qed.

Lemma average_mean (run : list segment) :
  average (sevs run) = mean_severity run.
Proof.
  unfold average, mean_severity, non_null_severities, sevs, mean.
  destruct (omap seg_severity run); reflexivity.
Qed.

(** One turn pushes nothing, or one polyline with the mean severity. *)
Lemma group_slice_spec (run : list segment) :
  Forall (fun s => pts s <> []) run ->
  group_slice run = Some []
  \/ exists o, group_slice run = Some [o]
               /\ seg_severity o = mean_severity run
               /\ 2 <= length (pts o).
Proof.
  intros H. unfold group_slice.
  destruct (cleaned_total _ (flatten_slice_some _ H)) as [c ->].
  destruct (2 <=? length c)%nat eqn:E; [right | left; reflexivity].
  eexists. split; [reflexivity |]. simpl. split; [apply average_mean |].
  apply Nat.leb_le. exact E.
Qed.

Lemma group_runs_spec (runs : list (list segment)) :
  Forall (Forall (fun s => pts s <> [])) runs ->
  exists out,
    group_runs runs = Some out
    /\ grouped runs out
    /\ length out <= length runs
    /\ Forall (fun o => 2 <= length (pts o)) out.
Proof.
  induction runs as [| run runs IH]; intros H; simpl.
  - exists []. split; [reflexivity |]. split; [constructor |].
    split; [simpl; lia | constructor].
  - inversion H as [| ? ? Hrun Hruns]; subst.
    destruct (IH Hruns) as (out & -> & Hg & Hlen & Htwo).
    destruct (group_slice_spec run Hrun) as [-> | (o & -> & Ho & Hpts)].
    + exists out. split; [reflexivity |].
      split; [apply grouped_drop; exact Hg |].
      split; [simpl; lia | exact Htwo].
    + exists (o :: out). split; [reflexivity |].
      split; [apply grouped_keep; assumption |].
      split; [simpl; lia | constructor; assumption].
Qed.

Lemma chunks_Forall {A : Type} (P : A -> Prop) (turns : nat) (l : list A) :
  Forall P l -> Forall (Forall P) (chunks turns l).
Proof.
  revert l. induction turns as [| turns IH]; intros l H; [constructor |].
  destruct l as [| x l']; [constructor |].
  change (chunks (S turns) (x :: l'))
    with (take SEGMENT_GROUP_SIZE (x :: l')
            :: chunks turns (drop SEGMENT_GROUP_SIZE (x :: l'))).
  constructor.
  - apply Forall_take. exact H.
  - apply IH. apply Forall_drop. exact H.
Qed.

Lemma flatten_slice_points (run : list segment) :
  Forall (fun s => pts s <> []) run ->
  flatten_slice run = map Some (run_points run).
Proof.
  intros H. destruct run as [| first rest]; [reflexivity |].
  cbn [flatten_slice run_points]. rewrite map_app. f_equal.
  apply Forall_cons in H. destruct H as [_ H].
  induction H as [| s rest Hs Hrest IH]; [reflexivity |].
  cbn [map omap list_omap]. unfold last_pt at 1.
  destruct (last_pt_some s Hs) as [c Hc]. unfold last_pt in Hc.
  rewrite Hc. cbn [map]. f_equal. exact IH.
Qed.

Lemma filter_after_points (a : coord) (l : list coord) :
  filter_after (Some a) (map Some l)
  = Some (map snd
            (List.filter (fun pair => negb (same_coord (fst pair) (snd pair)))
                         (combine (a :: l) l))).
Proof.
  revert a. induction l as [| b l IH]; intros a; [reflexivity |].
  cbn [map filter_after combine List.filter fst snd]. rewrite IH.
  destruct (same_coord a b); reflexivity.
Qed.

Lemma cleaned_points (l : list coord) :
  cleaned (map Some l) = Some (without_repeats l).
Proof.
  destruct l as [| a l]; [reflexivity |].
  cbn [map cleaned without_repeats]. rewrite filter_after_points.
  destruct l; reflexivity.
Qed.

Lemma group_slice_polyline (run : list segment) :
  Forall (fun s => pts s <> []) run ->
  group_slice run = Some (option_list (polyline_of run)).
Proof.
  intros H. unfold group_slice, polyline_of.
  rewrite (flatten_slice_points run H), cleaned_points, average_mean.
  destruct (2 <=? length (without_repeats (run_points run)))%nat; reflexivity.
Qed.

Lemma group_runs_polylines (runs : list (list segment)) :
  Forall (Forall (fun s => pts s <> [])) runs ->
  group_runs runs = Some (omap polyline_of runs).
Proof.
  induction 1 as [| run runs Hrun Hruns IH]; [reflexivity |].
  cbn [group_runs omap list_omap]. rewrite (group_slice_polyline run Hrun), IH.
  destruct (polyline_of run); reflexivity.
Qed.

Lemma chunks_full {A : Type} (turns : nat) (l : list A) (i : nat)
    (run : list A) :
  chunks turns l !! i = Some run ->
  S i < length (chunks turns l) ->
  length run = SEGMENT_GROUP_SIZE.
Proof.
  revert l i. induction turns as [| turns IH]; intros l i Hrun Hi;
    [discriminate |].
  destruct l as [| x l']; [discriminate |].
  change (chunks (S turns) (x :: l'))
    with (take SEGMENT_GROUP_SIZE (x :: l')
            :: chunks turns (drop SEGMENT_GROUP_SIZE (x :: l'))) in *.
  cbn [length] in Hi.
  destruct i as [| i].
  - assert (Hfull : length (take SEGMENT_GROUP_SIZE (x :: l'))
                     = SEGMENT_GROUP_SIZE).
    { rewrite length_take.
      destruct turns as [| turns]; [cbn in Hi; lia |].
      destruct (drop SEGMENT_GROUP_SIZE (x :: l')) as [| y rest] eqn:Hd;
        [cbn in Hi; lia |].
      apply (f_equal length) in Hd. rewrite length_drop in Hd.
      cbn [length] in Hd. unfold SEGMENT_GROUP_SIZE in *. cbn [length]. lia. }
    rewrite lookup_cons in Hrun. cbv iota in Hrun. congruence.
  - rewrite lookup_cons in Hrun. cbv iota in Hrun.
    apply (IH (drop SEGMENT_GROUP_SIZE (x :: l')) i); [exact Hrun | lia].
Qed.

Lemma omap_length {A B : Type} (f : A -> option B) (l : list A) :
  length (omap f l) <= length l.
Proof.
  induction l as [| x l IH]; [reflexivity |].
  cbn [omap list_omap]. destruct (f x); cbn [length]; lia.
Qed.

(** C2, as amended. [groupSegments] cuts a list of [n] segments, each
    with a point, into consecutive runs in the original order: there are
    [ceil(n / 5)] runs, of [SEGMENT_GROUP_SIZE] = 5 segments each but for
    the last, which has one to five. It returns the polylines of the runs,
    in the order of the runs. A run gives a polyline when its points (those
    of its first segment, then the last point of each further segment),
    without the points identical to their predecessor, are two or more;
    these are the points of the polyline, and its severity is the
    arithmetic mean of the severities of the run that are not [null], and
    [null] when the run has none. So there are at most [ceil(n / 5)]
    polylines. *)
Theorem groupSegments_runs (segments : list segment) :
  Forall (fun s => pts s <> []) segments ->
  let runs := runs_of segments in
  concat runs = segments
  /\ Forall (fun run => 1 <= length run <= 5) runs
  /\ (forall i run,
        runs !! i = Some run -> S i < length runs -> length run = 5)
  /\ length runs = (length segments + 4) / 5
  /\ groupSegments segments = Some (omap polyline_of runs)
  /\ length (omap polyline_of runs) <= (length segments + 4) / 5
  /\ SEGMENT_GROUP_SIZE = 5.
Proof.
  intros H runs. subst runs. unfold runs_of.
  assert (Hcount : length (chunks (length segments) segments)
                   = (length segments + 4) / 5)
    by (apply chunks_count; lia).
  split; [apply chunks_concat; lia |].
  split; [apply chunks_sizes |].
  split; [intros i run; apply chunks_full |].
  split; [exact Hcount |].
  split.
  { unfold groupSegments. rewrite group_loop_runs.
    apply group_runs_polylines, chunks_Forall. exact H. }
  split; [| reflexivity].
  rewrite <- Hcount. apply omap_length.
Qed.

(** Every polyline that [groupSegments] returns has two points or more. *)
Lemma groupSegments_two_points (segments out : list segment) :
  Forall (fun s => pts s <> []) segments ->
  groupSegments segments = Some out ->
  Forall (fun o => 2 <= length (pts o)) out.
Proof.
  intros H Hout.
  destruct (group_runs_spec (chunks (length segments) segments))
    as (out' & Hout' & _ & _ & Htwo).
  { apply chunks_Forall. exact H. }
  unfold groupSegments in Hout. rewrite group_loop_runs in Hout.
  change (drop 0 segments) with segments in Hout. rewrite Hout' in Hout.
  inversion Hout; subst. exact Htwo.
Qed.

End GroupingProperties.

(** * What buildSegmentsFromPath does guarantee *)

Section Polylines.

Local Open Scope nat_scope.

Variable StringToNumber : string -> float.
Variable NumberToString : float -> string.

Abbreviation buildSegmentsFromPath' :=
  (buildSegmentsFromPath StringToNumber NumberToString).

(** [===] on numbers is transitive: it is the equality of IEEE 754, in
    which the two zeros are equal and [NaN] equals nothing. *)
Lemma SFeqb_trans (a b c : spec_float) :
  SFeqb a b = true -> SFeqb a c = SFeqb b c.
Proof.
  unfold SFeqb.
  destruct a as [sa | sa | | sa ma ea], b as [sb | sb | | sb mb eb];
    simpl; try discriminate; try (destruct sa, sb; discriminate).
  - intros _. destruct c; reflexivity.
  - destruct sa, sb; try discriminate; intros _; reflexivity.
  - destruct sa, sb; try discriminate;
      destruct (Z.compare_spec ea eb); try discriminate; subst;
      change (Pos.compare_cont Eq ma mb) with (Pos.compare ma mb);
      destruct (Pos.compare_spec ma mb); try discriminate; subst;
      intros _; reflexivity.
Qed.

Lemma float_eqb_trans (x y z : float) :
  (x =? y)%float = true -> (x =? z)%float = (y =? z)%float.
Proof.
  rewrite !FloatAxioms.eqb_spec. apply SFeqb_trans.
Qed.

Lemma same_coord_trans (a b c : coord) :
  same_coord a b = true -> same_coord a c = same_coord b c.
Proof.
  unfold same_coord. intros H. apply andb_true_iff in H. destruct H as [H1 H2].
  rewrite (float_eqb_trans _ _ _ H1), (float_eqb_trans _ _ _ H2). reflexivity.
Qed.

Lemma same_coord_refl (a : coord) : finite_coord a -> same_coord a a = true.
Proof.
  unfold finite_coord, same_coord, PrimFloat.is_finite, PrimFloat.is_nan.
  intros [H1 H2].
  apply negb_true_iff, orb_false_iff in H1. destruct H1 as [H1 _].
  apply negb_true_iff, orb_false_iff in H2. destruct H2 as [H2 _].
  apply negb_false_iff in H1, H2. rewrite H1, H2. reflexivity.
Qed.

(** The filter leaves no point that [===] its predecessor. *)
Lemma filter_after_distinct (l : list (option coord)) (a : coord)
    (kept : list coord) :
  filter_after (Some a) l = Some kept ->
  starts_apart a kept /\ adjacent_apart kept.
Proof.
  revert a kept. induction l as [| p l IH]; intros a kept H; simpl in H.
  - inversion H. split; exact I.
  - destruct p as [b |]; [| discriminate].
    destruct (filter_after (Some b) l) as [kept' |] eqn:E; [| discriminate].
    destruct (IH b kept' E) as [Hhd Hadj].
    destruct (same_coord a b) eqn:Hab; inversion H; subst.
    + split; [| exact Hadj].
      destruct kept as [| h rest]; [exact I |]. simpl in *.
      rewrite (same_coord_trans _ _ _ Hab). exact Hhd.
    + split; [exact Hab |].
      destruct kept' as [| h rest]; [exact I |]. simpl in *. tauto.
Qed.

Lemma cleaned_distinct (l : list (option coord)) (c : list coord) :
  cleaned l = Some c -> adjacent_apart c.
Proof.
  destruct l as [| p0 rest]; simpl; [intros H; inversion H; exact I |].
  destruct p0 as [a |].
  - destruct (filter_after (Some a) rest) as [kept |] eqn:E.
    + destruct (filter_after_distinct _ _ _ E) as [Hhd Hadj].
      assert (Hgoal : adjacent_apart (a :: kept)).
      { destruct kept as [| h t]; [exact I |]. simpl in *. tauto. }
      destruct rest; intros H; inversion H; subst; exact Hgoal.
    + destruct rest; [simpl in E |]; discriminate.
  - destruct rest; [intros H; inversion H; exact I | discriminate].
Qed.

Lemma group_slice_drawable (slice out : list segment) :
  group_slice slice = Some out -> Forall drawable out.
Proof.
  unfold group_slice.
  destruct (cleaned (flatten_slice slice)) as [c |] eqn:E; [| discriminate].
  destruct (2 <=? length c) eqn:Hlen; intros H; inversion H; subst;
    [| constructor].
  constructor; [| constructor]. split; simpl.
  - apply Nat.leb_le. exact Hlen.
  - eapply cleaned_distinct. exact E.
Qed.

Lemma group_loop_drawable turns segments i out :
  group_loop turns segments i = Some out -> Forall drawable out.
Proof.
  revert i out. induction turns as [| turns IH]; intros i out H; simpl in H.
  - inversion H. constructor.
  - destruct (i <? length segments); [| inversion H; constructor].
    destruct (group_slice _) as [g |] eqn:Hg; [| discriminate].
    destruct (group_loop turns segments (i + SEGMENT_GROUP_SIZE)) as [gs |] eqn:Hgs;
      [| discriminate].
    inversion H; subst. apply Forall_app. split.
    + eapply group_slice_drawable. exact Hg.
    + eapply IH. exact Hgs.
Qed.

Lemma apart_no_repeat (l : list coord) :
  adjacent_apart l -> Forall finite_coord l -> no_repeat l.
Proof.
  induction l as [| a l IH]; intros Hadj Hfin i x y Hx Hy.
  - rewrite lookup_nil in Hx. discriminate.
  - inversion Hfin as [| ? ? Ha Hl]; subst.
    destruct l as [| b l']; [destruct i; discriminate |].
    destruct Hadj as [Hab Hadj].
    destruct i as [| i]; simpl in Hx, Hy.
    + inversion Hx; inversion Hy; subst. intros ->.
      rewrite same_coord_refl in Hab by exact Ha. discriminate.
    + apply (IH Hadj Hl i x y); assumption.
Qed.

(** The segments that the two loops of [buildSegmentsFromPath] build have
    two points or more. *)
Lemma collect_segments_points maybePath segments :
  collect_segments StringToNumber NumberToString maybePath = Some segments ->
  Forall (fun s => pts s <> []) segments.
Proof.
  revert segments. induction maybePath as [| segObj rest IH]; intros segments H;
    cbn [collect_segments] in H.
  - inversion H. constructor.
  - destruct (is_nullish segObj); [discriminate |].
    destruct (collect_segments _ _ rest) as [segs |]; [| discriminate].
    specialize (IH _ eq_refl).
    match type of H with
    | Some (if (2 <=? length ?p) then _ else _) = _ =>
        destruct (Nat.leb_spec 2 (length p)) as [Hlen | Hlen];
        inversion H; subst; trivial;
        constructor; trivial; cbn [pts];
        intros Hnil; rewrite Hnil in Hlen; simpl in Hlen; lia
    end.
Qed.

Lemma adjacent_segments_points ptsWithMeta :
  Forall (fun s => pts s <> []) (adjacent_segments ptsWithMeta).
Proof.
  induction ptsWithMeta as [| a [| b rest] IH]; simpl; try constructor.
  - discriminate.
  - exact IH.
Qed.

Lemma groupSegments_total segments :
  Forall (fun s => pts s <> []) segments -> is_Some (groupSegments segments).
Proof.
  intros H. unfold groupSegments. rewrite group_loop_runs.
  destruct (group_runs_spec (chunks (length segments) (drop 0 segments)))
    as (out & Hout & _).
  { apply chunks_Forall. exact H. }
  eauto.
Qed.

Lemma buildSegmentsFromArray_drawable items :
  Forall (fun v => is_nullish v = false) items ->
  exists out,
    buildSegmentsFromArray StringToNumber NumberToString items = Some out
    /\ Forall drawable out.
Proof.
  intros Hitems. unfold buildSegmentsFromArray.
  assert (Hcollect : is_Some (collect_segments StringToNumber NumberToString items)).
  { induction Hitems as [| v l Hv Hl [segs IH]]; simpl; [eauto |].
    rewrite Hv, IH. eauto. }
  destruct Hcollect as [segs Hsegs].
  assert (Hgroup : forall segments,
    Forall (fun s => pts s <> []) segments ->
    exists out, groupSegments segments = Some out /\ Forall drawable out).
  { intros segments Hs. destruct (groupSegments_total segments Hs) as [out Hout].
    exists out. split; [exact Hout |].
    eapply group_loop_drawable. exact Hout. }
  destruct (segment_like items).
  - rewrite Hsegs. destruct (0 <? length segs).
    + apply Hgroup. eapply collect_segments_points. exact Hsegs.
    + match goal with
      | |- context [if (2 <=? length ?l) then _ else _] =>
          destruct (2 <=? length l)
      end; [apply Hgroup; apply adjacent_segments_points |].
      exists []. split; [reflexivity | constructor].
  - cbv beta iota. change (0 <? length (@nil segment)) with false. cbv iota.
    match goal with
    | |- context [if (2 <=? length ?l) then _ else _] =>
        destruct (2 <=? length l)
    end; [apply Hgroup; apply adjacent_segments_points |].
    exists []. split; [reflexivity | constructor].
Qed.


End Polylines.


(** * Properties of normalizeRoads *)

Section UnnamedTest.

Import Roads.

Local Open Scope nat_scope.

Lemma lower_spec (c l : ascii) :
  97 <= nat_of_ascii l <= 122 ->
  lower c = l <-> same_letter c l.
Proof.
  intros Hl. unfold lower, same_letter.
  pose proof (nat_ascii_bounded c) as Hc.
  destruct ((65 <=? nat_of_ascii c) && (nat_of_ascii c <=? 90)) eqn:E.
  - apply andb_true_iff in E. destruct E as [E1 E2].
    apply Nat.leb_le in E1, E2. split.
    + intros H. right. rewrite <- H. rewrite nat_ascii_embedding; lia.
    + intros [H | H].
      * subst l. lia.
      * rewrite H. apply ascii_nat_embedding.
  - split; [intros H; left; exact H |].
    intros [H | H]; [exact H |].
    apply andb_false_iff in E.
    destruct E as [E | E]; apply Nat.leb_gt in E; lia.
Qed.

(** The test [/^unnamed/i] is true of the texts that start with "unnamed"
    in any mix of cases. *)
Lemma starts_unnamed_spec (t : string) :
  starts_unnamed t = true <-> starts_with_unnamed t.
Proof.
  unfold starts_unnamed, starts_with_unnamed. rewrite String.eqb_eq.
  assert (Hletter : forall c l,
    In l (list_ascii_of_string "unnamed") ->
    lower c = l <-> same_letter c l).
  { intros c l Hin. apply lower_spec.
    cbn in Hin.
    destruct Hin as [<- | [<- | [<- | [<- | [<- | [<- | [<- | []]]]]]]];
      split; apply Nat.leb_le; reflexivity. }
  split.
  - intros H.
    destruct t as [| c1 [| c2 [| c3 [| c4 [| c5 [| c6 [| c7 rest]]]]]]];
      try discriminate H.
    cbn [substring lowercase] in H.
    assert (Hsub : substring 0 0 rest = "") by (destruct rest; reflexivity).
    rewrite Hsub in H. cbn [lowercase] in H.
    injection H as H1 H2 H3 H4 H5 H6 H7.
    exists [c1; c2; c3; c4; c5; c6; c7], (list_ascii_of_string rest).
    split; [reflexivity |].
    cbn [list_ascii_of_string].
    repeat (constructor; [apply Hletter; [cbn; tauto | assumption] |]).
    constructor.
  - intros (head & rest & Ht & Hhead).
    cbn [list_ascii_of_string] in Hhead.
    repeat match goal with
           | H : Forall2 _ _ (_ :: _) |- _ =>
               apply Forall2_cons_inv_r in H; destruct H as (? & ? & ? & ? & ->)
           | H : Forall2 _ _ [] |- _ => apply Forall2_nil_inv_r in H; subst
           end.
    apply (f_equal string_of_list_ascii) in Ht.
    rewrite string_of_list_ascii_of_string in Ht. subst t.
    cbn [app string_of_list_ascii substring lowercase].
    assert (Hsub : forall s, substring 0 0 s = "") by (intros []; reflexivity).
    rewrite Hsub. cbn [lowercase].
    repeat match goal with
           | H : same_letter _ _ |- _ =>
               apply Hletter in H; [rewrite H; clear H | cbn; tauto]
           end.
    reflexivity.
Qed.

End UnnamedTest.

Section RoadsProperties.

Import Roads.

Local Open Scope nat_scope.

Variable trim : string -> string.

Lemma insert_by_Permutation cmp x l : insert_by cmp x l ≡ₚ x :: l.
Proof.
  induction l as [| y l IH]; simpl; [reflexivity |].
  destruct (cmp x y <=? 0)%Z; [reflexivity |].
  rewrite IH. apply Permutation_swap.
Qed.

Lemma sort_by_Permutation cmp l : sort_by cmp l ≡ₚ l.
Proof.
  induction l as [| x l IH]; simpl; [reflexivity |].
  rewrite insert_by_Permutation, IH. reflexivity.
Qed.

Lemma insert_by_sorted x l :
  StronglySorted more_coordinates l ->
  StronglySorted more_coordinates (insert_by byLengthDesc x l).
Proof.
  induction 1 as [| y l Hl IH Hy]; simpl; [repeat constructor |].
  unfold byLengthDesc at 1.
  destruct (Z.leb_spec (Z.of_nat (coordinate_count y)
                        - Z.of_nat (coordinate_count x)) 0) as [Hle | Hgt].
  - constructor; [constructor; assumption |].
    constructor; [unfold more_coordinates; lia |].
    eapply Forall_impl; [exact Hy |].
    unfold more_coordinates. intros z Hz. lia.
  - constructor; [exact IH |].
    rewrite insert_by_Permutation.
    constructor; [unfold more_coordinates; lia | exact Hy].
Qed.

Lemma sort_by_sorted l :
  StronglySorted more_coordinates (sort_by byLengthDesc l).
Proof.
  induction l as [| x l IH]; simpl; [constructor |].
  apply insert_by_sorted, IH.
Qed.

Lemma StronglySorted_lookup_lt {A : Type} (R : A -> A -> Prop) (l : list A) :
  StronglySorted R l ->
  forall i j a b, i < j -> l !! i = Some a -> l !! j = Some b -> R a b.
Proof.
  induction 1 as [| x l Hl IH Hx]; intros i j a b Hij Ha Hb.
  - rewrite lookup_nil in Ha. discriminate.
  - destruct j as [| j]; [lia |]. simpl in Hb.
    destruct i as [| i]; simpl in Ha.
    + inversion Ha; subst. rewrite Forall_forall in Hx.
      apply Hx. eapply list_elem_of_lookup_2. exact Hb.
    + apply (IH i j); [lia | assumption | assumption].
Qed.

(** What the filter and the split keep. *)
Lemma filter_valid_spec items valid :
  filter_valid items = Some valid ->
  Forall has_coordinates valid.
Proof.
  revert valid. induction items as [| r items IH]; intros valid H; simpl in H.
  - inversion H. constructor.
  - unfold valid_road in H. destruct (is_nullish r); [discriminate |].
    destruct (filter_valid items) as [valid' |]; [| discriminate].
    specialize (IH _ eq_refl).
    destruct (isArray (get r "coordinates")
              && (0 <? arr_length (get r "coordinates"))) eqn:E;
      inversion H; subst; [constructor |]; trivial.
    apply andb_true_iff in E. destruct E as [E1 E2].
    apply Nat.ltb_lt in E2. split; [exact E1 | exact E2].
Qed.

Lemma split_named_spec valid named unnamed :
  split_named trim valid = Some (named, unnamed) ->
  Forall (fun r => is_named trim r = true) named
  /\ Forall (fun r => is_named trim r = false) unnamed
  /\ named ++ unnamed ≡ₚ valid.
Proof.
  revert named unnamed.
  induction valid as [| r valid IH]; intros named unnamed H; simpl in H.
  - inversion H. repeat constructor.
  - destruct (road_name trim r) as [name |] eqn:Hname; [| discriminate].
    destruct (split_named trim valid) as [[named' unnamed'] |]; [| discriminate].
    destruct (IH _ _ eq_refl) as (Hn & Hu & Hp).
    destruct (unnamed_name name) eqn:E; inversion H; subst.
    + split; [exact Hn |]. split.
      * constructor; [| exact Hu]. unfold is_named. rewrite Hname, E. reflexivity.
      * rewrite <- Permutation_middle. constructor. exact Hp.
    + split.
      * constructor; [| exact Hn]. unfold is_named. rewrite Hname, E. reflexivity.
      * split; [exact Hu |]. simpl. constructor. exact Hp.
Qed.

(** On roads that are objects with a string or no name, nothing throws. *)
Lemma filter_valid_total items :
  Forall road_object items ->
  exists valid, filter_valid items = Some valid /\ Forall road_object valid.
Proof.
  induction 1 as [| r items Hr Hitems (valid & Hv & Hwf)]; simpl.
  - exists []. split; [reflexivity | constructor].
  - rewrite Hv. unfold valid_road. destruct Hr as [Hnull Hname].
    rewrite Hnull.
    destruct (isArray (get r "coordinates")
              && (0 <? arr_length (get r "coordinates"))).
    + exists (r :: valid). split; [reflexivity |]. constructor; [split |]; assumption.
    + exists valid. split; [reflexivity | assumption].
Qed.

Lemma split_named_total valid :
  Forall road_object valid -> is_Some (split_named trim valid).
Proof.
  induction 1 as [| r valid Hr Hvalid [[named unnamed] IH]]; simpl.
  - eauto.
  - rewrite IH. destruct Hr as [_ Hname]. unfold road_name.
    destruct (get r "name" |.| VStr ""); try contradiction.
    destruct (unnamed_name (trim s)); eauto.
Qed.

Lemma slice0_prefix {A : Type} (l : list A) (limit : float) (k : Z) :
  ToIntegerOrInfinity limit = Int k -> (0 <= k)%Z ->
  slice0 l limit = take (Z.to_nat k) l.
Proof.
  intros Hk Hpos. unfold slice0. rewrite Hk.
  destruct (Z.ltb_spec k 0); [lia | reflexivity].
Qed.

(** The split of [normalizeRoads] puts on the list [named] the roads with
    a name. *)
Lemma is_named_spec (r : value) :
  road_object r -> is_named trim r = true <-> has_name trim r.
Proof.
  intros [_ Hname]. unfold is_named, has_name, road_name, name_text, js_or in *.
  assert (Hcore : forall t,
    negb (unnamed_name t) = true <-> t <> "" /\ ~ starts_with_unnamed t).
  { intros t. unfold unnamed_name. rewrite negb_true_iff, orb_false_iff.
    rewrite <- starts_unnamed_spec.
    destruct (String.eqb_spec t ""); destruct (starts_unnamed t);
      split; intros [H1 H2]; try congruence; split; congruence. }
  destruct (get r "name") as [| | b | x | s | l | f]; cbn [truthy] in *;
    try apply Hcore; try contradiction.
  - destruct b; [contradiction | apply Hcore].
  - destruct (negb (PrimFloat.is_zero x || PrimFloat.is_nan x));
      [contradiction | apply Hcore].
  - destruct (negb (String.eqb s "")) eqn:E; [apply Hcore |].
    apply negb_false_iff, String.eqb_eq in E. subst s. apply Hcore.
Qed.

Lemma filter_valid_filter (items : list value) :
  Forall (fun r => is_nullish r = false) items ->
  filter_valid items = Some (List.filter RoadList.with_coordinates items).
Proof.
  induction 1 as [| r items Hr Hitems IH]; [reflexivity |].
  cbn [filter_valid List.filter]. rewrite IH. unfold valid_road. rewrite Hr.
  reflexivity.
Qed.

(** C10, as amended. On a list of road objects whose names are strings or
    missing, and for a limit whose integer part [k] is not negative,
    [normalizeRoads] returns [k] roads, or all the roads with a non-empty
    array of coordinates when they are fewer; every road of the result has
    a non-empty array of coordinates; every road with a name (its name,
    once trimmed by the runtime's [trim], is non-empty and does not start
    with "unnamed" in any case) stands before every other road; and among
    the roads of either kind a road has at least as many coordinates as
    every road after it. *)
Theorem normalizeRoads_order (items : list value) (limit : float) (k : Z) :
  Forall road_object items ->
  ToIntegerOrInfinity limit = Int k -> (0 <= k)%Z ->
  exists result,
    normalizeRoads trim (VArr items) limit = Some result
    /\ length result
       = Nat.min (Z.to_nat k)
           (length (List.filter RoadList.with_coordinates items))
    /\ Forall has_coordinates result
    /\ (forall i j a b,
          result !! i = Some a -> result !! j = Some b ->
          has_name trim a -> ~ has_name trim b -> i < j)
    /\ (forall i j a b,
          i < j -> result !! i = Some a -> result !! j = Some b ->
          (has_name trim a <-> has_name trim b) ->
          coordinate_count b <= coordinate_count a).
Proof.
  intros Hwf Hk Hpos.
  destruct (filter_valid_total items Hwf) as (valid & Hvalid & Hwf').
  destruct (split_named_total valid Hwf') as [[named unnamed] Hsplit].
  destruct (split_named_spec _ _ _ Hsplit) as (Hn & Hu & Hperm).
  pose proof (filter_valid_spec _ _ Hvalid) as Hcoords.
  set (sn := sort_by byLengthDesc named).
  set (su := sort_by byLengthDesc unnamed).
  assert (Hall : sn ++ su ≡ₚ valid)
    by (unfold sn, su; rewrite !sort_by_Permutation; exact Hperm).
  assert (Hobjects : Forall road_object (sn ++ su))
    by (rewrite Hall; exact Hwf').
  assert (Hsn : Forall (fun r => is_named trim r = true) sn)
    by (unfold sn; rewrite sort_by_Permutation; exact Hn).
  assert (Hsu : Forall (fun r => is_named trim r = false) su)
    by (unfold su; rewrite sort_by_Permutation; exact Hu).
  rewrite Forall_forall in Hsn, Hsu, Hobjects.
  exists (take (Z.to_nat k) (sn ++ su)).
  split.
  { unfold normalizeRoads. simpl. rewrite Hvalid, Hsplit.
    fold sn su. rewrite (slice0_prefix _ _ _ Hk Hpos). reflexivity. }
  split.
  { rewrite length_take, Hall.
    assert (Hnull : Forall (fun r => is_nullish r = false) items)
      by (eapply Forall_impl; [exact Hwf | intros r [H _]; exact H]).
    rewrite (filter_valid_filter items Hnull) in Hvalid.
    inversion Hvalid. reflexivity. }
  split.
  { apply Forall_take. rewrite Hall. exact Hcoords. }
  assert (Hside : forall i a,
    take (Z.to_nat k) (sn ++ su) !! i = Some a ->
    (has_name trim a /\ sn !! i = Some a)
    \/ (~ has_name trim a /\ length sn <= i
        /\ su !! (i - length sn) = Some a)).
  { intros i a Ha. apply lookup_take_Some in Ha. destruct Ha as [Ha _].
    assert (Hobj : road_object a)
      by (apply Hobjects; eapply list_elem_of_lookup_2, Ha).
    apply lookup_app_Some in Ha. destruct Ha as [Ha | [Hi Ha]].
    - left. split; [| exact Ha]. apply (is_named_spec a Hobj).
      apply Hsn. eapply list_elem_of_lookup_2, Ha.
    - right. split; [| split; assumption].
      rewrite <- (is_named_spec a Hobj).
      rewrite (Hsu a) by (eapply list_elem_of_lookup_2, Ha). discriminate. }
  split.
  - intros i j a b Ha Hb Hna Hnb.
    destruct (Hside _ _ Ha) as [[_ Hia] | [Hfalse _]]; [| contradiction].
    destruct (Hside _ _ Hb) as [[Htrue _] | (_ & Hj & _)]; [contradiction |].
    apply lookup_lt_Some in Hia. lia.
  - intros i j a b Hij Ha Hb Hsame.
    destruct (Hside _ _ Ha) as [[Hna Hia] | (Hna & Hi & Hia)];
      destruct (Hside _ _ Hb) as [[Hnb Hjb] | (Hnb & Hj & Hjb)];
      try tauto.
    + apply (StronglySorted_lookup_lt _ _ (sort_by_sorted named) i j);
        assumption.
    + apply (StronglySorted_lookup_lt _ _ (sort_by_sorted unnamed)
               (i - length sn) (j - length sn)); [lia | assumption | assumption].
Qed.

End RoadsProperties.

(** * Properties of the page components *)

(** ** What the handlers write to the browser storage *)

Section StorageFrame.

Context {C : Type}.

Lemma writes_ret {A} keys (a : A) : writes_only (C := C) keys (ret a).
Proof. intros s k _. reflexivity. Qed.

Lemma writes_throw {A} keys e : writes_only (C := C) (A := A) keys (throw e).
Proof. intros s k _. reflexivity. Qed.

Lemma writes_await {A} keys (o : outcome A) : writes_only (C := C) keys (await o).
Proof. intros s k _. reflexivity. Qed.

Lemma writes_state keys : writes_only (C := C) keys Pages.state.
Proof. intros s k _. reflexivity. Qed.

Lemma writes_set_state keys (f : C -> C) : writes_only keys (set_state f).
Proof. intros s k _. reflexivity. Qed.

Lemma writes_alert keys msg : writes_only (C := C) keys (alert msg).
Proof. intros s k _. reflexivity. Qed.

Lemma writes_console_error keys msg :
  writes_only (C := C) keys (console_error msg).
Proof. intros s k _. reflexivity. Qed.

Lemma writes_navigate keys path : writes_only (C := C) keys (navigate path).
Proof. intros s k _. reflexivity. Qed.

Lemma writes_setItem keys key v :
  In key keys -> writes_only (C := C) keys (setItem key v).
Proof.
  intros Hin s k Hk. simpl. apply lookup_insert_ne. congruence.
Qed.

Lemma writes_prop keys v k : writes_only (C := C) keys (prop v k).
Proof. unfold prop. destruct (is_nullish v); intros s k' _; reflexivity. Qed.

Lemma writes_prop_index keys v i : writes_only (C := C) keys (prop_index v i).
Proof.
  unfold prop_index. destruct (is_nullish v); intros s k' _; reflexivity.
Qed.

Lemma writes_of_option {A} keys (o : option A) :
  writes_only (C := C) keys (of_option o).
Proof. destruct o; intros s k _; reflexivity. Qed.

Lemma writes_bind {A B} keys (m : M C A) (f : A -> M C B) :
  writes_only keys m -> (forall a, writes_only keys (f a)) ->
  writes_only keys (bind m f).
Proof.
  intros Hm Hf s k Hk. unfold bind.
  specialize (Hm s k Hk). destruct (m s) as [[a | e] s']; simpl in *.
  - rewrite (Hf a s' k Hk). exact Hm.
  - exact Hm.
Qed.

Lemma writes_try_catch {A} keys (body : M C A) (handler : string -> M C A) :
  writes_only keys body -> (forall e, writes_only keys (handler e)) ->
  writes_only keys (try_catch body handler).
Proof.
  intros Hm Hf s k Hk. unfold try_catch.
  specialize (Hm s k Hk). destruct (body s) as [[a | e] s']; simpl in *.
  - exact Hm.
  - rewrite (Hf e s' k Hk). exact Hm.
Qed.

Lemma writes_finally {A} keys (body : M C A) (cleanup : M C unit) :
  writes_only keys body -> writes_only keys cleanup ->
  writes_only keys (finally body cleanup).
Proof.
  intros Hm Hc s k Hk. unfold finally.
  specialize (Hm s k Hk). destruct (body s) as [r s']; simpl in *.
  specialize (Hc s' k Hk). destruct (cleanup s') as [[[] | e] s'']; simpl in *;
    congruence.
Qed.

Lemma writes_fold_each {A B} keys (body : A -> B -> M C B) l acc :
  (forall x acc, writes_only keys (body x acc)) ->
  writes_only keys (fold_each body l acc).
Proof.
  intros Hbody. revert acc. induction l as [| x l IH]; intros acc; simpl.
  - apply writes_ret.
  - apply writes_bind; [apply Hbody | intros acc'; apply IH].
Qed.

End StorageFrame.

Create HintDb handlers.

#[local] Hint Unfold
  Login.go
  Dashboard.load Dashboard.load_try Dashboard.loadPredictive
  Dashboard.live_road
  Dashboard.predict_road
  MapView.loadMapData MapView.handleSearch MapView.handleCopy
  MapView.severity_road
  AirQuality.load AirQuality.geocodeCity AirQuality.fetchAirQuality
  CorridorPage.geocodeOrigin CorridorPage.geocodeDestination
  CorridorPage.createRequest CorridorPage.updatePosition
  CorridorPage.checkStatus CorridorPage.call
  Pages.fetchCO2ForCity Pages.fetchCO2_body Pages.prettifyRoadName
  Pages.all_each
  : handlers.

(** One step of the proof that a handler writes nothing but [keys]: the
    rule of the construct at the head of the handler. *)
Ltac writes_step :=
  lazymatch goal with
  | |- writes_only _ (bind _ _) => apply writes_bind; [| intros ?]
  | |- writes_only _ (try_catch _ _) => apply writes_try_catch; [| intros ?]
  | |- writes_only _ (finally _ _) => apply writes_finally
  | |- writes_only _ (fold_each _ _ _) => apply writes_fold_each; intros ? ?
  | |- writes_only _ (if ?b then _ else _) => destruct b
  | |- writes_only _ (match ?x with _ => _ end) => destruct x
  | |- writes_only _ (let _ := _ in _) => cbv zeta
  | |- writes_only _ (setItem _ _) =>
      apply writes_setItem; simpl; tauto
  | |- writes_only _ _ =>
      first [ apply writes_ret | apply writes_throw | apply writes_await
            | apply writes_state | apply writes_prop | apply writes_prop_index
            | apply writes_of_option | apply writes_alert
            | apply writes_console_error | apply writes_navigate
            | apply writes_set_state
            | progress autounfold with handlers ]
  end.

Ltac writes := repeat writes_step.

Section StorageProperties.

Variable trim : string -> string.
Variable StringToNumber : string -> float.
Variable NumberToString : float -> string.
Variable net : network.

(** C6, as amended. The handlers of the page components write four keys of
    the browser storage and no other: [go] of Login writes "md_jwt", [load]
    of Dashboard and [handleSearch] of MapView write the three preference
    keys "trafficCity", "trafficSegments" and "trafficTimeSteps", and every
    other handler writes none. *)
Theorem storage_writes :
  writes_only ["md_jwt"] (Login.go NumberToString net)
  /\ writes_only preference_keys
       (Dashboard.load trim StringToNumber NumberToString net)
  /\ writes_only [] (Dashboard.loadPredictive trim NumberToString net)
  /\ writes_only preference_keys
       (MapView.handleSearch trim StringToNumber NumberToString net)
  /\ (forall cityArg segmentsArg timeStepsArg,
        writes_only []
          (MapView.loadMapData trim StringToNumber NumberToString net
             cityArg segmentsArg timeStepsArg))
  /\ (forall id, writes_only [] (MapView.handleCopy NumberToString id))
  /\ (forall fromButton, writes_only [] (AirQuality.load trim net fromButton))
  /\ writes_only [] (CorridorPage.geocodeOrigin trim net)
  /\ writes_only [] (CorridorPage.geocodeDestination trim net)
  /\ writes_only [] (CorridorPage.createRequest StringToNumber NumberToString net)
  /\ (forall random1 random2 now,
        writes_only []
          (CorridorPage.updatePosition StringToNumber NumberToString net
             random1 random2 now))
  /\ writes_only [] (CorridorPage.checkStatus NumberToString net).
Proof.
  unfold preference_keys.
  repeat match goal with |- _ /\ _ => split end; intros; writes.
Qed.

End StorageProperties.

(** ** The stored preferences *)

Section Preferences.

Variable trim : string -> string.
Variable StringToNumber : string -> float.
Variable NumberToString : float -> string.
Variable net : network.

Abbreviation load := (Dashboard.load trim StringToNumber NumberToString net).

Lemma run_bind_state {C A} (k : C -> M C A) (s : browser * C) :
  bind Pages.state k s = k (snd s) s.
Proof. reflexivity. Qed.

Lemma run_bind_set_state {C A} (f : C -> C) (k : unit -> M C A) s :
  bind (set_state f) k s = k tt (fst s, f (snd s)).
Proof. reflexivity. Qed.

Lemma run_bind_set_browser {C A} (f : browser -> browser) (k : unit -> M C A) s :
  bind (set_browser f) k s = k tt (f (fst s), snd s).
Proof. reflexivity. Qed.

(** The browser storage after [load]: the three preferences are written
    over what was there, and the rest of [load] writes nothing. *)
Lemma load_storage (b : browser) (st : Dashboard.state) :
  localStorage (fst (snd (load (b, st)))) =
    <["trafficTimeSteps" := NumberToString (Dashboard.timeSteps st)]>
      (<["trafficSegments" := NumberToString (Dashboard.segmentsNum st)]>
         (<["trafficCity" := Dashboard.city st]> (localStorage b))).
Proof.
  assert (Hrest : writes_only []
            (Dashboard.load_try trim StringToNumber NumberToString net st))
    by writes.
  apply map_eq. intros k.
  unfold Dashboard.load.
  cbv beta iota delta
    [bind Pages.state set_state set_browser setItem
     Dashboard.setLoading Dashboard.setError Dashboard.setData
     Dashboard.setPredictions Dashboard.setCo2Value].
  cbn [fst snd].
  rewrite Hrest by (simpl; tauto). reflexivity.
Qed.

(** C7, as amended. After [load] of Dashboard has written a city that is
    not the empty string and two numbers [s] and [t] that are not [NaN] and
    that [Number(String(_))] gives back (as it does every natural number), a
    fresh mount of Dashboard or of MapView starts with exactly that city,
    [s] segments and [t] time steps. *)
Theorem preferences_round_trip (b : browser) (st : Dashboard.state) :
  Dashboard.city st <> "" ->
  PrimFloat.is_nan (Dashboard.segmentsNum st) = false ->
  StringToNumber (NumberToString (Dashboard.segmentsNum st))
    = Dashboard.segmentsNum st ->
  PrimFloat.is_nan (Dashboard.timeSteps st) = false ->
  StringToNumber (NumberToString (Dashboard.timeSteps st))
    = Dashboard.timeSteps st ->
  let b' := fst (snd (load (b, st))) in
  let d := Dashboard.mount StringToNumber b' in
  let m := MapView.mount StringToNumber b' in
  Dashboard.city d = Dashboard.city st
  /\ Dashboard.segmentsNum d = Dashboard.segmentsNum st
  /\ Dashboard.timeSteps d = Dashboard.timeSteps st
  /\ MapView.city m = Dashboard.city st
  /\ MapView.segmentsNum m = Dashboard.segmentsNum st
  /\ MapView.timeSteps m = Dashboard.timeSteps st.
Proof.
  intros Hcity Hs Hsr Ht Htr b' d m.
  assert (Hc : localStorage b' !! "trafficCity" = Some (Dashboard.city st)).
  { unfold b'. rewrite load_storage.
    rewrite !lookup_insert_ne by discriminate. apply lookup_insert_eq. }
  assert (Hseg : localStorage b' !! "trafficSegments"
                 = Some (NumberToString (Dashboard.segmentsNum st))).
  { unfold b'. rewrite load_storage.
    rewrite lookup_insert_ne by discriminate. apply lookup_insert_eq. }
  assert (Hts : localStorage b' !! "trafficTimeSteps"
                = Some (NumberToString (Dashboard.timeSteps st))).
  { unfold b'. rewrite load_storage. apply lookup_insert_eq. }
  assert (Hne : String.eqb (Dashboard.city st) "" = false)
    by (apply String.eqb_neq; exact Hcity).
  unfold d, m, Dashboard.mount, MapView.mount, Dashboard.init_city,
    Dashboard.init_segmentsNum, Dashboard.init_timeSteps,
    Dashboard.init_number, MapView.init_city, MapView.init_number.
  cbn [Dashboard.city Dashboard.segmentsNum Dashboard.timeSteps
       MapView.city MapView.segmentsNum MapView.timeSteps].
  rewrite Hc, Hseg, Hts, Hne, Hsr, Htr, Hs, Ht. simpl.
  repeat split; reflexivity.
Qed.

End Preferences.

(** ** Failed requests and what the user sees *)

(** Running a handler on a state: the monad and the setters unfold, the
    requests and the loops stay. *)
Ltac run :=
  cbv beta iota zeta delta
    [bind ret throw await try_catch finally Pages.state set_state set_browser
     all_each
     setItem alert console_error navigate prop prop_index of_option
     Login.go Login.setErr
     Dashboard.load Dashboard.load_try Dashboard.loadPredictive
     Dashboard.setData Dashboard.setPredictions Dashboard.setLoading
     Dashboard.setError Dashboard.setCo2Value
     MapView.loadMapData MapView.handleSearch
     MapView.setCenter MapView.setRoads MapView.setSeverity MapView.setLoading
     MapView.set_coordsRef MapView.setCo2Value
     AirQuality.load
     AirQuality.setLocation AirQuality.setLoading AirQuality.setError
     AirQuality.setAqData
     CorridorPage.geocodeOrigin CorridorPage.geocodeDestination
     CorridorPage.createRequest CorridorPage.updatePosition
     CorridorPage.checkStatus
     CorridorPage.setOrigin CorridorPage.setDestination
     CorridorPage.setRequestId CorridorPage.setStatus
     CorridorPage.setAlternatives CorridorPage.setRoute
     CorridorPage.setAmbulancePos CorridorPage.setLoading
     CorridorPage.showToast
     localStorage alerts console location
     Login.u Login.p Login.err
     Dashboard.city Dashboard.segmentsNum Dashboard.timeSteps Dashboard.data
     Dashboard.predictions Dashboard.loading Dashboard.error
     Dashboard.co2Value
     MapView.center MapView.roads MapView.severity MapView.loading
     MapView.coordsRef MapView.co2Value MapView.city MapView.segmentsNum
     MapView.timeSteps
     AirQuality.query AirQuality.location_lat AirQuality.location_lon
     AirQuality.loading AirQuality.error AirQuality.aqData
     CorridorPage.vehicleId CorridorPage.origin CorridorPage.destination
     CorridorPage.originAddress CorridorPage.destinationAddress
     CorridorPage.requestId CorridorPage.status CorridorPage.alternatives
     CorridorPage.route CorridorPage.ambulancePos CorridorPage.loading
     CorridorPage.toast
     fst snd] in *.

(** Case analysis on a scrutinee that holds no other case analysis. *)
Ltac destruct_innermost :=
  match goal with
  | |- context [match ?x with _ => _ end] =>
      lazymatch x with
      | context [match _ with _ => _ end] => fail
      | _ => destruct x
      end
  end.

Section Feedback.

Variable trim : string -> string.
Variable StringToNumber : string -> float.
Variable NumberToString : float -> string.
Variable net : network.

(** [fetchCO2ForCity] never throws: a failure is logged to the console and
    [null] is returned. It touches nothing else. *)
Lemma fetchCO2_resolves {C : Type} (cityName : string) (s : browser * C) :
  exists v log,
    fetchCO2ForCity StringToNumber NumberToString net cityName s =
      (Resolved v,
       (mkBrowser (localStorage (fst s)) (alerts (fst s)) log (location (fst s)),
        snd s)).
Proof.
  destruct s as [[ls al co lo] c].
  unfold fetchCO2ForCity, fetchCO2_body.
  cbv beta iota zeta delta
    [bind ret throw await try_catch set_browser console_error prop
     fst snd localStorage alerts console location].
  repeat destruct_innermost; eauto.
Qed.

Lemma call_fails (req : request) (s : browser * CorridorPage.state) :
  request_fails net req ->
  exists e, CorridorPage.call net req s = (Rejected e, s).
Proof.
  unfold request_fails, CorridorPage.call. intros H. run.
  destruct (fetch net req) as [res | e]; [| eauto].
  destruct H as [-> | [e He]]; cbn [negb].
  - destruct (text res); eauto.
  - destruct (ok res); cbn [negb].
    + rewrite He. eauto.
    + destruct (text res); eauto.
Qed.

Lemma message_or_default_shown (e : string) :
  AirQuality.message_or_default e <> "".
Proof.
  unfold AirQuality.message_or_default.
  destruct (String.eqb_spec e ""); [discriminate | assumption].
Qed.

Lemma geocodeCity_fails (name : string) (s : browser * AirQuality.state) :
  request_fails net (OpenMeteoGeocode name) ->
  exists e, AirQuality.geocodeCity net name s = (Rejected e, s).
Proof.
  unfold request_fails, AirQuality.geocodeCity. intros H. run.
  destruct (fetch net (OpenMeteoGeocode name)) as [res | e]; [| eauto].
  destruct H as [-> | [e He]]; cbn [negb]; [eauto |].
  destruct (ok res); cbn [negb]; [| eauto].
  rewrite He. eauto.
Qed.

Lemma fetchAirQuality_fails (lat lon : value) (s : browser * AirQuality.state) :
  request_fails net (OpenMeteoAirQuality lat lon) ->
  exists e, AirQuality.fetchAirQuality net lat lon s = (Rejected e, s).
Proof.
  unfold request_fails, AirQuality.fetchAirQuality. intros H. run.
  destruct (fetch net (OpenMeteoAirQuality lat lon)) as [res | e]; [| eauto].
  destruct H as [-> | [e He]]; cbn [negb]; [eauto |].
  destruct (ok res); cbn [negb]; [| eauto].
  rewrite He. eauto.
Qed.

Lemma fold_each_rejects {C A B : Type} (body : A -> B -> M C B)
    (l : list A) (x : A) :
  In x l ->
  (forall acc s, exists e s', body x acc s = (Rejected e, s')) ->
  forall acc s, exists e s', fold_each body l acc s = (Rejected e, s').
Proof.
  intros Hin Hx. induction l as [| y l IH]; [contradiction |].
  intros acc s. simpl. unfold bind.
  destruct Hin as [-> | Hin].
  - destruct (Hx acc s) as (e & s' & ->). eauto.
  - destruct (body y acc s) as [[acc' | e] s']; [apply IH, Hin | eauto].
Qed.

Ltac co2_resolves :=
  match goal with
  | |- context [fetchCO2ForCity _ _ _ ?c ?s] =>
      let v := fresh "co2" in
      let log := fresh "log" in
      destruct (fetchCO2_resolves c s) as (v & log & ->); cbn [fst snd]
  end.

Lemma login_failure_shown b st e :
  loginUser net (Login.u st) (Login.p st) = Rejected e ->
  Login.err (snd (snd (Login.go NumberToString net (b, st))))
    = "Wrong username or password".
Proof. intros H. run. rewrite H. reflexivity. Qed.

Lemma load_failure_shown b st e :
  getRoads net (Dashboard.city st) (Dashboard.segmentsNum st * 3)%float
    = Rejected e ->
  Dashboard.error
    (snd (snd (Dashboard.load trim StringToNumber NumberToString net (b, st))))
    = "Failed to fetch road data or live traffic.".
Proof. intros H. run. co2_resolves. rewrite H. reflexivity. Qed.

Lemma loadPredictive_failure_shown b st e :
  getRoads net (Dashboard.city st) (Dashboard.segmentsNum st * 3)%float
    = Rejected e ->
  Dashboard.error
    (snd (snd (Dashboard.loadPredictive trim NumberToString net (b, st))))
    = "Failed to load predictive traffic".
Proof. intros H. run. rewrite H. reflexivity. Qed.

Lemma predict_road_rejects city timeSteps road e acc s :
  predictToday net (get road "id") 30%float timeSteps city = Rejected e ->
  Dashboard.predict_road NumberToString net city timeSteps road acc s
    = (Rejected e, s).
Proof. intros H. unfold Dashboard.predict_road. run. rewrite H. reflexivity. Qed.

Lemma predictToday_failure_shown b st r list road e :
  getRoads net (Dashboard.city st) (Dashboard.segmentsNum st * 3)%float
    = Resolved r ->
  Roads.normalizeRoads trim (get (get r "data") "roads" |.| VArr [])
    (Dashboard.segmentsNum st) = Some list ->
  In road list ->
  predictToday net (get road "id") 30%float (Dashboard.timeSteps st)
    (Dashboard.city st) = Rejected e ->
  Dashboard.error
    (snd (snd (Dashboard.loadPredictive trim NumberToString net (b, st))))
    = "Failed to load predictive traffic".
Proof.
  intros Hr Hlist Hin He.
  assert (Hbody : forall acc s, exists e' s',
    Dashboard.predict_road NumberToString net (Dashboard.city st)
      (Dashboard.timeSteps st) road acc s = (Rejected e', s')).
  { intros acc s. rewrite (predict_road_rejects _ _ _ e) by exact He. eauto. }
  run. rewrite Hr.
  destruct (is_nullish r); [reflexivity |].
  destruct (is_nullish (get r "data")); [reflexivity |].
  rewrite Hlist.
  match goal with
  | |- context [fold_each ?body list ?acc ?s] =>
      destruct (fold_each_rejects body list road Hin Hbody acc s)
        as (e' & s' & ->)
  end.
  reflexivity.
Qed.

Lemma air_quality_failure_shown fromButton b st :
  let final := snd (snd (AirQuality.load trim net fromButton (b, st))) in
  (fromButton || negb (truthy (AirQuality.aqData st)) = true ->
   request_fails net
     (OpenMeteoGeocode (AirQuality.query_or_default trim (AirQuality.query st))) ->
   AirQuality.error final <> "")
  /\ ((forall lat lon, request_fails net (OpenMeteoAirQuality lat lon)) ->
      AirQuality.error final <> "").
Proof.
  intros final. subst final. split.
  - intros Hneeded Hfails. run. rewrite Hneeded.
    match goal with
    | |- context [AirQuality.geocodeCity net ?n ?s] =>
        destruct (geocodeCity_fails n s Hfails) as [e ->]
    end.
    apply message_or_default_shown.
  - intros Hfails. run.
    match goal with
    | |- context [if fromButton || ?c then _ else _] =>
        destruct (fromButton || c)
    end.
    + match goal with
      | |- context [AirQuality.geocodeCity net ?n ?s] =>
          destruct (AirQuality.geocodeCity net n s) as [[loc | e] s']
      end; [| apply message_or_default_shown].
      cbn [fst snd].
      match goal with
      | |- context [AirQuality.fetchAirQuality net ?x ?y ?s] =>
          destruct (fetchAirQuality_fails x y s (Hfails x y)) as [e ->]
      end.
      apply message_or_default_shown.
    + match goal with
      | |- context [AirQuality.fetchAirQuality net ?x ?y ?s] =>
          destruct (fetchAirQuality_fails x y s (Hfails x y)) as [e ->]
      end.
      apply message_or_default_shown.
Qed.

Ltac call_rejected H :=
  match goal with
  | |- context [CorridorPage.call net ?req ?s] =>
      let Hcall := fresh "Hcall" in
      pose proof (call_fails req s H) as Hcall;
      destruct Hcall as [? Hcall]; rewrite Hcall; clear Hcall
  end.

Lemma geocodeOrigin_failure_shown b st :
  trim (CorridorPage.originAddress st) <> "" ->
  request_fails net
    (CorridorGeocode (trim (CorridorPage.originAddress st))) ->
  alerts (fst (snd (CorridorPage.geocodeOrigin trim net (b, st))))
    = "Failed to geocode origin" :: alerts b.
Proof.
  intros Haddr H. apply String.eqb_neq in Haddr. run. rewrite Haddr.
  call_rejected H. reflexivity.
Qed.

Lemma geocodeDestination_failure_shown b st :
  trim (CorridorPage.destinationAddress st) <> "" ->
  request_fails net
    (CorridorGeocode (trim (CorridorPage.destinationAddress st))) ->
  alerts (fst (snd (CorridorPage.geocodeDestination trim net (b, st))))
    = "Failed to geocode destination" :: alerts b.
Proof.
  intros Haddr H. apply String.eqb_neq in Haddr. run. rewrite Haddr.
  call_rejected H. reflexivity.
Qed.

Lemma createRequest_failure_shown b st :
  request_fails net
    (CorridorRequest
       (CorridorPage.request_body StringToNumber NumberToString st)) ->
  alerts (fst (snd (CorridorPage.createRequest
                      StringToNumber NumberToString net (b, st))))
    = "Failed to create emergency request" :: alerts b.
Proof. intros H. run. call_rejected H. reflexivity. Qed.

Lemma updatePosition_failure_shown b st random1 random2 now :
  truthy (CorridorPage.requestId st) = true ->
  request_fails net
    (CorridorUpdatePosition
       (CorridorPage.position_body StringToNumber NumberToString st
          random1 random2 now)) ->
  alerts (fst (snd (CorridorPage.updatePosition
                      StringToNumber NumberToString net
                      random1 random2 now (b, st))))
    = "Failed to update position" :: alerts b.
Proof.
  intros Hid H. run. rewrite Hid. cbn [negb]. cbv beta.
  call_rejected H. reflexivity.
Qed.

Lemma checkStatus_failure_shown b st :
  truthy (CorridorPage.requestId st) = true ->
  request_fails net (CorridorStatus (CorridorPage.requestId st)) ->
  alerts (fst (snd (CorridorPage.checkStatus NumberToString net (b, st))))
    = "Failed to fetch status" :: alerts b.
Proof.
  intros Hid H. run. rewrite Hid. cbn [negb]. cbv beta.
  call_rejected H. reflexivity.
Qed.

(** When its road request fails, [loadMapData] shows nothing: no alert, and
    the state of the page is what it was, [loading] apart. *)
Lemma loadMapData_failure_silent b st cityArg segmentsArg timeStepsArg e :
  getRoads net cityArg (segmentsArg * 3)%float = Rejected e ->
  let final :=
    snd (MapView.loadMapData trim StringToNumber NumberToString net
           cityArg segmentsArg timeStepsArg (b, st)) in
  alerts (fst final) = alerts b
  /\ localStorage (fst final) = localStorage b
  /\ (exists log, console (fst final) = e :: log)
  /\ snd final =
       MapView.mkState (MapView.center st) (MapView.roads st)
         (MapView.severity st) false (MapView.coordsRef st)
         (MapView.co2Value st) (MapView.city st) (MapView.segmentsNum st)
         (MapView.timeSteps st).
Proof.
  intros H final. subst final. run. co2_resolves. rewrite H.
  cbn [fst snd alerts localStorage console].
  repeat split; eauto.
Qed.

(** C4, as amended. The failure of a network request is caught in the
    handler that sent it. It is shown to the user as inline error text or
    as an alert when the request is the login of Login, the road request of
    [load] or any request of [loadPredictive] in Dashboard, a request of
    [load] in AirQuality, or the request of a handler of EmergencyCorridor.
    When the road request of [loadMapData] in MapView fails, the error is
    logged to the console only: the page shows no alert and no error
    text. *)
Theorem request_failures_surfaced :
  (forall b st e,
     loginUser net (Login.u st) (Login.p st) = Rejected e ->
     Login.err (snd (snd (Login.go NumberToString net (b, st))))
       = "Wrong username or password")
  /\ (forall b st e,
        getRoads net (Dashboard.city st) (Dashboard.segmentsNum st * 3)%float
          = Rejected e ->
        Dashboard.error
          (snd (snd (Dashboard.load trim StringToNumber NumberToString net (b, st))))
          = "Failed to fetch road data or live traffic.")
  /\ (forall b st e,
        getRoads net (Dashboard.city st) (Dashboard.segmentsNum st * 3)%float
          = Rejected e ->
        Dashboard.error
          (snd (snd (Dashboard.loadPredictive trim NumberToString net (b, st))))
          = "Failed to load predictive traffic")
  /\ (forall b st r list road e,
        getRoads net (Dashboard.city st) (Dashboard.segmentsNum st * 3)%float
          = Resolved r ->
        Roads.normalizeRoads trim (get (get r "data") "roads" |.| VArr [])
          (Dashboard.segmentsNum st) = Some list ->
        In road list ->
        predictToday net (get road "id") 30%float (Dashboard.timeSteps st)
          (Dashboard.city st) = Rejected e ->
        Dashboard.error
          (snd (snd (Dashboard.loadPredictive trim NumberToString net (b, st))))
          = "Failed to load predictive traffic")
  /\ (forall fromButton b st,
        fromButton || negb (truthy (AirQuality.aqData st)) = true ->
        request_fails net
          (OpenMeteoGeocode (AirQuality.query_or_default trim (AirQuality.query st))) ->
        AirQuality.error (snd (snd (AirQuality.load trim net fromButton (b, st))))
          <> "")
  /\ (forall fromButton b st,
        (forall lat lon, request_fails net (OpenMeteoAirQuality lat lon)) ->
        AirQuality.error (snd (snd (AirQuality.load trim net fromButton (b, st))))
          <> "")
  /\ (forall b st,
        trim (CorridorPage.originAddress st) <> "" ->
        request_fails net
          (CorridorGeocode (trim (CorridorPage.originAddress st))) ->
        alerts (fst (snd (CorridorPage.geocodeOrigin trim net (b, st))))
          = "Failed to geocode origin" :: alerts b)
  /\ (forall b st,
        trim (CorridorPage.destinationAddress st) <> "" ->
        request_fails net
          (CorridorGeocode (trim (CorridorPage.destinationAddress st))) ->
        alerts (fst (snd (CorridorPage.geocodeDestination trim net (b, st))))
          = "Failed to geocode destination" :: alerts b)
  /\ (forall b st,
        request_fails net
          (CorridorRequest
             (CorridorPage.request_body StringToNumber NumberToString st)) ->
        alerts (fst (snd (CorridorPage.createRequest
                            StringToNumber NumberToString net (b, st))))
          = "Failed to create emergency request" :: alerts b)
  /\ (forall b st random1 random2 now,
        truthy (CorridorPage.requestId st) = true ->
        request_fails net
          (CorridorUpdatePosition
             (CorridorPage.position_body StringToNumber NumberToString st
                random1 random2 now)) ->
        alerts (fst (snd (CorridorPage.updatePosition
                            StringToNumber NumberToString net
                            random1 random2 now (b, st))))
          = "Failed to update position" :: alerts b)
  /\ (forall b st,
        truthy (CorridorPage.requestId st) = true ->
        request_fails net (CorridorStatus (CorridorPage.requestId st)) ->
        alerts (fst (snd (CorridorPage.checkStatus NumberToString net (b, st))))
          = "Failed to fetch status" :: alerts b)
  /\ (forall b st cityArg segmentsArg timeStepsArg e,
        getRoads net cityArg (segmentsArg * 3)%float = Rejected e ->
        let final :=
          snd (MapView.loadMapData trim StringToNumber NumberToString net
                 cityArg segmentsArg timeStepsArg (b, st)) in
        alerts (fst final) = alerts b
        /\ localStorage (fst final) = localStorage b
        /\ (exists log, console (fst final) = e :: log)
        /\ snd final =
             MapView.mkState (MapView.center st) (MapView.roads st)
               (MapView.severity st) false (MapView.coordsRef st)
               (MapView.co2Value st) (MapView.city st)
               (MapView.segmentsNum st) (MapView.timeSteps st)).
Proof.
  split; [exact login_failure_shown |].
  split; [exact load_failure_shown |].
  split; [exact loadPredictive_failure_shown |].
  split; [exact predictToday_failure_shown |].
  split; [intros fromButton b st; apply air_quality_failure_shown |].
  split; [intros fromButton b st; apply air_quality_failure_shown |].
  split; [exact geocodeOrigin_failure_shown |].
  split; [exact geocodeDestination_failure_shown |].
  split; [exact createRequest_failure_shown |].
  split; [exact updatePosition_failure_shown |].
  split; [exact checkStatus_failure_shown |].
  exact loadMapData_failure_silent.
Qed.


(** ** Recovery from a failed live-traffic request *)

Abbreviation severity_road := (MapView.severity_road StringToNumber NumberToString net).
Abbreviation live_road := (Dashboard.live_road StringToNumber NumberToString net).

(** The callback of MapView never throws: it records the severity of the
    road, which is 0 when the request failed, and touches nothing else. *)
Lemma severity_road_run city road sevMap (s : browser * MapView.state) :
  severity_road city road sevMap s =
    (Resolved (<[road_key NumberToString road :=
                   road_severity StringToNumber NumberToString net city road]>
                 sevMap), s).
Proof.
  unfold MapView.severity_road, road_severity, road_key, road_traffic. run.
  destruct (getLiveTraffic net (get road "id") (get_index (mid_point road) 0)
              (get_index (mid_point road) 1) city) as [t | e];
    [| reflexivity].
  destruct (is_nullish t); reflexivity.
Qed.

Lemma severity_loop_run city list sevMap (s : browser * MapView.state) :
  fold_each (severity_road city) list sevMap s =
    (Resolved
       (foldl (fun m road =>
                 <[road_key NumberToString road :=
                     road_severity StringToNumber NumberToString net city road]> m)
              sevMap list), s).
Proof.
  revert sevMap. induction list as [| road list IH]; intros sevMap; simpl.
  - reflexivity.
  - unfold bind. rewrite severity_road_run. apply IH.
Qed.

(** The callback of Dashboard, on a road whose name is printable. *)
Lemma live_road_run city road rows preds b (c : Dashboard.state) :
  printable_name road ->
  exists log,
    live_road city road (rows, preds) (b, c) =
      (Resolved
         (rows ++ [road_row StringToNumber NumberToString net city road],
          <[road_key NumberToString road :=
              VNum (road_value StringToNumber NumberToString net city road)]>
            preds),
       (mkBrowser (localStorage b) (alerts b) log (location b), c)).
Proof.
  unfold printable_name. intros Hname.
  unfold Dashboard.live_road, road_row, road_value, road_key, road_traffic,
    prettifyRoadName.
  rewrite Hname. run.
  destruct (getLiveTraffic net (get road "id") (get_index (mid_point road) 0)
              (get_index (mid_point road) 1) city) as [t | e];
    eexists; reflexivity.
Qed.

Lemma live_loop_run city list rows preds b (c : Dashboard.state) :
  Forall printable_name list ->
  exists log,
    fold_each (live_road city) list (rows, preds) (b, c) =
      (Resolved
         (rows ++ map (road_row StringToNumber NumberToString net city) list,
          foldl (fun m road =>
                   <[road_key NumberToString road :=
                       VNum (road_value StringToNumber NumberToString net
                               city road)]> m)
                preds list),
       (mkBrowser (localStorage b) (alerts b) log (location b), c)).
Proof.
  intros Hlist. revert rows preds b.
  induction Hlist as [| road list Hroad Hlist IH]; intros rows preds b; simpl.
  - exists (console b). rewrite app_nil_r. reflexivity.
  - unfold bind.
    destruct (live_road_run city road rows preds b c Hroad) as [log ->].
    destruct (IH (rows ++ [road_row StringToNumber NumberToString net city road])
                 (<[road_key NumberToString road :=
                      VNum (road_value StringToNumber NumberToString net
                              city road)]> preds)
                 (mkBrowser (localStorage b) (alerts b) log (location b)))
      as [log' ->].
    exists log'. rewrite <- app_assoc. reflexivity.
Qed.

(** What a loop records under a key does not depend on the order of the
    roads when their keys are distinct. *)
Lemma foldl_insert_fresh {V : Type} (key : value -> string) (f : value -> V)
    (l : list value) (m : gmap string V) (k : string) :
  k ∉ map key l ->
  foldl (fun m x => <[key x := f x]> m) m l !! k = m !! k.
Proof.
  revert m. induction l as [| x l IH]; intros m Hk; cbn [foldl];
    [reflexivity |].
  cbn [map] in Hk. apply not_elem_of_cons in Hk. destruct Hk as [Hne Hk].
  rewrite IH by exact Hk. apply lookup_insert_ne. congruence.
Qed.

Lemma foldl_insert_lookup {V : Type} (key : value -> string) (f : value -> V)
    (l : list value) (m : gmap string V) (x : value) :
  NoDup (map key l) -> x ∈ l ->
  foldl (fun m x => <[key x := f x]> m) m l !! key x = Some (f x).
Proof.
  revert m. induction l as [| y l IH]; intros m Hnd Hin; [inversion Hin |].
  cbn [map] in Hnd. apply NoDup_cons in Hnd. destruct Hnd as [Hy Hnd].
  cbn [foldl]. apply elem_of_cons in Hin. destruct Hin as [-> | Hin].
  - rewrite foldl_insert_fresh by exact Hy. apply lookup_insert_eq.
  - apply IH; assumption.
Qed.

Lemma settled_keys (key : value -> string) (l : list value) :
  NoDup (map key l) -> NoDup (map key (settled net l)).
Proof.
  intros H. change (NoDup (key <$> settled net l)).
  rewrite (settled_all net l). exact H.
Qed.

Lemma settled_elem_of (x : value) (l : list value) :
  x ∈ settled net l <-> x ∈ l.
Proof. rewrite (settled_all net l). reflexivity. Qed.

Lemma loadMapData_recovers b st cityArg segmentsArg timeStepsArg r list :
  getRoads net cityArg (segmentsArg * 3)%float = Resolved r ->
  is_nullish r = false ->
  Roads.normalizeRoads trim (opt_get (get r "data") "roads" |.| VArr []) segmentsArg
    = Some list ->
  center_known list ->
  let result :=
    MapView.loadMapData trim StringToNumber NumberToString net
      cityArg segmentsArg timeStepsArg (b, st) in
  fst result = Resolved tt
  /\ MapView.severity (snd (snd result))
     = severity_map StringToNumber NumberToString net (MapView.city st)
         (settled net (take 40 list))
  /\ MapView.roads (snd (snd result)) = list
  /\ MapView.loading (snd (snd result)) = false
  /\ alerts (fst (snd result)) = alerts b.
Proof.
  intros Hr Hnull Hlist Hcenter result. subst result.
  unfold severity_map. run. co2_resolves. rewrite Hr, Hnull. cbv beta iota.
  rewrite Hlist. cbv beta iota.
  destruct list as [| first rest].
  - cbn [take]. rewrite severity_loop_run. cbn. repeat split; reflexivity.
  - destruct Hcenter as [Hc1 Hc2]. rewrite Hc1. cbv beta iota.
    rewrite Hc2. cbv beta iota.
    rewrite severity_loop_run. cbn. repeat split; reflexivity.
Qed.

Lemma load_recovers b st r list :
  getRoads net (Dashboard.city st) (Dashboard.segmentsNum st * 3)%float
    = Resolved r ->
  is_nullish r = false ->
  is_nullish (get r "data") = false ->
  Roads.normalizeRoads trim (get (get r "data") "roads" |.| VArr [])
    (Dashboard.segmentsNum st) = Some list ->
  Forall printable_name list ->
  let result := Dashboard.load trim StringToNumber NumberToString net (b, st) in
  fst result = Resolved tt
  /\ Dashboard.predictions (snd (snd result))
     = predictions_of StringToNumber NumberToString net (Dashboard.city st)
         (settled net list)
  /\ Dashboard.data (snd (snd result))
     = Dashboard.Live
         (map (road_row StringToNumber NumberToString net (Dashboard.city st))
              (settled net list))
  /\ Dashboard.error (snd (snd result)) = ""
  /\ Dashboard.loading (snd (snd result)) = false
  /\ alerts (fst (snd result)) = alerts b.
Proof.
  intros Hr Hnull Hdata Hlist Hnames result. subst result.
  assert (Hsettled : Forall printable_name (settled net list)).
  { eapply Permutation_Forall; [| exact Hnames].
    apply Permutation_sym, settled_all. }
  unfold predictions_of. run. co2_resolves. rewrite Hr, Hnull. cbv beta iota.
  rewrite Hdata. cbv beta iota. rewrite Hlist. cbv beta iota.
  match goal with
  | |- context [fold_each ?body (settled net list) (?rows, ?preds) (?b0, ?c0)] =>
      destruct (live_loop_run (Dashboard.city st) (settled net list) rows preds
                  b0 c0 Hsettled)
        as [log' Hloop]
  end.
  run. rewrite Hloop. cbn. repeat split; reflexivity.
Qed.

(** The callback of Dashboard on a road whose name is not printable: the
    [catch] block calls [prettifyRoadName] as well, so the callback is
    rejected whatever the request does. *)
Lemma live_road_unprintable city road acc (s : browser * Dashboard.state) :
  Pages.prettifyRoadName_throws (get road "name" |.| get road "id") = true ->
  exists e s', live_road city road acc s = (Rejected e, s').
Proof.
  intros Hname. unfold Dashboard.live_road, prettifyRoadName.
  rewrite Hname. run.
  destruct (getLiveTraffic net (get road "id") (get_index (mid_point road) 0)
              (get_index (mid_point road) 1) city) as [t | e];
    eexists _, _; reflexivity.
Qed.

Lemma load_unprintable b st r list road :
  getRoads net (Dashboard.city st) (Dashboard.segmentsNum st * 3)%float
    = Resolved r ->
  Roads.normalizeRoads trim (get (get r "data") "roads" |.| VArr [])
    (Dashboard.segmentsNum st) = Some list ->
  road ∈ list ->
  Pages.prettifyRoadName_throws (get road "name" |.| get road "id") = true ->
  Dashboard.error
    (snd (snd (Dashboard.load trim StringToNumber NumberToString net (b, st))))
    = "Failed to fetch road data or live traffic.".
Proof.
  intros Hr Hlist Hin Hname.
  assert (Hin' : In road (settled net list))
    by (apply list_elem_of_In, settled_elem_of; exact Hin).
  run. co2_resolves. rewrite Hr.
  destruct (is_nullish r); [reflexivity |].
  destruct (is_nullish (get r "data")); [reflexivity |].
  rewrite Hlist.
  assert (Hbody : forall acc s, exists e s',
    live_road (Dashboard.city st) road acc s = (Rejected e, s'))
    by (intros acc s; apply live_road_unprintable; exact Hname).
  match goal with
  | |- context [fold_each ?body (settled net list) ?acc0 ?s0] =>
      destruct (fold_each_rejects body (settled net list) road Hin' Hbody
                  acc0 s0)
        as (e' & s' & ->)
  end.
  reflexivity.
Qed.


End Feedback.

(** * Closed examples *)

(** C2 as amended, on six segments: two runs, of five segments and of
    one, and their two polylines. *)
Lemma groupSegments_runs_witness :
  groupSegments six_segments
  = Some [mkSegment [(1, 1); (2, 2); (3, 3); (4, 4); (5, 5); (6, 6)] (Some 30);
          mkSegment [(6, 6); (7, 7)] None]%float.
Proof.
  refine (proj1 (proj2 (proj2 (proj2 (proj2
            (groupSegments_runs six_segments _)))))).
  repeat constructor; discriminate.
Defined.

(** C2 as stated fails on a list with a segment that has no point: the
    loop pushes [undefined] for the last point of the second segment, the
    filter reads its first coordinate, and [groupSegments] throws instead
    of returning polylines. *)
Lemma groupSegments_throws_without_points :
  pointless <> []
  /\ groupSegments pointless = None.
Proof.
  split; [discriminate | vm_compute; reflexivity].
Qed.

(** C3 fails on the coordinates of a MultiLineString of two lines: each line
    is an array of two entries or more, which the array branch of
    [normalizePoint] converts with [Number] and returns unchecked; the one
    polyline returned has two points whose coordinates are [NaN]. *)
Theorem buildSegmentsFromPath_nan_points
    (StringToNumber : string -> float) (NumberToString : float -> string) :
  buildSegmentsFromPath StringToNumber NumberToString two_lines
    = Some [mkSegment [(nan, nan); (nan, nan)] None]
  /\ ~ renderable (mkSegment [(nan, nan); (nan, nan)] None).
Proof.
  split; [vm_compute; reflexivity |].
  intros (_ & Hfinite & _). inversion Hfinite as [| c l [Hlat _] _]; subst.
  vm_compute in Hlat. discriminate.
Qed.

(** C4 as amended, on a failed login. *)
Lemma request_failures_surfaced_witness :
  Login.err (snd (snd (Login.go decimal_NumberToString offline
                         (empty_browser, login_state))))
    = "Wrong username or password".
Proof.
  exact (proj1 (request_failures_surfaced
                  utf8_trim decimal_StringToNumber decimal_NumberToString offline)
               empty_browser login_state "Network Error" eq_refl).
Defined.

(** C4 as stated fails on MapView: when the road request of [loadMapData]
    fails, the handler ends normally, no alert is shown, and the state of
    the page, which has no error text, is the mounted one with [loading]
    off. *)
Lemma loadMapData_failure_not_shown :
  let st := MapView.mount decimal_StringToNumber empty_browser in
  let result :=
    MapView.loadMapData utf8_trim decimal_StringToNumber decimal_NumberToString offline
      "Kolkata" 5 10 (empty_browser, st) in
  getRoads offline "Kolkata" (5 * 3)%float = Rejected "Network Error"
  /\ fst result = Resolved tt
  /\ alerts (fst (snd result)) = []
  /\ snd (snd result) =
       MapView.mkState (MapView.center st) [] ∅ false None VNull "Kolkata" 5 10.
Proof.
  vm_compute. repeat split; reflexivity.
Qed.



(** C6 as amended, on the login and the key "trafficCity". *)
Lemma storage_writes_witness :
  localStorage (fst (snd (Login.go decimal_NumberToString login_ok
                            (empty_browser, login_state))))
    !! "trafficCity"
  = localStorage empty_browser !! "trafficCity".
Proof.
  refine (proj1 (storage_writes
                   utf8_trim decimal_StringToNumber decimal_NumberToString login_ok)
                (empty_browser, login_state) "trafficCity" _).
  simpl. intros [H | []]. discriminate H.
Defined.

(** C6 as stated fails on a successful login: [go] writes the key "md_jwt",
    which is none of the three preference keys. *)
Lemma login_writes_md_jwt :
  let result :=
    Login.go decimal_NumberToString login_ok (empty_browser, login_state) in
  localStorage empty_browser !! "md_jwt" = None
  /\ localStorage (fst (snd result)) !! "md_jwt" = Some "token"
  /\ ~ In "md_jwt" preference_keys.
Proof.
  split; [reflexivity |]. split; [vm_compute; reflexivity |].
  unfold preference_keys. simpl. intros [H | [H | [H | []]]]; discriminate H.
Qed.

(** C7 as amended, on the city "Pune", 7 segments and 12 time steps. *)
Lemma preferences_round_trip_witness :
  let b' :=
    fst (snd (Dashboard.load utf8_trim decimal_StringToNumber decimal_NumberToString
                offline (empty_browser, dashboard_state "Pune" 7 12))) in
  let d := Dashboard.mount decimal_StringToNumber b' in
  let m := MapView.mount decimal_StringToNumber b' in
  Dashboard.city d = "Pune"
  /\ Dashboard.segmentsNum d = 7%float
  /\ Dashboard.timeSteps d = 12%float
  /\ MapView.city m = "Pune"
  /\ MapView.segmentsNum m = 7%float
  /\ MapView.timeSteps m = 12%float.
Proof.
  refine (preferences_round_trip
            utf8_trim decimal_StringToNumber decimal_NumberToString offline
            empty_browser (dashboard_state "Pune" 7 12)
            _ eq_refl eq_refl eq_refl eq_refl).
  discriminate.
Defined.

(** C7 as stated fails on the empty city: [load] writes it, and a fresh
    mount starts with "Kolkata". *)
Lemma empty_city_not_restored :
  let b' :=
    fst (snd (Dashboard.load utf8_trim decimal_StringToNumber decimal_NumberToString
                offline (empty_browser, dashboard_state "" 7 12))) in
  localStorage b' !! "trafficCity" = Some ""
  /\ Dashboard.city (Dashboard.mount decimal_StringToNumber b') = "Kolkata"
  /\ MapView.city (MapView.mount decimal_StringToNumber b') = "Kolkata"
  /\ "Kolkata" <> "".
Proof.
  vm_compute. repeat split; try reflexivity. discriminate.
Qed.

(** C10 as amended, on three roads and the limit 3: the road without a
    name has the most coordinates and comes last. *)
Lemma normalizeRoads_order_witness :
  exists result,
    Roads.normalizeRoads utf8_trim
      (VArr [road "" 4; road "Strand Road" 1; road "Park Street" 3]) 3
      = Some result
    /\ length result = 3
    /\ forall i j,
         result !! i = Some (road "Strand Road" 1) ->
         result !! j = Some (road "" 4) ->
         i < j.
Proof.
  destruct (normalizeRoads_order utf8_trim
              [road "" 4; road "Strand Road" 1; road "Park Street" 3] 3 3)
    as (result & Hresult & Hlength & _ & Hnamed & _).
  - repeat constructor.
  - reflexivity.
  - lia.
  - exists result. split; [exact Hresult |]. split; [exact Hlength |].
    intros i j Hi Hj. apply (Hnamed i j _ _ Hi Hj).
    + split; [vm_compute; discriminate |].
      intros H. apply starts_unnamed_spec in H. vm_compute in H.
      discriminate H.
    + intros [Hempty _]. apply Hempty. reflexivity.
Defined.

(** C10 as stated fails twice. A road named " " has a non-empty name that
    does not start with "unnamed", yet it comes after the road with no name
    and more coordinates: names are trimmed before they are classified. And
    with the limit -1 the list of two roads is cut to one road, more than
    -1. *)
Lemma normalizeRoads_untrimmed_or_negative :
  Roads.normalizeRoads utf8_trim (VArr [road " " 1; road "" 2]) 5
    = Some [road "" 2; road " " 1]
  /\ is_named_untrimmed (road " " 1) = true
  /\ is_named_untrimmed (road "" 2) = false
  /\ Roads.normalizeRoads utf8_trim (VArr [road " " 1; road "" 2]) (-1)
     = Some [road "" 2]
  /\ (Z.of_nat (length [road "" 2]) <=? -1)%Z = false.
Proof.
  vm_compute. repeat split; reflexivity.
Qed.

(** * Further properties of the pages *)

(** * The polyline decoder *)

Section Decoder.

Import RoutePath PolylineFormat.

Local Open Scope nat_scope.

Lemma code_units_length (s : string) :
  length (code_units s) = String.length s.
Proof.
  unfold code_units. rewrite length_map.
  induction s as [| c s IH]; simpl; [reflexivity | rewrite IH; reflexivity].
Qed.

(** A loop over the chunks of a number reads a code unit when there is
    one. *)
Lemma chunk_loop_reads (str : list Z) (shift result : Z) :
  length (snd (chunk_loop str shift result)) <= Nat.pred (length str).
Proof.
  revert shift result. induction str as [| c rest IH]; intros shift result.
  - simpl. lia.
  - cbn [chunk_loop]. cbv zeta.
    destruct (32 <=? c - 63)%Z.
    + specialize (IH (shift + 5)%Z
                     (Z.lor result (shl (Z.land (c - 63) 31) shift))).
      simpl. lia.
    + simpl. lia.
Qed.

Lemma decode_loop_step (turns : nat) (c : Z) (rest : list Z) (lat lng : float) :
  decode_loop (S turns) (c :: rest) lat lng =
    VArr [VNum ((lat + of_Z (delta (fst (chunk_loop (c :: rest) 0 0)))) / 1e5);
          VNum ((lng + of_Z (delta (fst (chunk_loop
                   (snd (chunk_loop (c :: rest) 0 0)) 0 0)))) / 1e5)]
      :: decode_loop turns
           (snd (chunk_loop (snd (chunk_loop (c :: rest) 0 0)) 0 0))
           (lat + of_Z (delta (fst (chunk_loop (c :: rest) 0 0))))
           (lng + of_Z (delta (fst (chunk_loop
                   (snd (chunk_loop (c :: rest) 0 0)) 0 0)))).
Proof.
  cbn [decode_loop].
  destruct (chunk_loop (c :: rest) 0 0) as [result1 str1].
  cbn [fst snd].
  destruct (chunk_loop str1 0 0) as [result2 str2].
  reflexivity.
Qed.

(** A turn more than the code units changes nothing. *)
Lemma decode_loop_more (turns : nat) (str : list Z) (lat lng : float) :
  length str <= turns ->
  decode_loop (S turns) str lat lng = decode_loop turns str lat lng.
Proof.
  revert str lat lng. induction turns as [| turns IH]; intros str lat lng Hlen.
  - destruct str; [reflexivity | simpl in Hlen; lia].
  - destruct str as [| c rest]; [reflexivity |].
    rewrite (decode_loop_step (S turns)), (decode_loop_step turns).
    f_equal. apply IH.
    pose proof (chunk_loop_reads (c :: rest) 0 0) as H1.
    pose proof (chunk_loop_reads (snd (chunk_loop (c :: rest) 0 0)) 0 0) as H2.
    cbn [length Nat.pred] in Hlen, H1. lia.
Qed.

Lemma decode_loop_enough (turns : nat) (str : list Z) (lat lng : float) :
  length str <= turns ->
  decode_loop turns str lat lng = decode_loop (length str) str lat lng.
Proof.
  induction turns as [| turns IH]; intros Hlen.
  - replace (length str) with 0 by lia. reflexivity.
  - destruct (Nat.eq_dec (length str) (S turns)) as [-> | Hne]; [reflexivity |].
    rewrite decode_loop_more by lia. apply IH. lia.
Qed.

(** A turn yields one point and reads two code units, or the only one
    left. *)
Lemma decode_loop_count (turns : nat) (str : list Z) (lat lng : float) :
  length (decode_loop turns str lat lng) <= (length str + 1) / 2.
Proof.
  revert str lat lng. induction turns as [| turns IH]; intros str lat lng.
  - simpl. lia.
  - destruct str as [| c rest]; [simpl; lia |].
    rewrite decode_loop_step. cbn [length].
    pose proof (chunk_loop_reads (c :: rest) 0 0) as H1.
    pose proof (chunk_loop_reads (snd (chunk_loop (c :: rest) 0 0)) 0 0) as H2.
    match goal with
    | |- S (length (decode_loop turns ?s ?a ?b)) <= _ =>
        specialize (IH s a b); set (n := length s) in *
    end.
    cbn [length Nat.pred] in H1.
    set (m := length (snd (chunk_loop (c :: rest) 0 0))) in *.
    set (r := length rest) in *.
    assert (Hn : n + 1 <= r \/ n = 0) by lia.
    clearbody n m r.
    transitivity ((n + 1) / 2 + 1);
      [apply le_n_S in IH; rewrite Nat.add_1_r; exact IH |].
    destruct Hn as [Hn | ->].
    + replace ((n + 1) / 2 + 1) with ((n + 1 + 1 * 2) / 2)
        by (rewrite Nat.div_add by lia; reflexivity).
      apply Nat.Div0.div_le_mono. lia.
    + change ((0 + 1) / 2 + 1) with (2 / 2).
      apply Nat.Div0.div_le_mono. lia.
Qed.

Lemma decode_loop_pairs (turns : nat) (str : list Z) (lat lng : float) :
  Forall (fun point => exists x y, point = VArr [VNum x; VNum y])
         (decode_loop turns str lat lng).
Proof.
  revert str lat lng. induction turns as [| turns IH]; intros str lat lng.
  - constructor.
  - destruct str as [| c rest]; [constructor |].
    rewrite decode_loop_step. constructor; [eauto | apply IH].
Qed.

(** [decodePolylineIfNeeded] gives [null] or an array. On a string that is
    not empty the decoding loop ends within as many turns as the string has
    code units (more turns change nothing), and the result is an array of
    one to [ceil(n / 2)] pairs of numbers, [n] being the length of the
    string. *)
Theorem decodePolylineIfNeeded_ends (s : string) (turns : nat) :
  s <> "" ->
  String.length s <= turns ->
  exists points,
    decodePolylineIfNeeded (VStr s) = VArr points
    /\ decode_loop turns (code_units s) 0 0 = points
    /\ 1 <= length points <= (String.length s + 1) / 2
    /\ Forall (fun point => exists x y, point = VArr [VNum x; VNum y]) points.
Proof.
  intros Hs Hturns. exists (decode s).
  destruct s as [| c s']; [congruence |].
  split; [reflexivity |].
  split.
  { unfold decode. rewrite decode_loop_enough
      by (rewrite code_units_length; exact Hturns).
    rewrite code_units_length. reflexivity. }
  split; [| apply decode_loop_pairs].
  split.
  - unfold decode, code_units. cbn [list_ascii_of_string map String.length].
    rewrite decode_loop_step. simpl. lia.
  - unfold decode. rewrite <- code_units_length. apply decode_loop_count.
Qed.

(** ** The decoder inverts the encoding *)

Local Open Scope Z_scope.

Lemma testbit_31 (j : Z) : Z.testbit 31 j = (0 <=? j) && (j <? 5).
Proof.
  destruct (Z.leb_spec 0 j) as [Hj | Hj]; simpl.
  - change 31 with (Z.ones 5).
    destruct (Z.ltb_spec j 5).
    + apply Z.ones_spec_low. lia.
    + apply Z.ones_spec_high. lia.
  - apply Z.testbit_neg_r. lia.
Qed.

(** The five low bits and the rest of a number make up the number. *)
Lemma lor_chunks (n shift : Z) :
  0 <= shift ->
  Z.lor (Z.shiftl (Z.land n 31) shift) (Z.shiftl (Z.shiftr n 5) (shift + 5))
    = Z.shiftl n shift.
Proof.
  intros Hs. apply Z.bits_inj'. intros i Hi.
  rewrite Z.lor_spec, !Z.shiftl_spec by lia.
  rewrite Z.land_spec, testbit_31.
  destruct (Z.ltb_spec (i - shift) 0) as [Hneg | Hpos].
  - rewrite !(Z.testbit_neg_r _ (i - shift)) by lia.
    rewrite Z.testbit_neg_r by lia. reflexivity.
  - destruct (Z.ltb_spec (i - shift) 5) as [Hlow | Hhigh].
    + rewrite (Z.testbit_neg_r _ (i - (shift + 5))) by lia.
      replace (0 <=? i - shift) with true by (symmetry; apply Z.leb_le; lia).
      rewrite andb_true_r, orb_false_r. reflexivity.
    + rewrite Z.shiftr_spec by lia.
      replace (i - (shift + 5) + 5) with (i - shift) by lia.
      rewrite andb_false_r, andb_false_r. reflexivity.
Qed.

Lemma shl_exact (x shift : Z) :
  0 <= x -> 0 <= shift < 32 -> x * 2 ^ shift < 2 ^ 31 ->
  shl x shift = Z.shiftl x shift.
Proof.
  intros Hx Hs Hsmall. unfold shl, ToInt32.
  rewrite (Z.mod_small shift 32) by lia.
  rewrite Z.shiftl_mul_pow2 by lia.
  rewrite Z.mod_small; [lia |].
  assert (0 <= x * 2 ^ shift) by (apply Z.mul_nonneg_nonneg; lia).
  lia.
Qed.

Lemma land_31_small (n : Z) : 0 <= n < 32 -> Z.land n 31 = n.
Proof.
  intros Hn. change 31 with (Z.ones 5). rewrite Z.land_ones by lia.
  apply Z.mod_small. lia.
Qed.

Lemma land_31_range (n : Z) : 0 <= Z.land n 31 < 32.
Proof.
  change 31 with (Z.ones 5). rewrite Z.land_ones by lia.
  apply Z.mod_pos_bound. lia.
Qed.

Lemma marked_chunk (n : Z) :
  let b := Z.lor 32 (Z.land n 31) in
  32 <= b < 64 /\ Z.land b 31 = Z.land n 31.
Proof.
  intros b. subst b. pose proof (land_31_range n) as Hr.
  assert (Hb : Z.lor 32 (Z.land n 31) = 32 + Z.land n 31).
  { rewrite <- Z.add_lor_land at 1.
    assert (Hz : Z.land 32 (Z.land n 31) = 0).
    { rewrite Z.land_assoc, (Z.land_comm 32 n), <- Z.land_assoc.
      change (Z.land 32 31) with 0. apply Z.land_0_r. }
    rewrite Hz.
    assert (Hl := Z.add_lor_land 32 (Z.land n 31)). lia. }
  rewrite Hb. split; [lia |].
  change 31 with (Z.ones 5). rewrite !Z.land_ones by lia.
  rewrite Z.add_comm.
  change 32 with (1 * 2 ^ 5) at 1. rewrite Z.mod_add by lia.
  apply Z.mod_mod. lia.
Qed.

(** The loop over the chunks of [encode_unsigned chunks n] gathers the bits
    of [n], moved to where [shift] says. *)
Lemma chunk_loop_encode (chunks : nat) :
  forall (n shift result : Z) (rest : list Z),
    0 <= n < 2 ^ (5 * (Z.of_nat chunks + 1)) ->
    0 <= shift -> shift + 5 * (Z.of_nat chunks + 1) <= 31 ->
    chunk_loop (encode_unsigned chunks n ++ rest) shift result
      = (Z.lor result (Z.shiftl n shift), rest).
Proof.
  induction chunks as [| chunks IH]; intros n shift result rest Hn Hs Hfit.
  - change (5 * (Z.of_nat 0 + 1)) with 5 in *. change (2 ^ 5) with 32 in Hn.
    cbn [encode_unsigned app chunk_loop]. cbv zeta.
    replace (n + 63 - 63) with n by lia.
    destruct (Z.leb_spec 32 n); [lia |].
    rewrite land_31_small by lia.
    rewrite shl_exact; [reflexivity | lia | lia |].
    apply Z.lt_le_trans with (32 * 2 ^ shift).
    + apply Z.mul_lt_mono_pos_r; [apply Z.pow_pos_nonneg |]; lia.
    + change 32 with (2 ^ 5). rewrite <- Z.pow_add_r by lia.
      apply Z.pow_le_mono_r; lia.
  - cbn [encode_unsigned].
    assert (Hbound : forall x, 0 <= x < 32 -> x * 2 ^ shift < 2 ^ 31).
    { intros x Hx. apply Z.lt_le_trans with (32 * 2 ^ shift).
      - apply Z.mul_lt_mono_pos_r; [apply Z.pow_pos_nonneg |]; lia.
      - change 32 with (2 ^ 5). rewrite <- Z.pow_add_r by lia.
        apply Z.pow_le_mono_r; lia. }
    destruct (Z.ltb_spec n 32) as [Hsmall | Hbig].
    + cbn [app chunk_loop]. cbv zeta.
      replace (n + 63 - 63) with n by lia.
      destruct (Z.leb_spec 32 n); [lia |].
      rewrite land_31_small by lia.
      rewrite shl_exact; [reflexivity | lia | lia | apply Hbound; lia].
    + cbn [app chunk_loop]. cbv zeta.
      replace (Z.lor 32 (Z.land n 31) + 63 - 63) with (Z.lor 32 (Z.land n 31))
        by lia.
      destruct (marked_chunk n) as [Hb Hland].
      destruct (Z.leb_spec 32 (Z.lor 32 (Z.land n 31))); [| lia].
      rewrite Hland.
      rewrite shl_exact;
        [| apply land_31_range | lia | apply Hbound, land_31_range].
      rewrite IH.
      * rewrite <- Z.lor_assoc, lor_chunks by lia. reflexivity.
      * rewrite Z.shiftr_div_pow2 by lia. split.
        -- apply Z.div_pos; lia.
        -- apply Z.div_lt_upper_bound; [lia |].
           rewrite <- Z.pow_add_r by lia.
           replace (5 + 5 * (Z.of_nat chunks + 1))
             with (5 * (Z.of_nat (S chunks) + 1)) by lia.
           lia.
      * lia.
      * lia.
Qed.

Lemma delta_zigzag (d : Z) : delta (zigzag d) = d.
Proof.
  unfold delta, zigzag.
  destruct (Z.ltb_spec d 0) as [Hneg | Hpos].
  - assert (Hodd : Z.land (Z.lnot (Z.shiftl d 1)) 1 = 1).
    { change 1 with (Z.ones 1) at 2. rewrite Z.land_ones by lia.
      rewrite Z.shiftl_mul_pow2 by lia. unfold Z.lnot. change (2 ^ 1) with 2.
      replace (Z.pred (- (d * 2))) with (1 + (- d - 1) * 2) by lia.
      rewrite Z.mod_add by lia. reflexivity. }
    rewrite Hodd. simpl.
    rewrite Z.shiftr_div_pow2, Z.shiftl_mul_pow2 by lia.
    unfold Z.lnot. change (2 ^ 1) with 2.
    replace (Z.pred (- (d * 2))) with (1 + (- d - 1) * 2) by lia.
    rewrite Z.div_add by lia. change (1 / 2) with 0. lia.
  - assert (Heven : Z.land (Z.shiftl d 1) 1 = 0).
    { change 1 with (Z.ones 1) at 2. rewrite Z.land_ones by lia.
      rewrite Z.shiftl_mul_pow2 by lia. apply Z.mod_mul. discriminate. }
    rewrite Heven. simpl.
    rewrite Z.shiftr_shiftl_l by lia. reflexivity.
Qed.

Lemma zigzag_range (d : Z) : in_range d -> 0 <= zigzag d < 2 ^ 30.
Proof.
  unfold in_range, zigzag. intros Hd.
  rewrite Z.shiftl_mul_pow2 by lia. change (2 ^ 1) with 2.
  change (2 ^ 30) with (2 * 2 ^ 29).
  destruct (Z.ltb_spec d 0); unfold Z.lnot; lia.
Qed.

Lemma chunk_loop_signed (d : Z) (rest : list Z) :
  in_range d ->
  chunk_loop (encode_signed d ++ rest) 0 0 = (zigzag d, rest).
Proof.
  intros Hd. unfold encode_signed.
  rewrite chunk_loop_encode.
  - rewrite Z.shiftl_0_r. reflexivity.
  - change (5 * (Z.of_nat 5 + 1)) with 30. apply zigzag_range, Hd.
  - lia.
  - simpl. lia.
Qed.

Lemma encode_unsigned_cons (chunks : nat) (n : Z) :
  exists c rest, encode_unsigned chunks n = c :: rest.
Proof. destruct chunks; simpl; [| destruct (n <? 32)]; eauto. Qed.

Lemma encode_unsigned_units (chunks : nat) (n : Z) :
  0 <= n < 2 ^ (5 * (Z.of_nat chunks + 1)) ->
  Forall (fun c => 0 <= c < 256) (encode_unsigned chunks n).
Proof.
  revert n. induction chunks as [| chunks IH]; intros n Hn.
  - change (2 ^ (5 * (Z.of_nat 0 + 1))) with 32 in Hn.
    repeat constructor; lia.
  - cbn [encode_unsigned]. destruct (Z.ltb_spec n 32).
    + repeat constructor; lia.
    + destruct (marked_chunk n) as [Hb _].
      constructor; [lia |]. apply IH.
      rewrite Z.shiftr_div_pow2 by lia. split.
      * apply Z.div_pos; lia.
      * apply Z.div_lt_upper_bound; [lia |].
        rewrite <- Z.pow_add_r by lia.
        replace (5 + 5 * (Z.of_nat chunks + 1))
          with (5 * (Z.of_nat (S chunks) + 1)) by lia.
        lia.
Qed.

Lemma code_units_of_string (l : list Z) :
  Forall (fun c => 0 <= c < 256) l ->
  code_units (string_of_code_units l) = l.
Proof.
  unfold code_units, string_of_code_units.
  rewrite list_ascii_of_string_of_list_ascii.
  induction 1 as [| c l Hc Hl IH]; [reflexivity |].
  cbn [map]. rewrite IH. f_equal.
  rewrite nat_ascii_embedding by lia. lia.
Qed.

Lemma decode_loop_encode (deltas : list (Z * Z)) :
  forall (turns : nat) (lat lng : float),
    (length deltas <= turns)%nat ->
    Forall (fun d => in_range (fst d) /\ in_range (snd d)) deltas ->
    decode_loop turns
      (concat (map (fun d => encode_signed (fst d) ++ encode_signed (snd d))
                   deltas)) lat lng
      = coordinates lat lng deltas.
Proof.
  induction deltas as [| d deltas IH]; intros turns lat lng Hturns Hrange.
  - destruct turns; reflexivity.
  - destruct turns as [| turns]; [simpl in Hturns; lia |].
    inversion Hrange as [| ? ? [Hlat Hlng] Hrest]; subst.
    cbn [map concat coordinates].
    destruct (encode_unsigned_cons 5 (zigzag (fst d))) as (c & tail & Hcons).
    assert (Hfirst :
      (encode_signed (fst d) ++ encode_signed (snd d))
        ++ concat (map (fun d => encode_signed (fst d) ++ encode_signed (snd d))
                       deltas)
      = c :: (tail ++ encode_signed (snd d)
                ++ concat (map (fun d => encode_signed (fst d)
                                           ++ encode_signed (snd d)) deltas))).
    { unfold encode_signed at 1. rewrite Hcons. rewrite <- !app_assoc.
      reflexivity. }
    rewrite Hfirst, decode_loop_step, <- Hfirst.
    rewrite <- !app_assoc.
    rewrite (chunk_loop_signed (fst d)) by exact Hlat. cbn [fst snd].
    rewrite (chunk_loop_signed (snd d)) by exact Hlng. cbn [fst snd].
    rewrite !delta_zigzag. f_equal. apply IH; [simpl in Hturns; lia | exact Hrest].
Qed.

(** [decode] inverts the encoding: on the encoding of a path whose
    differences lie between -2^29 and 2^29 it returns the points of the
    path, each the sum of the differences so far divided by 1e5. *)
Theorem decode_encode (deltas : list (Z * Z)) :
  Forall (fun d => in_range (fst d) /\ in_range (snd d)) deltas ->
  decode (encode deltas) = coordinates 0 0 deltas.
Proof.
  intros Hrange. unfold decode, encode.
  set (units := concat (map (fun d => encode_signed (fst d)
                                        ++ encode_signed (snd d)) deltas)).
  assert (Hunits : Forall (fun c => 0 <= c < 256) units).
  { unfold units. apply Forall_concat, Forall_map.
    eapply Forall_impl; [exact Hrange |].
    intros d [Hlat Hlng]. cbn beta. apply Forall_app. split;
      apply encode_unsigned_units; change (5 * (Z.of_nat 5 + 1)) with 30;
      apply zigzag_range; assumption. }
  pose proof (code_units_length (string_of_code_units units)) as Hlen.
  rewrite code_units_of_string in * by exact Hunits.
  rewrite <- Hlen.
  apply decode_loop_encode; [| exact Hrange].
  unfold units. clear. induction deltas as [| d deltas IH]; simpl; [lia |].
  rewrite !length_app.
  destruct (encode_unsigned_cons 5 (zigzag (fst d))) as (c & tail & Hcons).
  unfold encode_signed at 1. rewrite Hcons. simpl. lia.
Qed.

End Decoder.

(** The decoder on the string "_p~iF~ps|U", of ten code units. *)
Lemma decodePolylineIfNeeded_ends_witness :
  exists points,
    RoutePath.decodePolylineIfNeeded (VStr "_p~iF~ps|U") = VArr points
    /\ RoutePath.decode_loop 10 (RoutePath.code_units "_p~iF~ps|U") 0 0 = points
    /\ 1 <= length points <= (String.length "_p~iF~ps|U" + 1) / 2
    /\ Forall (fun point => exists x y, point = VArr [VNum x; VNum y]) points.
Proof.
  apply (decodePolylineIfNeeded_ends "_p~iF~ps|U" 10).
  - discriminate.
  - simpl. lia.
Defined.

(** The example of the format's description is decoded to its three
    points. *)
Lemma decode_encode_witness :
  PolylineFormat.encode PolylineFormat.example_deltas
    = "_p~iF~ps|U_ulLnnqC_mqNvxq`@"
  /\ RoutePath.decode "_p~iF~ps|U_ulLnnqC_mqNvxq`@"
     = [VArr [VNum 38.5; VNum (-120.2)];
        VArr [VNum 40.7; VNum (-120.95)];
        VArr [VNum 43.252; VNum (-126.453)]].
Proof.
  split; [reflexivity |].
  change "_p~iF~ps|U_ulLnnqC_mqNvxq`@"
    with (PolylineFormat.encode PolylineFormat.example_deltas).
  rewrite (decode_encode PolylineFormat.example_deltas).
  - reflexivity.
  - unfold PolylineFormat.in_range. repeat constructor; cbn; lia.
Defined.

(** * The polylines of the primary route *)

Section PrimaryRoute.

Import RoutePath Drawing.

Local Open Scope nat_scope.

Variable StringToNumber : string -> float.
Variable NumberToString : float -> string.

Abbreviation Number := (ToNumber StringToNumber NumberToString).
Abbreviation primarySegments' :=
  (primarySegments StringToNumber NumberToString).

Lemma normalizePoint_pair (a b : float) :
  looks_lon_lat a b = false ->
  normalizePoint StringToNumber NumberToString (VArr [VNum a; VNum b])
    = Some (mkPoint a b None).
Proof.
  intros H. unfold normalizePoint.
  cbn [is_nullish isArray arr_length length Nat.leb andb get_index nth ToNumber].
  rewrite H. reflexivity.
Qed.

(** Before a route is known ([route] is [null], as in the initial state)
    the map shows the straight line from the origin to the destination: one
    polyline of these two points with no severity, drawn dashed in the
    fallback blue; and nothing when the two places coincide. The latitudes
    are those of the state as long as neither lies beyond 90 degrees with a
    longitude within. *)
Theorem primarySegments_without_route (origin destination : value) :
  truthy origin = true -> truthy destination = true ->
  looks_lon_lat (Number (get origin "lat")) (Number (get origin "lon"))
    = false ->
  looks_lon_lat (Number (get destination "lat"))
                (Number (get destination "lon")) = false ->
  let o := (Number (get origin "lat"), Number (get origin "lon")) in
  let d := (Number (get destination "lat"), Number (get destination "lon")) in
  let line := mkSegment [o; d] None in
  primarySegments' VNull origin destination
    = Some (if same_coord o d then [] else [line])
  /\ primary_color StringToNumber NumberToString VNull line = blue
  /\ dashArray line = Some "6 6".
Proof.
  intros Ho Hd Hoo Hdd o d line.
  split; [| split; reflexivity].
  unfold primarySegments, polylinePoints, intersection_points, end_point.
  rewrite Ho, Hd. cbn [opt_get is_nullish truthy app].
  cbn [getRoutePathCandidate truthy negb coalesce is_nullish].
  unfold buildSegmentsFromPath. cbn [truthy negb].
  unfold buildSegmentsFromArray, segment_like.
  cbn [nth length Nat.ltb Nat.leb truthy typeof_object get js_or andb].
  unfold normalizePoints. cbn [omap list_omap].
  rewrite !normalizePoint_pair by assumption.
  cbn [length Nat.leb adjacent_segments
       Corridor.lat Corridor.lon Corridor.severity finite_or_null segSeverity].
  unfold groupSegments. cbn [length group_loop Nat.ltb Nat.leb].
  cbn [drop take SEGMENT_GROUP_SIZE]. unfold group_slice.
  cbn [flatten_slice pts map app cleaned filter_after].
  fold o d. destruct (same_coord o d); reflexivity.
Qed.

Lemma truthy_length (v : value) :
  truthy (js_length v) = true -> truthy v = true.
Proof.
  destruct v as [| | b | x | s | items | fields]; try discriminate;
    try reflexivity.
  destruct s; [discriminate | reflexivity].
Qed.

(** Whenever [polylinePoints] maps the points of [route.path] (the
    [length] of the path is truthy), its result is not what is drawn:
    [getRoutePathCandidate] finds the same path first, and the primary
    polylines are built from [route.path] itself, so also from the points
    that [polylinePoints] left out. *)
Theorem primarySegments_from_path (route origin destination : value)
    (points : list value) :
  truthy (js_length (get route "path")) = true ->
  polylinePoints StringToNumber NumberToString route origin destination
    = Some points ->
  primarySegments' route origin destination
    = buildSegmentsFromPath StringToNumber NumberToString (get route "path").
Proof.
  intros Hlen Hpoints. apply truthy_length in Hlen.
  unfold primarySegments. rewrite Hpoints.
  destruct route as [| | b | x | s | items | fields]; try discriminate.
  unfold getRoutePathCandidate. cbn [truthy negb]. rewrite Hlen.
  unfold coalesce.
  destruct (get (VObj fields) "path"); try discriminate; reflexivity.
Qed.

End PrimaryRoute.

(** Before a request, from Andheri to Fort. *)
Lemma primarySegments_without_route_witness :
  RoutePath.primarySegments decimal_StringToNumber decimal_NumberToString
    VNull Drawing.andheri Drawing.fort
    = Some [mkSegment [(19.125, 72.875); (18.9375, 72.8125)]%float None].
Proof.
  refine (proj1 (primarySegments_without_route
                   decimal_StringToNumber decimal_NumberToString
                   Drawing.andheri Drawing.fort _ _ _ _));
    reflexivity.
Defined.

(** A route with a path of two points. *)
Lemma primarySegments_from_path_witness :
  RoutePath.primarySegments decimal_StringToNumber decimal_NumberToString
    (VObj [("path", VArr [Drawing.andheri; Drawing.fort])])
    Drawing.andheri Drawing.fort
  = buildSegmentsFromPath decimal_StringToNumber decimal_NumberToString
      (VArr [Drawing.andheri; Drawing.fort]).
Proof.
  apply (primarySegments_from_path
           decimal_StringToNumber decimal_NumberToString
           (VObj [("path", VArr [Drawing.andheri; Drawing.fort])])
           Drawing.andheri Drawing.fort
           [VArr [VNum 19.125; VNum 72.875]; VArr [VNum 18.9375; VNum 72.8125]]);
    reflexivity.
Defined.

(** * The polylines of a path of points *)

Section PathWindows.

Import Drawing.

Local Open Scope nat_scope.

Lemma adjacent_segments_step (a b : point) (rest : list point) :
  adjacent_segments (a :: b :: rest)
    = mkSegment [coord_of a; coord_of b]
                (segSeverity (finite_or_null (severity a))
                             (finite_or_null (severity b)))
        :: adjacent_segments (b :: rest).
Proof. reflexivity. Qed.

Lemma adjacent_segments_drop (n : nat) (ptsWithMeta : list point) :
  drop n (adjacent_segments ptsWithMeta)
    = adjacent_segments (drop n ptsWithMeta).
Proof.
  revert ptsWithMeta. induction n as [| n IH]; intros ptsWithMeta.
  - reflexivity.
  - destruct ptsWithMeta as [| a [| b rest]]; [reflexivity | |].
    + destruct n; reflexivity.
    + rewrite adjacent_segments_step. cbn [drop]. apply IH.
Qed.

Lemma last_pt_take (n : nat) (b : point) (rest : list point) :
  map last_pt (take n (adjacent_segments (b :: rest)))
    = map Some (take n (map coord_of rest)).
Proof.
  revert n b. induction rest as [| c rest IH]; intros n b.
  - destruct n; reflexivity.
  - destruct n as [| n]; [reflexivity |].
    rewrite adjacent_segments_step. cbn [take map]. rewrite IH. reflexivity.
Qed.

(** A slice of the segments of a path flattens to the window of its
    points. *)
Lemma flatten_slice_take (n : nat) (ptsWithMeta : list point) :
  2 <= length ptsWithMeta ->
  flatten_slice (take (S n) (adjacent_segments ptsWithMeta))
    = map Some (take (S (S n)) (map coord_of ptsWithMeta)).
Proof.
  destruct ptsWithMeta as [| a [| b rest]]; cbn [length]; try lia.
  intros _. rewrite adjacent_segments_step.
  cbn [take flatten_slice pts map app].
  rewrite last_pt_take. reflexivity.
Qed.

Lemma filter_after_apart (a : coord) (w : list coord) :
  adjacent_apart (a :: w) -> filter_after (Some a) (map Some w) = Some w.
Proof.
  revert a. induction w as [| b w IH]; intros a H; [reflexivity |].
  destruct H as [Hab Hrest]. cbn [map filter_after].
  rewrite (IH b Hrest), Hab. reflexivity.
Qed.

Lemma cleaned_apart (w : list coord) :
  adjacent_apart w -> cleaned (map Some w) = Some w.
Proof.
  destruct w as [| a w]; [reflexivity |]. intros H.
  cbn [map cleaned]. rewrite (filter_after_apart a w H).
  destruct w; reflexivity.
Qed.

Lemma adjacent_apart_drop (n : nat) (l : list coord) :
  adjacent_apart l -> adjacent_apart (drop n l).
Proof.
  revert l. induction n as [| n IH]; intros l H; [exact H |].
  destruct l as [| a [| b rest]]; [exact I | destruct n; exact I |].
  cbn [drop]. apply IH. exact (proj2 H).
Qed.

Lemma adjacent_apart_take (n : nat) (l : list coord) :
  adjacent_apart l -> adjacent_apart (take n l).
Proof.
  revert l. induction n as [| n IH]; intros l H; [exact I |].
  destruct l as [| a [| b rest]]; [exact I | destruct n; exact I |].
  destruct H as [Hab Hrest]. specialize (IH (b :: rest) Hrest).
  destruct n as [| n]; [exact I |].
  cbn [take] in *. split; [exact Hab | exact IH].
Qed.

Lemma adjacent_segments_nil (ptsWithMeta : list point) :
  length ptsWithMeta < 2 -> adjacent_segments ptsWithMeta = [].
Proof.
  destruct ptsWithMeta as [| a [| b rest]]; cbn [length]; intros H;
    [reflexivity | reflexivity | lia].
Qed.

Lemma adjacent_segments_cons (ptsWithMeta : list point) :
  2 <= length ptsWithMeta ->
  exists s rest, adjacent_segments ptsWithMeta = s :: rest.
Proof.
  destruct ptsWithMeta as [| a [| b rest]]; cbn [length]; intros H;
    [lia | lia |]. rewrite adjacent_segments_step. eauto.
Qed.

(** Run by run, the loop of [groupSegments] draws the windows. *)
Lemma group_runs_windows (turns : nat) (ptsWithMeta : list point) :
  adjacent_apart (map coord_of ptsWithMeta) ->
  exists out,
    group_runs (chunks turns (adjacent_segments ptsWithMeta)) = Some out
    /\ map pts out = windows turns (map coord_of ptsWithMeta).
Proof.
  revert ptsWithMeta. induction turns as [| turns IH]; intros ptsWithMeta Hapart.
  - exists []. split; reflexivity.
  - cbn [windows]. rewrite length_map.
    destruct (Nat.leb_spec 2 (length ptsWithMeta)) as [Hlen | Hlen].
    + destruct (adjacent_segments_cons _ Hlen) as (s & rest & Hcons).
      cbn [chunks]. rewrite Hcons. rewrite <- Hcons.
      cbn [group_runs]. unfold group_slice.
      change SEGMENT_GROUP_SIZE with 5.
      rewrite (flatten_slice_take 4 _ Hlen).
      rewrite cleaned_apart by (apply adjacent_apart_take; exact Hapart).
      rewrite adjacent_segments_drop.
      destruct (IH (drop 5 ptsWithMeta)) as (out & Hout & Hpts).
      { rewrite <- skipn_map. apply adjacent_apart_drop. exact Hapart. }
      rewrite <- skipn_map in Hpts.
      rewrite Hout.
      assert (Htwo : (2 <=? length (take 6 (map coord_of ptsWithMeta))) = true).
      { apply Nat.leb_le. rewrite length_take, length_map. lia. }
      rewrite Htwo.
      eexists. split; [reflexivity |].
      cbn [app map pts]. rewrite Hpts. reflexivity.
    + rewrite adjacent_segments_nil by exact Hlen.
      exists []. split; reflexivity.
Qed.

Lemma windows_enough (turns : nat) (path : list coord) :
  length path <= S turns -> windows (S turns) path = windows turns path.
Proof.
  revert path. induction turns as [| turns IH]; intros path Hlen.
  - cbn [windows]. destruct (Nat.leb_spec 2 (length path)); [lia | reflexivity].
  - change (windows (S (S turns)) path)
      with (if 2 <=? length path
            then take 6 path :: windows (S turns) (drop 5 path) else []).
    change (windows (S turns) path)
      with (if 2 <=? length path
            then take 6 path :: windows turns (drop 5 path) else []).
    destruct (2 <=? length path); [| reflexivity].
    rewrite IH; [reflexivity |]. rewrite length_drop. lia.
Qed.

(** A window starts on the last point of the window before it. *)
Lemma windows_connected (turns : nat) (path : list coord) (k : nat)
    (w w' : list coord) :
  windows turns path !! k = Some w ->
  windows turns path !! S k = Some w' ->
  last w = head w'.
Proof.
  revert path k. induction turns as [| turns IH]; intros path k Hw Hw'.
  - cbn [windows] in Hw. rewrite lookup_nil in Hw. discriminate.
  - cbn [windows] in Hw, Hw'. change SEGMENT_GROUP_SIZE with 5 in *.
    destruct (2 <=? length path); [| rewrite lookup_nil in Hw; discriminate].
    destruct k as [| k].
    + cbn [lookup list_lookup] in Hw, Hw'. inversion Hw; subst w. clear Hw.
      destruct turns as [| turns]; [discriminate |].
      cbn [windows] in Hw'. change SEGMENT_GROUP_SIZE with 5 in *.
      destruct (Nat.leb_spec 2 (length (drop 5 path))) as [Hlen | Hlen];
        [| discriminate].
      cbn [lookup list_lookup] in Hw'. inversion Hw'; subst w'. clear Hw'.
      rewrite length_drop in Hlen.
      rewrite last_lookup, length_take.
      replace (Nat.pred (6 `min` length path)) with 5 by lia.
      rewrite lookup_take_lt by lia.
      rewrite head_lookup, lookup_take_lt by lia.
      rewrite lookup_drop. f_equal.
    + cbn [lookup list_lookup] in Hw, Hw'. eapply IH; eassumption.
Qed.

(** Every point of the path lies in a window. *)
Lemma windows_cover (turns : nat) (path : list coord) (c : coord) :
  length path <= S turns -> 2 <= length path -> c ∈ path ->
  exists w, w ∈ windows turns path /\ c ∈ w.
Proof.
  revert path. induction turns as [| turns IH]; intros path Hturns Hlen Hc.
  - lia.
  - cbn [windows]. change SEGMENT_GROUP_SIZE with 5.
    destruct (Nat.leb_spec 2 (length path)); [| lia].
    rewrite <- (take_drop 6 path) in Hc. apply elem_of_app in Hc.
    destruct Hc as [Hc | Hc].
    + exists (take 6 path). split; [left | exact Hc].
    + assert (Hlong : 7 <= length path).
      { apply list_elem_of_lookup in Hc. destruct Hc as [i Hi].
        apply lookup_lt_Some in Hi. rewrite length_drop in Hi. lia. }
      destruct (IH (drop 5 path)) as (w & Hw & Hcw).
      * rewrite length_drop. lia.
      * rewrite length_drop. lia.
      * apply list_elem_of_lookup in Hc. destruct Hc as [i Hi].
        rewrite lookup_drop in Hi.
        apply (list_elem_of_lookup_2 _ (1 + i)). rewrite lookup_drop.
        replace (5 + (1 + i)) with (6 + i) by lia. exact Hi.
      * exists w. split; [right; exact Hw | exact Hcw].
Qed.

(** The polylines that [groupSegments] draws for the segments between the
    adjacent points of a path, no point of which [===] the one before it:
    they are the windows of the path, of six points each and the last one
    of fewer; every polyline starts on the last point of the polyline before
    it, so the route is drawn in one piece; and every point of a path of two
    points or more lies on a polyline. *)
Theorem groupSegments_adjacent_windows (ptsWithMeta : list point) :
  adjacent_apart (map coord_of ptsWithMeta) ->
  exists out,
    groupSegments (adjacent_segments ptsWithMeta) = Some out
    /\ map pts out
       = windows (length ptsWithMeta) (map coord_of ptsWithMeta)
    /\ (forall k a b,
          out !! k = Some a -> out !! S k = Some b ->
          last (pts a) = head (pts b))
    /\ (2 <= length ptsWithMeta ->
        forall c, c ∈ map coord_of ptsWithMeta ->
                  exists o, o ∈ out /\ c ∈ pts o).
Proof.
  intros Hapart.
  set (segments := adjacent_segments ptsWithMeta).
  set (path := map coord_of ptsWithMeta).
  destruct (group_runs_windows (length segments) ptsWithMeta Hapart)
    as (out & Hout & Hpts).
  fold segments path in Hout, Hpts.
  assert (Hsegs : length ptsWithMeta <= S (length segments)).
  { unfold segments. clear.
    induction ptsWithMeta as [| a [| b rest] IH]; cbn [length] in *; try lia.
    rewrite adjacent_segments_step. cbn [length]. lia. }
  assert (Hwin : map pts out = windows (length ptsWithMeta) path).
  { rewrite Hpts.
    assert (Hmore : forall extra,
      windows (length segments + extra) path = windows (length segments) path).
    { induction extra as [| extra IHe]; [rewrite Nat.add_0_r; reflexivity |].
      rewrite Nat.add_succ_r, windows_enough; [exact IHe |].
      unfold path. rewrite length_map. lia. }
    destruct (Nat.le_gt_cases (length ptsWithMeta) (length segments)) as [Hle | Hgt].
    - assert (Hmore' : forall extra,
        length ptsWithMeta <= length ptsWithMeta + extra ->
        windows (length ptsWithMeta + extra) path
          = windows (length ptsWithMeta) path).
      { induction extra as [| extra IHe]; intros _;
          [rewrite Nat.add_0_r; reflexivity |].
        rewrite Nat.add_succ_r, windows_enough; [apply IHe; lia |].
        unfold path. rewrite length_map. lia. }
      replace (length segments)
        with (length ptsWithMeta + (length segments - length ptsWithMeta))
        by lia.
      apply Hmore'. lia.
    - replace (length ptsWithMeta) with (length segments + 1) by lia.
      symmetry. apply Hmore. }
  exists out. split.
  { unfold groupSegments. rewrite group_loop_runs. exact Hout. }
  split; [exact Hwin |].
  split.
  - intros k a b Ha Hb.
    apply (windows_connected (length segments) path k).
    + rewrite <- Hpts. rewrite list_lookup_fmap, Ha. reflexivity.
    + rewrite <- Hpts. rewrite list_lookup_fmap, Hb. reflexivity.
  - intros Hlen c Hc.
    destruct (windows_cover (length segments) path c) as (w & Hw & Hcw).
    + unfold path. rewrite length_map. exact Hsegs.
    + unfold path. rewrite length_map. exact Hlen.
    + exact Hc.
    + rewrite <- Hpts in Hw. apply list_elem_of_fmap in Hw.
      destruct Hw as (o & -> & Ho). exists o. split; assumption.
Qed.

End PathWindows.

(** A path of seven points: a window of six and a window of two. *)
Lemma groupSegments_adjacent_windows_witness :
  exists out,
    groupSegments (adjacent_segments Drawing.seven_points) = Some out
    /\ map pts out
       = [[(1, 1); (2, 2); (3, 3); (4, 4); (5, 5); (6, 6)]; [(6, 6); (7, 7)]]%float.
Proof.
  destruct (groupSegments_adjacent_windows Drawing.seven_points)
    as (out & Hout & Hpts & _).
  - cbn. repeat split; reflexivity.
  - exists out. split; [exact Hout | exact Hpts].
Defined.

(** * Payloads whose points are objects *)

Section PointObjects.

Import Drawing.

Local Open Scope nat_scope.

Variable StringToNumber : string -> float.
Variable NumberToString : float -> string.

Abbreviation normalizePoint' := (normalizePoint StringToNumber NumberToString).

(** Outside its first branch [normalizePoint] returns finite coordinates
    only. *)
Lemma normalizePoint_finite (p : value) (pt : point) :
  coordinate_pair p = false ->
  normalizePoint' p = Some pt ->
  finite_coord (coord_of pt).
Proof.
  unfold coordinate_pair, normalizePoint, finite_coord, coord_of.
  intros Hpair. rewrite Hpair.
  destruct (is_nullish p); [discriminate |].
  destruct (PrimFloat.is_finite _ && PrimFloat.is_finite _) eqn:Hfin.
  - intros H. inversion H; subst. cbn [fst snd Corridor.lat Corridor.lon].
    apply andb_true_iff in Hfin. exact Hfin.
  - clear Hfin. destruct (negb _ && negb _); [| discriminate].
    destruct (PrimFloat.is_finite _ && PrimFloat.is_finite _) eqn:Hfin';
      [| discriminate].
    apply andb_true_iff in Hfin'. destruct Hfin' as [H0 H1].
    destruct (looks_lon_lat _ _); intros H; inversion H; subst;
      cbn [fst snd Corridor.lat Corridor.lon]; split; assumption.
Qed.

Lemma normalizePoints_finite (l : list value) :
  Forall (fun p => coordinate_pair p = false) l ->
  Forall (fun pt => finite_coord (coord_of pt))
         (normalizePoints StringToNumber NumberToString l).
Proof.
  unfold normalizePoints. induction 1 as [| p l Hp Hl IH]; [constructor |].
  cbn [omap list_omap].
  destruct (normalizePoint' p) as [pt |] eqn:E; [| exact IH].
  constructor; [| exact IH]. eapply normalizePoint_finite; eassumption.
Qed.

Lemma collect_segments_finite (maybePath : list value) (segments : list segment) :
  Forall (fun segObj =>
            Forall (fun p => coordinate_pair p = false)
                   (array_or_empty (segment_raw segObj))) maybePath ->
  collect_segments StringToNumber NumberToString maybePath = Some segments ->
  Forall (fun s => Forall finite_coord (pts s)) segments.
Proof.
  intros Hobjects. revert segments.
  induction Hobjects as [| segObj rest Hseg Hrest IH]; intros segments H;
    cbn [collect_segments] in H.
  - inversion H. constructor.
  - destruct (is_nullish segObj); [discriminate |].
    destruct (collect_segments _ _ rest) as [segs |]; [| discriminate].
    specialize (IH _ eq_refl).
    match type of H with
    | Some (if ?c then _ else _) = _ => destruct c
    end; inversion H; subst; [| exact IH].
    constructor; [| exact IH]. cbn [pts].
    apply Forall_map.
    exact (normalizePoints_finite _ Hseg).
Qed.

Lemma adjacent_segments_finite (ptsWithMeta : list point) :
  Forall (fun pt => finite_coord (coord_of pt)) ptsWithMeta ->
  Forall (fun s => Forall finite_coord (pts s)) (adjacent_segments ptsWithMeta).
Proof.
  induction ptsWithMeta as [| a [| b rest] IH]; intros H;
    [constructor | constructor |].
  inversion H as [| ? ? Ha Hrest]; subst.
  inversion Hrest as [| ? ? Hb _]; subst.
  change (adjacent_segments (a :: b :: rest))
    with (mkSegment [coord_of a; coord_of b]
            (segSeverity (finite_or_null (severity a))
                         (finite_or_null (severity b)))
            :: adjacent_segments (b :: rest)).
  constructor; [| apply IH; exact Hrest].
  cbn [pts]. constructor; [exact Ha | constructor; [exact Hb | constructor]].
Qed.

(** The grouping keeps points of its input only. *)
Lemma filter_after_keeps (P : coord -> Prop) (l : list (option coord))
    (prev : option coord) (kept : list coord) :
  Forall (fun o => forall c, o = Some c -> P c) l ->
  filter_after prev l = Some kept -> Forall P kept.
Proof.
  intros Hl. revert prev kept.
  induction Hl as [| p l Hp Hl IH]; intros prev kept H; cbn [filter_after] in H.
  - inversion H. constructor.
  - destruct prev as [a |]; [| discriminate].
    destruct p as [b |]; [| discriminate].
    destruct (filter_after (Some b) l) as [kept' |] eqn:E; [| discriminate].
    specialize (IH _ _ E).
    destruct (same_coord a b); inversion H; subst; [exact IH |].
    constructor; [apply Hp; reflexivity | exact IH].
Qed.

Lemma cleaned_keeps (P : coord -> Prop) (l : list (option coord))
    (c : list coord) :
  Forall (fun o => forall x, o = Some x -> P x) l ->
  cleaned l = Some c -> Forall P c.
Proof.
  intros Hl H. destruct l as [| p0 rest]; [inversion H; constructor |].
  inversion Hl as [| ? ? Hp Hrest]; subst.
  cbn [cleaned] in H.
  destruct p0 as [a |].
  - destruct (filter_after (Some a) rest) as [kept |] eqn:E.
    + assert (Hgoal : Forall P (a :: kept)).
      { constructor; [apply Hp; reflexivity |].
        eapply filter_after_keeps; eassumption. }
      destruct rest; inversion H; subst; exact Hgoal.
    + destruct rest; [cbn in E |]; discriminate.
  - destruct rest; [inversion H; constructor | discriminate].
Qed.

Lemma flatten_slice_keeps (P : coord -> Prop) (slice : list segment) :
  Forall (fun s => Forall P (pts s)) slice ->
  Forall (fun o => forall x, o = Some x -> P x) (flatten_slice slice).
Proof.
  intros H. destruct slice as [| s0 rest]; [constructor |].
  inversion H as [| ? ? H0 Hrest]; subst.
  cbn [flatten_slice]. apply Forall_app. split.
  - apply Forall_map. eapply Forall_impl; [exact H0 |].
    intros c Hc x Hx. inversion Hx; subst. exact Hc.
  - apply Forall_map. eapply Forall_impl; [exact Hrest |].
    intros s Hs x Hx. unfold last_pt in Hx.
    rewrite Forall_forall in Hs. apply Hs.
    rewrite last_lookup in Hx.
    eapply list_elem_of_lookup_2. exact Hx.
Qed.

Lemma group_loop_keeps (P : coord -> Prop) (turns : nat)
    (segments : list segment) (i : nat) (out : list segment) :
  Forall (fun s => Forall P (pts s)) segments ->
  group_loop turns segments i = Some out ->
  Forall (fun s => Forall P (pts s)) out.
Proof.
  intros Hsegs. revert i out.
  induction turns as [| turns IH]; intros i out H; cbn [group_loop] in H.
  - inversion H. constructor.
  - destruct (i <? length segments); [| inversion H; constructor].
    unfold group_slice in H.
    destruct (cleaned _) as [c |] eqn:Hc; [| discriminate].
    destruct (group_loop turns segments (i + SEGMENT_GROUP_SIZE)) as [gs |] eqn:Hgs.
    + specialize (IH _ _ Hgs).
      assert (Hkept : Forall P c).
      { eapply cleaned_keeps; [| exact Hc].
        apply flatten_slice_keeps, Forall_take, Forall_drop. exact Hsegs. }
      destruct (2 <=? length c); inversion H; subst; [| exact IH].
      constructor; [exact Hkept | exact IH].
    + destruct (2 <=? length c); discriminate.
Qed.

Lemma buildSegmentsFromArray_finite (items : list value) (out : list segment) :
  point_objects items ->
  buildSegmentsFromArray StringToNumber NumberToString items = Some out ->
  Forall (fun s => Forall finite_coord (pts s)) out.
Proof.
  intros [Hentries Hpoints]. unfold buildSegmentsFromArray.
  assert (Hsecond :
    (if 2 <=? length (normalizePoints StringToNumber NumberToString items)
     then groupSegments
            (adjacent_segments
               (normalizePoints StringToNumber NumberToString items))
     else Some []) = Some out ->
    Forall (fun s => Forall finite_coord (pts s)) out).
  { destruct (2 <=? length _); intros H; [| inversion H; constructor].
    eapply group_loop_keeps; [| exact H].
    apply adjacent_segments_finite, normalizePoints_finite, Hentries. }
  destruct (segment_like items).
  - destruct (collect_segments _ _ items) as [segments |] eqn:Hsegs;
      [| discriminate].
    pose proof (collect_segments_finite _ _ Hpoints Hsegs) as Hfin.
    destruct (0 <? length segments); [| exact Hsecond].
    intros H. eapply group_loop_keeps; [exact Hfin | exact H].
  - cbn [length Nat.ltb Nat.leb]. exact Hsecond.
Qed.


End PointObjects.


(** * More on normalizeRoads *)

Section RoadLists.

Import Roads RoadList.

Local Open Scope nat_scope.

Variable trim : string -> string.

Lemma filter_valid_throws (items : list value) :
  filter_valid items = None <-> Exists (fun r => is_nullish r = true) items.
Proof.
  induction items as [| r items IH]; cbn [filter_valid].
  - split; [discriminate | intros H; inversion H].
  - unfold valid_road. destruct (is_nullish r) eqn:Hr.
    + split; [intros _; left; exact Hr | reflexivity].
    + destruct (filter_valid items) as [valid |].
      * split; [discriminate |]. intros H.
        inversion H as [? ? Hhead | ? ? Htail]; subst; [congruence |].
        apply IH in Htail. discriminate.
      * split; [intros _; right; apply IH; reflexivity | reflexivity].
Qed.

Lemma road_name_throws (r : value) :
  road_name trim r = None <-> name_not_string r = true.
Proof.
  unfold road_name, name_not_string, js_or.
  destruct (get r "name") as [| | b | x | s | l | f]; cbn [truthy];
    try (split; [discriminate | discriminate]);
    try (split; reflexivity).
  - destruct b; split; try discriminate; reflexivity.
  - destruct (negb _); split; try discriminate; reflexivity.
  - destruct (negb (String.eqb s "")); split; discriminate.
Qed.

Lemma split_named_throws (valid : list value) :
  split_named trim valid = None <-> Exists (fun r => road_name trim r = None) valid.
Proof.
  induction valid as [| r valid IH]; cbn [split_named].
  - split; [discriminate | intros H; inversion H].
  - destruct (road_name trim r) as [name |] eqn:Hname.
    + destruct (split_named trim valid) as [[named unnamed] |].
      * split; [discriminate |]. intros H.
        inversion H as [? ? Hhead | ? ? Htail]; subst; [congruence |].
        apply IH in Htail. discriminate.
      * split; [intros _; right; apply IH; reflexivity | reflexivity].
    + split; [intros _; left; exact Hname | reflexivity].
Qed.

(** [normalizeRoads] throws on a list of roads exactly when an entry of the
    list is [null] or [undefined] (the filter reads its [coordinates]), or
    when a road with coordinates has a name that is truthy and no string
    (it has no [trim] method). On a list that is missing or falsy it returns
    the empty list. *)
Theorem normalizeRoads_throws (items : list value) (limit : float) :
  (normalizeRoads trim (VArr items) limit = None
   <-> Exists (fun r => is_nullish r = true) items
       \/ Exists (fun r => with_coordinates r = true
                           /\ name_not_string r = true) items)
  /\ (forall roads, truthy roads = false ->
                    normalizeRoads trim roads limit = Some []).
Proof.
  split.
  - unfold normalizeRoads. cbn [roads_or_empty js_or truthy].
    destruct (filter_valid items) as [valid |] eqn:Hvalid.
    + assert (Hnull : Forall (fun r => is_nullish r = false) items).
      { apply Forall_forall. intros r Hr.
        destruct (is_nullish r) eqn:E; [| reflexivity].
        assert (Hex : Exists (fun r => is_nullish r = true) items)
          by (apply Exists_exists; eauto).
        apply filter_valid_throws in Hex. congruence. }
      rewrite filter_valid_filter in Hvalid by exact Hnull.
      inversion Hvalid; subst valid. clear Hvalid.
      destruct (split_named trim _) as [[named unnamed] |] eqn:Hsplit.
      * split; [discriminate |]. intros [Hex | Hex].
        -- apply Exists_exists in Hex. destruct Hex as (r & Hr & Hn).
           rewrite Forall_forall in Hnull. rewrite (Hnull r Hr) in Hn.
           discriminate.
        -- assert (Hthrows : split_named trim (List.filter with_coordinates items)
                             = None).
           { apply split_named_throws. apply Exists_exists.
             apply Exists_exists in Hex. destruct Hex as (r & Hr & Hc & Hn).
             exists r. split; [| apply road_name_throws; exact Hn].
             apply list_elem_of_In, filter_In. split;
               [apply list_elem_of_In; exact Hr | exact Hc]. }
           congruence.
      * split; [| reflexivity]. intros _. right.
        apply split_named_throws in Hsplit.
        apply Exists_exists in Hsplit. destruct Hsplit as (r & Hr & Hn).
        apply list_elem_of_In, filter_In in Hr. destruct Hr as [Hr Hc].
        apply Exists_exists. exists r.
        split; [apply list_elem_of_In; exact Hr |].
        split; [exact Hc | apply road_name_throws; exact Hn].
    + split; [| reflexivity]. intros _. left.
      apply filter_valid_throws. exact Hvalid.
  - intros roads Hfalsy. unfold normalizeRoads, roads_or_empty, js_or.
    rewrite Hfalsy. cbn [filter_valid split_named sort_by app].
    unfold slice0. destruct (ToIntegerOrInfinity limit) as [k | |];
      [destruct (k <? 0)%Z; destruct (Z.to_nat _) |..]; reflexivity.
Qed.

Lemma filter_sublist (f : value -> bool) (l : list value) :
  List.filter f l `sublist_of` l.
Proof.
  induction l as [| x l IH]; cbn [List.filter]; [constructor |].
  destruct (f x); [apply sublist_skip | apply sublist_cons]; exact IH.
Qed.

(** [normalizeRoads] invents and repeats no road: the roads it returns are
    roads of its input, each as often as there at most; and when the limit
    is no smaller than the number of roads with coordinates, it returns all
    of them. *)
Theorem normalizeRoads_keeps (items : list value) (limit : float) (k : Z) :
  Forall road_object items ->
  ToIntegerOrInfinity limit = Int k -> (0 <= k)%Z ->
  exists result,
    normalizeRoads trim (VArr items) limit = Some result
    /\ result ⊆+ items
    /\ (length (List.filter with_coordinates items) <= Z.to_nat k ->
        result ≡ₚ List.filter with_coordinates items).
Proof.
  intros Hwf Hk Hpos.
  assert (Hnull : Forall (fun r => is_nullish r = false) items)
    by (eapply Forall_impl; [exact Hwf | intros r [H _]; exact H]).
  destruct (filter_valid_total items Hwf) as (valid & Hvalid & Hwf').
  pose proof (filter_valid_filter items Hnull) as Hfilter.
  rewrite Hvalid in Hfilter. inversion Hfilter; subst valid. clear Hfilter.
  destruct (split_named_total trim _ Hwf') as [[named unnamed] Hsplit].
  destruct (split_named_spec trim _ _ _ Hsplit) as (_ & _ & Hperm).
  assert (Hsorted : sort_by byLengthDesc named ++ sort_by byLengthDesc unnamed
                    ≡ₚ List.filter with_coordinates items)
    by (rewrite !sort_by_Permutation; exact Hperm).
  exists (take (Z.to_nat k)
            (sort_by byLengthDesc named ++ sort_by byLengthDesc unnamed)).
  split.
  { unfold normalizeRoads. cbn [roads_or_empty js_or truthy].
    rewrite Hvalid, Hsplit. rewrite (slice0_prefix _ _ _ Hk Hpos). reflexivity. }
  split.
  - transitivity (sort_by byLengthDesc named ++ sort_by byLengthDesc unnamed).
    + apply sublist_submseteq, sublist_take.
    + rewrite Hsorted. apply sublist_submseteq, filter_sublist.
  - intros Hlen. rewrite take_ge; [exact Hsorted |].
    rewrite Hsorted. exact Hlen.
Qed.

Lemma sort_by_sorted_id (l : list value) :
  StronglySorted more_coordinates l -> sort_by byLengthDesc l = l.
Proof.
  induction 1 as [| x l Hl IH Hx]; [reflexivity |].
  cbn [sort_by]. rewrite IH.
  destruct l as [| y l']; [reflexivity |].
  cbn [insert_by]. inversion Hx as [| ? ? Hxy _]; subst.
  unfold byLengthDesc, more_coordinates in *.
  destruct (Z.leb_spec (Z.of_nat (coordinate_count y)
                        - Z.of_nat (coordinate_count x)) 0); [reflexivity | lia].
Qed.

Lemma StronglySorted_take {A : Type} (R : A -> A -> Prop) (n : nat) (l : list A) :
  StronglySorted R l -> StronglySorted R (take n l).
Proof.
  intros H. revert n. induction H as [| x l Hl IH Hx]; intros n.
  - destruct n; constructor.
  - destruct n as [| n]; [constructor |].
    cbn [take]. constructor; [apply IH | apply Forall_take; exact Hx].
Qed.

Lemma split_named_app (xs ys : list value) :
  Forall (fun r => is_named trim r = true) xs ->
  Forall (fun r => is_named trim r = false /\ is_Some (road_name trim r)) ys ->
  split_named trim (xs ++ ys) = Some (xs, ys).
Proof.
  intros Hxs Hys. induction Hxs as [| x xs Hx Hxs IH].
  - cbn [app]. induction Hys as [| y ys [Hy [name Hname]] Hys IH];
      [reflexivity |].
    cbn [split_named]. rewrite Hname, IH.
    unfold is_named in Hy. rewrite Hname in Hy.
    apply negb_false_iff in Hy. rewrite Hy. reflexivity.
  - cbn [app split_named]. rewrite IH.
    unfold is_named in Hx. destruct (road_name trim x) as [name |]; [| discriminate].
    apply negb_true_iff in Hx. rewrite Hx. reflexivity.
Qed.

(** [normalizeRoads] changes nothing in a list that it has returned:
    normalising its result, with the same limit, gives the result back. *)
Theorem normalizeRoads_idempotent (items : list value) (limit : float) (k : Z)
    (result : list value) :
  Forall road_object items ->
  ToIntegerOrInfinity limit = Int k -> (0 <= k)%Z ->
  normalizeRoads trim (VArr items) limit = Some result ->
  normalizeRoads trim (VArr result) limit = Some result.
Proof.
  intros Hwf Hk Hpos Hresult.
  assert (Hnull : Forall (fun r => is_nullish r = false) items)
    by (eapply Forall_impl; [exact Hwf | intros r [H _]; exact H]).
  destruct (filter_valid_total items Hwf) as (valid & Hvalid & Hwf').
  pose proof (filter_valid_filter items Hnull) as Hfilter.
  rewrite Hvalid in Hfilter. inversion Hfilter; subst valid. clear Hfilter.
  destruct (split_named_total trim _ Hwf') as [[named unnamed] Hsplit].
  destruct (split_named_spec trim _ _ _ Hsplit) as (Hn & Hu & Hperm).
  set (sn := sort_by byLengthDesc named) in *.
  set (su := sort_by byLengthDesc unnamed) in *.
  assert (Hres : result = take (Z.to_nat k) (sn ++ su)).
  { unfold normalizeRoads in Hresult.
    cbn [roads_or_empty js_or truthy] in Hresult.
    rewrite Hvalid, Hsplit in Hresult. fold sn su in Hresult.
    rewrite (slice0_prefix _ _ _ Hk Hpos) in Hresult. congruence. }
  rewrite take_app in Hres.
  set (rn := take (Z.to_nat k) sn) in *.
  set (ru := take (Z.to_nat k - length sn) su) in *.
  assert (Hall : Forall (fun r => road_object r /\ with_coordinates r = true)
                        (sn ++ su)).
  { unfold sn, su. rewrite !sort_by_Permutation, Hperm.
    apply Forall_forall. intros r Hr.
    apply list_elem_of_In, filter_In in Hr. destruct Hr as [Hr Hc].
    rewrite Forall_forall in Hwf. split; [| exact Hc].
    apply Hwf, list_elem_of_In, Hr. }
  apply Forall_app in Hall. destruct Hall as [Hsn Hsu].
  assert (Hrn : Forall (fun r => road_object r /\ with_coordinates r = true) rn)
    by (apply Forall_take; exact Hsn).
  assert (Hru : Forall (fun r => road_object r /\ with_coordinates r = true) ru)
    by (apply Forall_take; exact Hsu).
  assert (Hnamed : Forall (fun r => is_named trim r = true) rn).
  { apply Forall_take. unfold sn. rewrite sort_by_Permutation. exact Hn. }
  assert (Hunnamed : Forall (fun r => is_named trim r = false
                                      /\ is_Some (road_name trim r)) ru).
  { apply Forall_take. unfold su. rewrite sort_by_Permutation.
    apply Forall_forall. intros r Hr.
    rewrite Forall_forall in Hu. split; [apply Hu; exact Hr |].
    assert (Hobj : road_object r).
    { rewrite <- (sort_by_Permutation byLengthDesc unnamed) in Hr.
      rewrite Forall_forall in Hsu. apply Hsu. exact Hr. }
    destruct Hobj as [_ Hname]. unfold road_name.
    destruct (get r "name" |.| VStr ""); try contradiction. eauto. }
  subst result.
  unfold normalizeRoads. cbn [roads_or_empty js_or truthy].
  rewrite filter_valid_filter.
  2: { apply Forall_app. split.
       - eapply Forall_impl; [exact Hrn |]. intros r [[H _] _]. exact H.
       - eapply Forall_impl; [exact Hru |]. intros r [[H _] _]. exact H. }
  assert (Hkeep : List.filter with_coordinates (rn ++ ru) = rn ++ ru).
  { apply forallb_filter_id. apply forallb_forall. intros r Hr.
    assert (Hin : r ∈ rn ++ ru) by (apply list_elem_of_In; exact Hr).
    apply elem_of_app in Hin. rewrite Forall_forall in Hrn, Hru.
    destruct Hin as [Hin | Hin]; [apply Hrn | apply Hru]; exact Hin. }
  rewrite Hkeep, (split_named_app rn ru Hnamed Hunnamed).
  rewrite !sort_by_sorted_id
    by (apply StronglySorted_take, sort_by_sorted).
  rewrite (slice0_prefix _ _ _ Hk Hpos).
  apply f_equal, take_ge.
  rewrite length_app. unfold rn, ru. rewrite !length_take. lia.
Qed.

End RoadLists.

(** Three roads and the limit 5: all are returned. *)
Lemma normalizeRoads_keeps_witness :
  exists result,
    Roads.normalizeRoads utf8_trim (VArr RoadList.three_roads) 5 = Some result
    /\ result ⊆+ RoadList.three_roads
    /\ result ≡ₚ RoadList.three_roads.
Proof.
  destruct (normalizeRoads_keeps utf8_trim RoadList.three_roads 5 5)
    as (result & Hresult & Hsub & Hall).
  - repeat constructor.
  - reflexivity.
  - lia.
  - exists result. split; [exact Hresult |]. split; [exact Hsub |].
    apply Hall. vm_compute. lia.
Defined.

(** A list with a [null] entry, and no list at all. *)
Lemma normalizeRoads_throws_witness :
  Roads.normalizeRoads utf8_trim (VArr [road "Park Street" 2; VNull]) 5 = None
  /\ Roads.normalizeRoads utf8_trim VUndef 5 = Some [].
Proof.
  split.
  - apply (proj1 (normalizeRoads_throws utf8_trim [road "Park Street" 2; VNull] 5)).
    left. right. left. reflexivity.
  - apply (proj2 (normalizeRoads_throws utf8_trim [] 5)). reflexivity.
Defined.

(** Three roads and the limit 2, twice. *)
Lemma normalizeRoads_idempotent_witness :
  Roads.normalizeRoads utf8_trim (VArr [road "Strand Road" 3; road "Park Street" 2]) 2
    = Some [road "Strand Road" 3; road "Park Street" 2].
Proof.
  apply (normalizeRoads_idempotent utf8_trim RoadList.three_roads 2 2).
  - repeat constructor.
  - reflexivity.
  - lia.
  - reflexivity.
Defined.

(** * How the handlers end *)

Section Endings.

Import Settling.

Context {C : Type}.

Lemma ends_always {A} (after : C -> Prop) (m : M C A) s :
  ends after m s -> ends always m s.
Proof. intros (a & s' & H & _). exists a, s'. split; [exact H | exact I]. Qed.

Lemma ends_ret {A} (a : A) (s : browser * C) : ends always (ret a) s.
Proof. exists a, s. split; [reflexivity | exact I]. Qed.

Lemma ends_state (s : browser * C) : ends always Pages.state s.
Proof. exists (snd s), s. split; [reflexivity | exact I]. Qed.

Lemma ends_set_state (f : C -> C) (s : browser * C) :
  ends always (set_state f) s.
Proof. eexists _, _. split; [reflexivity | exact I]. Qed.

Lemma ends_set_browser (f : browser -> browser) (s : browser * C) :
  ends always (set_browser f) s.
Proof. eexists _, _. split; [reflexivity | exact I]. Qed.

Lemma ends_bind {A B} (after : C -> Prop) (m : M C A) (k : A -> M C B) s :
  ends always m s -> (forall a s', ends after (k a) s') ->
  ends after (bind m k) s.
Proof.
  intros (a & s1 & Hm & _) Hk. unfold ends, bind. rewrite Hm. apply Hk.
Qed.

Lemma ends_bind_state {A} (after : C -> Prop) (k : C -> M C A) s :
  ends after (k (snd s)) s -> ends after (bind Pages.state k) s.
Proof. intros H. exact H. Qed.

Lemma ends_try_catch {A} (body : M C A) (handler : string -> M C A) s :
  (forall e s', ends always (handler e) s') ->
  ends always (try_catch body handler) s.
Proof.
  intros Hh. unfold ends, try_catch.
  destruct (body s) as [[a | e] s']; [| apply Hh].
  exists a, s'. split; [reflexivity | exact I].
Qed.

(** A [try ... catch ... finally] statement whose handler ends normally
    ends normally, in a state that its [finally] block leaves. *)
Lemma ends_finally {A} (after : C -> Prop) (body : M C A)
    (handler : string -> M C A) (cleanup : M C unit) s :
  (forall e s', ends always (handler e) s') ->
  (forall s', ends after cleanup s') ->
  ends after (finally (try_catch body handler) cleanup) s.
Proof.
  intros Hh Hc. unfold ends, finally.
  destruct (ends_try_catch body handler s Hh) as (a & s1 & -> & _).
  destruct (Hc s1) as ([] & s2 & -> & Hafter).
  exists a, s2. split; [reflexivity | exact Hafter].
Qed.

End Endings.

Create HintDb setters.

#[local] Hint Unfold
  Login.setErr
  Dashboard.setData Dashboard.setPredictions Dashboard.setLoading
  Dashboard.setError Dashboard.setCo2Value
  MapView.setCenter MapView.setRoads MapView.setSeverity MapView.setLoading
  MapView.set_coordsRef MapView.setCo2Value
  AirQuality.setLocation AirQuality.setLoading AirQuality.setError
  AirQuality.setAqData
  CorridorPage.setOrigin CorridorPage.setDestination CorridorPage.setRequestId
  CorridorPage.setStatus CorridorPage.setAlternatives CorridorPage.setRoute
  CorridorPage.setAmbulancePos CorridorPage.setLoading CorridorPage.showToast
  setItem alert console_error navigate
  : setters.

(** One step of the proof that a handler ends normally. *)
Ltac ends_step :=
  lazymatch goal with
  | |- Settling.ends _ (bind _ _) _ => apply ends_bind; [| intros ? ?]
  | |- Settling.ends _ (finally (try_catch _ _) _) _ =>
      apply ends_finally; [intros ? ? | intros ?]
  | |- Settling.ends _ (try_catch _ _) _ => apply ends_try_catch; intros ? ?
  | |- Settling.ends _ Pages.state _ => apply ends_state
  | |- Settling.ends _ (set_state _) _ =>
      first [ apply ends_set_state
            | eexists _, _; split; reflexivity ]
  | |- Settling.ends _ (set_browser _) _ => apply ends_set_browser
  | |- Settling.ends _ (ret _) _ => apply ends_ret
  | |- Settling.ends _ _ _ => progress autounfold with setters
  end.

Ltac ends_normally := repeat ends_step.

Section Settled.

Import Settling.

Variable trim : string -> string.
Variable StringToNumber : string -> float.
Variable NumberToString : float -> string.
Variable net : network.

Ltac settle handler :=
  intros s _; unfold handler; ends_normally.

(** Whatever the network answers, every handler of the pages ends
    normally: its promise is resolved, never rejected. The handlers that
    load data ([load] and [loadPredictive] of Dashboard, [loadMapData] and
    [handleSearch] of MapView, [load] of AirQuality, [createRequest] of
    EmergencyCorridor) leave [loading] false, and so do the handlers of
    EmergencyCorridor that start with a test (an address, a request id)
    whenever the test lets them send their request. *)
Theorem handlers_settle :
  settles (Login.go NumberToString net) always always
  /\ settles (Dashboard.load trim StringToNumber NumberToString net) always
       (fun st => Dashboard.loading st = false)
  /\ settles (Dashboard.loadPredictive trim NumberToString net) always
       (fun st => Dashboard.loading st = false)
  /\ (forall cityArg segmentsArg timeStepsArg,
        settles (MapView.loadMapData trim StringToNumber NumberToString net
                   cityArg segmentsArg timeStepsArg) always
          (fun st => MapView.loading st = false))
  /\ settles (MapView.handleSearch trim StringToNumber NumberToString net) always
       (fun st => MapView.loading st = false)
  /\ (forall id, settles (MapView.handleCopy NumberToString id) always always)
  /\ (forall fromButton,
        settles (AirQuality.load trim net fromButton) always
          (fun st => AirQuality.loading st = false))
  /\ settles (CorridorPage.createRequest StringToNumber NumberToString net)
       always (fun st => CorridorPage.loading st = false)
  /\ settles (CorridorPage.geocodeOrigin trim net) always always
  /\ settles (CorridorPage.geocodeOrigin trim net)
       (fun st => trim (CorridorPage.originAddress st) <> "")
       (fun st => CorridorPage.loading st = false)
  /\ settles (CorridorPage.geocodeDestination trim net) always always
  /\ settles (CorridorPage.geocodeDestination trim net)
       (fun st => trim (CorridorPage.destinationAddress st) <> "")
       (fun st => CorridorPage.loading st = false)
  /\ (forall random1 random2 now,
        settles (CorridorPage.updatePosition StringToNumber NumberToString net
                   random1 random2 now) always always
        /\ settles (CorridorPage.updatePosition StringToNumber NumberToString
                      net random1 random2 now)
             (fun st => truthy (CorridorPage.requestId st) = true)
             (fun st => CorridorPage.loading st = false))
  /\ settles (CorridorPage.checkStatus NumberToString net) always always
  /\ settles (CorridorPage.checkStatus NumberToString net)
       (fun st => truthy (CorridorPage.requestId st) = true)
       (fun st => CorridorPage.loading st = false).
Proof.
  unfold settles. repeat match goal with |- _ /\ _ => split end.
  - settle Login.go.
  - settle Dashboard.load. unfold Dashboard.load_try. ends_normally.
  - settle Dashboard.loadPredictive.
  - intros cityArg segmentsArg timeStepsArg. settle MapView.loadMapData.
  - settle MapView.handleSearch. unfold MapView.loadMapData. ends_normally.
  - intros id. settle MapView.handleCopy.
  - intros fromButton. settle AirQuality.load.
  - settle CorridorPage.createRequest.
  - intros s _. unfold CorridorPage.geocodeOrigin. apply ends_bind_state; cbv beta.
    destruct (String.eqb _ ""); [| eapply ends_always]; ends_normally.
  - intros s Hpre. unfold CorridorPage.geocodeOrigin. apply ends_bind_state; cbv beta.
    apply String.eqb_neq in Hpre. rewrite Hpre. ends_normally.
  - intros s _. unfold CorridorPage.geocodeDestination. apply ends_bind_state; cbv beta.
    destruct (String.eqb _ ""); [| eapply ends_always]; ends_normally.
  - intros s Hpre. unfold CorridorPage.geocodeDestination.
    apply ends_bind_state; cbv beta.
    apply String.eqb_neq in Hpre. rewrite Hpre. ends_normally.
  - intros random1 random2 now. split.
    + intros s _. unfold CorridorPage.updatePosition. apply ends_bind_state; cbv beta.
      destruct (negb _); [| eapply ends_always]; ends_normally.
    + intros s Hpre. unfold CorridorPage.updatePosition.
      apply ends_bind_state; cbv beta. rewrite Hpre. cbn [negb]. ends_normally.
  - intros s _. unfold CorridorPage.checkStatus. apply ends_bind_state; cbv beta.
    destruct (negb _); [| eapply ends_always]; ends_normally.
  - intros s Hpre. unfold CorridorPage.checkStatus. apply ends_bind_state; cbv beta.
    rewrite Hpre. cbn [negb]. ends_normally.
Qed.

End Settled.

(** With no network, [load] of Dashboard ends normally and not loading. *)
Lemma handlers_settle_witness :
  exists s',
    Dashboard.load utf8_trim decimal_StringToNumber decimal_NumberToString offline
      (empty_browser, dashboard_state "Pune" 7 12) = (Resolved tt, s')
    /\ Dashboard.loading (snd s') = false.
Proof.
  destruct (proj1 (proj2 (handlers_settle utf8_trim decimal_StringToNumber
                            decimal_NumberToString offline))
              (empty_browser, dashboard_state "Pune" 7 12) I)
    as ([] & s' & Hrun & Hloading).
  exists s'. split; [exact Hrun | exact Hloading].
Defined.

(** * The login and the token of the requests *)

Section Token.

Import Api.

Variable NumberToString : float -> string.
Variable net : network.

Lemma assoc_put_eq (k : string) (v : value) (fields : list (string * value)) :
  assoc k (put k v fields) = v.
Proof.
  induction fields as [| [k' v'] fields IH]; cbn [put assoc].
  - rewrite String.eqb_refl. reflexivity.
  - destruct (String.eqb k k') eqn:E; cbn [assoc].
    + rewrite String.eqb_refl. reflexivity.
    + rewrite E. exact IH.
Qed.

Lemma assoc_put_ne (k k' : string) (v : value) (fields : list (string * value)) :
  k' <> k -> assoc k' (put k v fields) = assoc k' fields.
Proof.
  intros Hne. apply String.eqb_neq in Hne.
  induction fields as [| [k0 v0] fields IH]; cbn [put assoc].
  - rewrite Hne. reflexivity.
  - destruct (String.eqb k k0) eqn:E; cbn [assoc].
    + apply String.eqb_eq in E. subst k0. rewrite Hne. reflexivity.
    + rewrite IH. reflexivity.
Qed.

(** On the configuration of a request (an object whose [headers] are an
    object or missing) the interceptor sets the header "x-api-key"; it sets
    "Authorization" to "Bearer " and the stored token when a token that is
    not empty is stored under "md_jwt", and leaves that header as it is
    otherwise; every other header and every other field of the
    configuration stays as it was. *)
Theorem request_interceptor_headers (VITE_API_KEY : value) (b : browser)
    (fields headers : list (string * value)) :
  get (VObj fields) "headers" |.| VObj [] = VObj headers ->
  exists headers',
    request_interceptor VITE_API_KEY b (VObj fields)
      = Passed (VObj (put "headers" (VObj headers') fields))
    /\ assoc "x-api-key" headers' = API_KEY VITE_API_KEY
    /\ assoc "Authorization" headers'
       = match localStorage b !! "md_jwt" with
         | Some token =>
             if String.eqb token "" then assoc "Authorization" headers
             else VStr ("Bearer " ++ token)
         | None => assoc "Authorization" headers
         end
    /\ (forall k, k <> "x-api-key" -> k <> "Authorization" ->
                  assoc k headers' = assoc k headers)
    /\ (forall k, k <> "headers" ->
                  get (VObj (put "headers" (VObj headers') fields)) k
                    = get (VObj fields) k).
Proof.
  intros Hheaders. unfold request_interceptor. cbn [truthy negb].
  rewrite Hheaders. eexists. split; [reflexivity |].
  assert (Hfields : forall h k, k <> "headers" ->
            get (VObj (put "headers" (VObj h) fields)) k = get (VObj fields) k).
  { intros h k Hk. cbn [get]. apply assoc_put_ne. exact Hk. }
  destruct (localStorage b !! "md_jwt") as [token |];
    [destruct (String.eqb token "") |].
  - split; [apply assoc_put_eq |].
    split; [apply assoc_put_ne; discriminate |].
    split; [intros k Hk _; apply assoc_put_ne; exact Hk | apply Hfields].
  - split; [rewrite assoc_put_ne by discriminate; apply assoc_put_eq |].
    split; [apply assoc_put_eq |].
    split; [| apply Hfields].
    intros k Hk Ha. rewrite !assoc_put_ne by assumption. reflexivity.
  - split; [apply assoc_put_eq |].
    split; [apply assoc_put_ne; discriminate |].
    split; [intros k Hk _; apply assoc_put_ne; exact Hk | apply Hfields].
Qed.

(** With a token stored, the request carries it. *)
Lemma request_interceptor_token (VITE_API_KEY : value) (b : browser)
    (fields headers : list (string * value)) (token : string) :
  get (VObj fields) "headers" |.| VObj [] = VObj headers ->
  localStorage b !! "md_jwt" = Some token ->
  token <> "" ->
  exists config,
    request_interceptor VITE_API_KEY b (VObj fields) = Passed config
    /\ get (get config "headers") "Authorization" = VStr ("Bearer " ++ token).
Proof.
  intros Hheaders Hstored Htoken. apply String.eqb_neq in Htoken.
  unfold request_interceptor. cbn [truthy negb].
  rewrite Hheaders, Hstored, Htoken.
  eexists. split; [reflexivity |].
  cbn [get]. rewrite assoc_put_eq. cbn [get]. apply assoc_put_eq.
Qed.

(** [go] of Login ends in one of two ways. When the login request succeeds
    with a response that has [data], the [access_token] of the data,
    converted to a string, is stored under "md_jwt" and the page leaves for
    "/dashboard", with no error text. In every other case (the request
    fails, or the response has no [data]) the browser is left as it was,
    storage and location included, and the error text is shown. *)
Theorem login_outcomes (b : browser) (st : Login.state) :
  let final := snd (Login.go NumberToString net (b, st)) in
  (forall r,
     loginUser net (Login.u st) (Login.p st) = Resolved r ->
     is_nullish r = false -> is_nullish (get r "data") = false ->
     fst final =
       mkBrowser
         (<["md_jwt" := ToString NumberToString
                          (get (get r "data") "access_token")]>
            (localStorage b))
         (alerts b) (console b) (Some "/dashboard")
     /\ snd final = st)
  /\ ((forall r,
         loginUser net (Login.u st) (Login.p st) = Resolved r ->
         is_nullish r = true \/ is_nullish (get r "data") = true) ->
      fst final = b
      /\ snd final
         = Login.mkState (Login.u st) (Login.p st)
             "Wrong username or password").
Proof.
  intros final. subst final. split.
  - intros r Hr Hnull Hdata. run. rewrite Hr, Hnull. cbv beta iota.
    rewrite Hdata. split; reflexivity.
  - intros Hother.
    destruct (loginUser net (Login.u st) (Login.p st)) as [r | e] eqn:Hr;
      run; rewrite Hr; [| split; reflexivity].
    destruct (is_nullish r) eqn:Hnull; [split; reflexivity |].
    cbv beta iota.
    destruct (Hother r eq_refl) as [H | H]; [congruence |].
    rewrite H. split; reflexivity.
Qed.

(** After a successful login every request of api.js carries the token: the
    interceptor, run in the browser that [go] leaves, sets the header
    "Authorization" to "Bearer " and the [access_token] of the login
    response as a string (so to "Bearer undefined" when the response has no
    token), provided that string is not empty. *)
Theorem login_token_round_trip (b : browser) (st : Login.state) (r : value)
    (VITE_API_KEY : value) (fields headers : list (string * value)) :
  loginUser net (Login.u st) (Login.p st) = Resolved r ->
  is_nullish r = false -> is_nullish (get r "data") = false ->
  ToString NumberToString (get (get r "data") "access_token") <> "" ->
  get (VObj fields) "headers" |.| VObj [] = VObj headers ->
  exists config,
    request_interceptor VITE_API_KEY
      (fst (snd (Login.go NumberToString net (b, st)))) (VObj fields)
      = Passed config
    /\ get (get config "headers") "Authorization"
       = VStr ("Bearer "
               ++ ToString NumberToString (get (get r "data") "access_token")).
Proof.
  intros Hr Hnull Hdata Htoken Hheaders.
  apply (request_interceptor_token _ _ _ headers); [exact Hheaders | | exact Htoken].
  run. rewrite Hr, Hnull. cbv beta iota. rewrite Hdata. cbv beta iota.
  cbn [fst snd localStorage]. apply lookup_insert_eq.
Qed.

End Token.

(** A request for the roads, with a token stored. *)
Lemma request_interceptor_headers_witness :
  exists config,
    Api.request_interceptor VUndef
      (mkBrowser (<["md_jwt" := "token"]> ∅) [] [] None)
      (VObj Api.roads_request) = Api.Passed config
    /\ get (get config "headers") "Authorization" = VStr "Bearer token"
    /\ get (get config "headers") "Content-Type" = VStr "application/json"
    /\ get config "url" = VStr "/api/roads".
Proof.
  destruct (request_interceptor_headers VUndef
              (mkBrowser (<["md_jwt" := "token"]> ∅) [] [] None)
              Api.roads_request [("Content-Type", VStr "application/json")]
              eq_refl)
    as (headers' & Hrun & _ & Hauth & Hother & Hfields).
  eexists. split; [exact Hrun |].
  split; [| split].
  - cbn [get]. rewrite assoc_put_eq. exact Hauth.
  - cbn [get]. rewrite assoc_put_eq. cbn [get].
    rewrite Hother by discriminate. reflexivity.
  - rewrite Hfields by discriminate. reflexivity.
Defined.

(** A login that succeeds, and a login with no network. *)
Lemma login_outcomes_witness :
  localStorage
    (fst (snd (Login.go decimal_NumberToString login_ok
                 (empty_browser, login_state)))) !! "md_jwt" = Some "token"
  /\ Login.err
       (snd (snd (Login.go decimal_NumberToString offline
                    (empty_browser, login_state))))
     = "Wrong username or password".
Proof.
  split.
  - rewrite (proj1 (proj1 (login_outcomes decimal_NumberToString login_ok
                             empty_browser login_state)
                      (VObj [("data", VObj [("access_token", VStr "token")])])
                      eq_refl eq_refl eq_refl)).
    reflexivity.
  - rewrite (proj2 (proj2 (login_outcomes decimal_NumberToString offline
                             empty_browser login_state)
                      ltac:(intros r H; discriminate H))).
    reflexivity.
Defined.

(** The login of the sample network, and a request for the roads after
    it. *)
Lemma login_token_round_trip_witness :
  exists config,
    Api.request_interceptor VUndef
      (fst (snd (Login.go decimal_NumberToString login_ok
                   (empty_browser, login_state))))
      (VObj Api.roads_request) = Api.Passed config
    /\ get (get config "headers") "Authorization" = VStr "Bearer token".
Proof.
  apply (login_token_round_trip decimal_NumberToString login_ok
           empty_browser login_state
           (VObj [("data", VObj [("access_token", VStr "token")])])
           VUndef Api.roads_request
           [("Content-Type", VStr "application/json")]);
    try reflexivity.
  discriminate.
Defined.

(** * The state that the pages start from and end in *)

Section Mounting.

Variable StringToNumber : string -> float.

(** Whatever the browser storage holds, a page starts with usable
    preferences: the city is never the empty string and the two numbers are
    never [NaN] (a stored text that is no number gives the default 5 or
    10); and Dashboard and MapView start with the same three values. *)
Theorem mount_preferences (b : browser) :
  let d := Dashboard.mount StringToNumber b in
  let m := MapView.mount StringToNumber b in
  Dashboard.city d <> ""
  /\ PrimFloat.is_nan (Dashboard.segmentsNum d) = false
  /\ PrimFloat.is_nan (Dashboard.timeSteps d) = false
  /\ MapView.city m = Dashboard.city d
  /\ MapView.segmentsNum m = Dashboard.segmentsNum d
  /\ MapView.timeSteps m = Dashboard.timeSteps d.
Proof.
  intros d m. subst d m.
  unfold Dashboard.mount, MapView.mount, Dashboard.init_segmentsNum,
    Dashboard.init_timeSteps.
  cbn [Dashboard.city Dashboard.segmentsNum Dashboard.timeSteps
       MapView.city MapView.segmentsNum MapView.timeSteps].
  assert (Hnumber : forall key default,
    PrimFloat.is_nan default = false ->
    PrimFloat.is_nan (Dashboard.init_number StringToNumber key default b)
      = false).
  { intros key default Hdefault. unfold Dashboard.init_number.
    destruct (localStorage b !! key) as [v |]; [| exact Hdefault].
    destruct (PrimFloat.is_nan (StringToNumber v)) eqn:E; cbn [negb];
      [exact Hdefault | exact E]. }
  split.
  { unfold Dashboard.init_city.
    destruct (localStorage b !! "trafficCity") as [v |]; [| discriminate].
    destruct (String.eqb_spec v ""); [discriminate | assumption]. }
  split; [apply Hnumber; reflexivity |].
  split; [apply Hnumber; reflexivity |].
  repeat split; reflexivity.
Qed.

End Mounting.

Section AfterRequests.

Import RoutePath.

Variable trim : string -> string.
Variable StringToNumber : string -> float.
Variable NumberToString : float -> string.
Variable net : network.

Abbreviation Number := (ToNumber StringToNumber NumberToString).

(** [fetchCO2ForCity] never throws and changes nothing but the console. It
    returns the carbon monoxide reading [co] that the responses of
    OpenWeather hold for the city, together with [co * 44 / 28], and logs
    nothing then; it returns [null] when the responses hold no reading. *)
Theorem fetchCO2ForCity_result {C : Type} (cityName : string)
    (s : browser * C) :
  exists log,
    fetchCO2ForCity StringToNumber NumberToString net cityName s =
      (Resolved
         match CarbonMonoxide.reading net cityName with
         | Some co =>
             VObj [("co", co);
                   ("co2FromCo", VNum (Number co * (44 / 28))%float)]
         | None => VNull
         end,
       (mkBrowser (localStorage (fst s)) (alerts (fst s)) log (location (fst s)),
        snd s))
    /\ (is_Some (CarbonMonoxide.reading net cityName) -> log = console (fst s)).
Proof.
  destruct s as [[ls al co lo] c].
  unfold fetchCO2ForCity, fetchCO2_body, CarbonMonoxide.reading.
  cbv beta iota zeta delta
    [bind ret throw await try_catch set_browser console_error prop
     fst snd localStorage alerts console location].
  destruct (fetch net (OpenWeatherGeo cityName)) as [geoRes | e];
    [| eexists; split; [reflexivity | intros [? ?]; discriminate]].
  destruct (json geoRes) as [geoData | e];
    [| eexists; split; [reflexivity | intros [? ?]; discriminate]].
  destruct geoData as [| | ? | ? | ? | [| place places] | ?];
    try (eexists; split; [reflexivity | intros [? ?]; discriminate]).
  cbn [isArray negb orb arr_length length Nat.eqb get_index nth].
  destruct (is_nullish place);
    [eexists; split; [reflexivity | intros [? ?]; discriminate] |].
  destruct (fetch net (OpenWeatherAir (get place "lat") (get place "lon")))
    as [airRes | e];
    [| eexists; split; [reflexivity | intros [? ?]; discriminate]].
  destruct (json airRes) as [airData | e];
    [| eexists; split; [reflexivity | intros [? ?]; discriminate]].
  cbv zeta.
  destruct (is_nullish _);
    eexists; (split; [reflexivity |]);
    [intros [? ?]; discriminate | reflexivity].
Qed.

(** A response to [createRequest] that carries no [request_id] is dropped
    without a word: the state of the page is what it was, with [loading]
    false, and the browser is untouched (no alert, no toast, nothing in the
    console). *)
Theorem createRequest_without_id (b : browser) (st : CorridorPage.state)
    (response : response) (res : value) :
  fetch net (CorridorRequest
               (CorridorPage.request_body StringToNumber NumberToString st))
    = Resolved response ->
  ok response = true -> json response = Resolved res ->
  is_nullish res = false -> truthy (get res "request_id") = false ->
  CorridorPage.createRequest StringToNumber NumberToString net (b, st)
    = (Resolved tt,
       (b, CorridorPage.mkState
             (CorridorPage.vehicleId st) (CorridorPage.origin st)
             (CorridorPage.destination st) (CorridorPage.originAddress st)
             (CorridorPage.destinationAddress st) (CorridorPage.requestId st)
             (CorridorPage.status st) (CorridorPage.alternatives st)
             (CorridorPage.route st) (CorridorPage.ambulancePos st) false
             (CorridorPage.toast st))).
Proof.
  intros Hfetch Hok Hjson Hnull Hid.
  unfold CorridorPage.createRequest, CorridorPage.call. run.
  rewrite Hfetch, Hok. cbn [negb]. rewrite Hjson, Hnull. cbv beta iota.
  rewrite Hid. destruct b. reflexivity.
Qed.

(** After a geocoding that succeeds, the ambulance stands where the address
    is: [geocodeDestination] moves to the destination not only the
    destination but also the ambulance, and with it the centre of the map;
    the origin stays. *)
Theorem geocodeDestination_moves_ambulance (b : browser)
    (st : CorridorPage.state) (response : response) (geo : value) :
  trim (CorridorPage.destinationAddress st) <> "" ->
  fetch net (CorridorGeocode (trim (CorridorPage.destinationAddress st)))
    = Resolved response ->
  ok response = true -> json response = Resolved geo ->
  is_nullish geo = false ->
  let final := snd (snd (CorridorPage.geocodeDestination trim net (b, st))) in
  let place := VObj [("lat", get geo "lat"); ("lon", get geo "lon")] in
  CorridorPage.destination final = place
  /\ CorridorPage.ambulancePos final = place
  /\ CorridorPage.origin final = CorridorPage.origin st
  /\ mapCenter StringToNumber NumberToString final
     = VArr [get geo "lat"; get geo "lon"].
Proof.
  intros Haddr Hfetch Hok Hjson Hnull final place. subst final place.
  apply String.eqb_neq in Haddr.
  unfold mapCenter, CorridorPage.geocodeDestination, CorridorPage.call,
    CorridorPage.lat_lon.
  run. rewrite Haddr, Hfetch, Hok. cbn [negb]. rewrite Hjson, Hnull.
  cbv beta iota. repeat split; reflexivity.
Qed.

(** [updatePosition] reports a position near the origin, not near the
    position reported before: when its request succeeds, the state it ends
    in is the same whatever [ambulancePos] was. *)
Theorem updatePosition_forgets_position (b : browser)
    (st : CorridorPage.state) (pos : value) (random1 random2 now : float)
    (response : response) (res : value) :
  truthy (CorridorPage.requestId st) = true ->
  fetch net (CorridorUpdatePosition
               (CorridorPage.position_body StringToNumber NumberToString st
                  random1 random2 now))
    = Resolved response ->
  ok response = true -> json response = Resolved res ->
  let moved :=
    CorridorPage.mkState
      (CorridorPage.vehicleId st) (CorridorPage.origin st)
      (CorridorPage.destination st) (CorridorPage.originAddress st)
      (CorridorPage.destinationAddress st) (CorridorPage.requestId st)
      (CorridorPage.status st) (CorridorPage.alternatives st)
      (CorridorPage.route st) pos (CorridorPage.loading st)
      (CorridorPage.toast st) in
  CorridorPage.updatePosition StringToNumber NumberToString net
    random1 random2 now (b, moved)
  = CorridorPage.updatePosition StringToNumber NumberToString net
      random1 random2 now (b, st)
  /\ CorridorPage.ambulancePos
       (snd (snd (CorridorPage.updatePosition StringToNumber NumberToString
                    net random1 random2 now (b, st))))
     = VObj [("lat", VNum (Number (get (CorridorPage.origin st) "lat")
                           + (random1 - 0.5) * 0.01)%float);
             ("lon", VNum (Number (get (CorridorPage.origin st) "lon")
                           + (random2 - 0.5) * 0.01)%float)].
Proof.
  intros Hid Hfetch Hok Hjson moved. subst moved.
  unfold CorridorPage.updatePosition, CorridorPage.call,
    CorridorPage.position_body, CorridorPage.newLat, CorridorPage.newLon,
    CorridorPage.lat_lon in *.
  run. rewrite Hid. cbn [negb]. cbv beta iota.
  rewrite Hfetch, Hok. cbn [negb]. rewrite Hjson.
  split; reflexivity.
Qed.

End AfterRequests.

(** On a network with a reading of 280. *)
Lemma fetchCO2ForCity_result_witness :
  fetchCO2ForCity (C := Dashboard.state) decimal_StringToNumber
    decimal_NumberToString CarbonMonoxide.monitored "Kolkata"
    (empty_browser, dashboard_state "Kolkata" 5 10)
  = (Resolved (VObj [("co", VNum 280);
                     ("co2FromCo", VNum (280 * (44 / 28))%float)]),
     (empty_browser, dashboard_state "Kolkata" 5 10)).
Proof.
  destruct (fetchCO2ForCity_result decimal_StringToNumber
              decimal_NumberToString CarbonMonoxide.monitored "Kolkata"
              (empty_browser, dashboard_state "Kolkata" 5 10))
    as (log & Hrun & Hlog).
  rewrite Hrun. rewrite (Hlog (ex_intro _ _ eq_refl)). reflexivity.
Defined.

(** On a service that answers without a [request_id]. *)
Lemma createRequest_without_id_witness :
  CorridorPage.createRequest decimal_StringToNumber decimal_NumberToString
    (Samples.answering (VObj [("detail", VStr "queued")]))
    (empty_browser, Settling.corridor_state)
  = (Resolved tt, (empty_browser, Settling.corridor_state)).
Proof.
  exact (createRequest_without_id
           decimal_StringToNumber decimal_NumberToString
           (Samples.answering (VObj [("detail", VStr "queued")]))
           empty_browser Settling.corridor_state
           (mkResponse true (Resolved (VObj [("detail", VStr "queued")]))
                       (Resolved ""))
           (VObj [("detail", VStr "queued")])
           eq_refl eq_refl eq_refl eq_refl eq_refl).
Defined.

(** On a geocoder that places every address at (18.5, 72.75). *)
Lemma geocodeDestination_moves_ambulance_witness :
  let net := Samples.answering (VObj [("lat", VNum 18.5); ("lon", VNum 72.75)]) in
  let final :=
    snd (snd (CorridorPage.geocodeDestination utf8_trim net
                (empty_browser, Settling.corridor_state))) in
  CorridorPage.ambulancePos Settling.corridor_state = VNull
  /\ CorridorPage.ambulancePos final
     = VObj [("lat", VNum 18.5); ("lon", VNum 72.75)]
  /\ RoutePath.mapCenter decimal_StringToNumber decimal_NumberToString final
     = VArr [VNum 18.5; VNum 72.75].
Proof.
  intros net final.
  assert (Haddr : utf8_trim
                    (CorridorPage.destinationAddress Settling.corridor_state)
                  <> "").
  { vm_compute. discriminate. }
  destruct (geocodeDestination_moves_ambulance
              utf8_trim decimal_StringToNumber decimal_NumberToString net
              empty_browser Settling.corridor_state
              (mkResponse true
                 (Resolved (VObj [("lat", VNum 18.5); ("lon", VNum 72.75)]))
                 (Resolved ""))
              (VObj [("lat", VNum 18.5); ("lon", VNum 72.75)])
              Haddr eq_refl eq_refl eq_refl eq_refl)
    as (_ & Hpos & _ & Hcenter).
  split; [reflexivity |]. split; [exact Hpos | exact Hcenter].
Defined.

(** With the ambulance at the destination or nowhere, the report is the
    same. *)
Lemma updatePosition_forgets_position_witness :
  let net := Samples.answering (VObj []) in
  CorridorPage.updatePosition decimal_StringToNumber decimal_NumberToString
    net 0.5 0.25 0 (empty_browser, Samples.requested_state)
  = CorridorPage.updatePosition decimal_StringToNumber decimal_NumberToString
      net 0.5 0.25 0
      (empty_browser,
       CorridorPage.mkState "AMB101" Drawing.andheri Drawing.fort
         "Andheri, Mumbai" "Fort, Mumbai" (VStr "r1") VNull (VArr []) VNull
         VNull false None).
Proof.
  intros net. symmetry.
  exact (proj1 (updatePosition_forgets_position
                  decimal_StringToNumber decimal_NumberToString net
                  empty_browser Samples.requested_state VNull 0.5 0.25 0
                  (mkResponse true (Resolved (VObj [])) (Resolved ""))
                  (VObj []) eq_refl eq_refl eq_refl eq_refl)).
Defined.

(** * What the pages show *)

Section Shown.

Import CorridorPanel DashboardCards AirQualityLevel.

Variable StringToNumber : string -> float.
Variable NumberToString : float -> string.

Abbreviation Number := (ToNumber StringToNumber NumberToString).
Abbreviation getTrafficColor' :=
  (getTrafficColor StringToNumber NumberToString).
Abbreviation status_color :=
  (status_traffic_color StringToNumber NumberToString).

Lemma status_color_percent (p : Z) :
  (0 <= p <= 100)%Z ->
  status_color (VNum (of_Z p)) =
    if (p <=? 30)%Z then "#059669"
    else if (p <=? 50)%Z then yellow else red.
Proof.
  intros Hp.
  assert (Hall :
    forallb (fun n =>
      String.eqb (status_color (VNum (of_Z (Z.of_nat n))))
                 (if (Z.of_nat n <=? 30)%Z then "#059669"
                  else if (Z.of_nat n <=? 50)%Z then yellow else red))
      (seq 0 101) = true) by (vm_compute; reflexivity).
  rewrite forallb_forall in Hall.
  specialize (Hall (Z.to_nat p)).
  rewrite Z2Nat.id in Hall by lia.
  apply String.eqb_eq, Hall, in_seq. lia.
Qed.

(** The traffic figure of the status panel is coloured by other thresholds
    than the polylines of the map and its legend: on a whole percentage
    from 0 to 100 the panel shows red from 51 and yellow from 31 to 50,
    where the map shows red from 67 and yellow from 34 to 66; and the two
    colours are the same exactly from 34 to 50 and from 67 (the greens
    differ). *)
Theorem status_colour_thresholds (p : Z) :
  (0 <= p <= 100)%Z ->
  (status_color (VNum (of_Z p)) = red <-> (51 <= p)%Z)
  /\ (status_color (VNum (of_Z p)) = yellow <-> (31 <= p <= 50)%Z)
  /\ (status_color (VNum (of_Z p)) = getTrafficColor' (VNum (of_Z p))
      <-> (34 <= p <= 50)%Z \/ (67 <= p)%Z).
Proof.
  intros Hp.
  rewrite status_color_percent by exact Hp.
  rewrite (getTrafficColor_percent StringToNumber NumberToString p Hp).
  destruct (Z.leb_spec p 30); destruct (Z.leb_spec p 50);
    destruct (Z.leb_spec p 33); destruct (Z.leb_spec p 66);
    try lia; repeat split; intros; try lia; try discriminate; try reflexivity;
    try (exfalso; lia).
Qed.

Lemma toFixed1_nan : JS.toFixed1 NumberToString nan = "NaN".
Proof. reflexivity. Qed.

(** The ETA that the page shows beside a route. In the list of
    alternatives it is the one [etaMinutesFromRoute] computes, unless the
    [duration_s] of the route is truthy and no number. In the status panel
    it is not: there the estimate from the distance is never shown; a route
    without [duration_s] is shown with the ETA "NaN", and only the absence
    of a route gives the dash. *)
Theorem eta_displays (route : value) :
  ((truthy (opt_get route "duration_s") = true ->
    isNaN StringToNumber NumberToString (get route "duration_s") = false) ->
   alternative_eta StringToNumber NumberToString route
     = etaMinutesFromRoute StringToNumber NumberToString route)
  /\ (truthy route = true -> get route "duration_s" = VUndef ->
      status_eta StringToNumber NumberToString route = "NaN")
  /\ (truthy route = false ->
      status_eta StringToNumber NumberToString route = dash).
Proof.
  split; [| split].
  - intros Hnum. unfold alternative_eta, etaMinutesFromRoute.
    destruct (truthy (opt_get route "duration_s")) eqn:Hdur; [| reflexivity].
    specialize (Hnum eq_refl).
    assert (Hroute : truthy route = true)
      by (destruct route; try discriminate; reflexivity).
    assert (Hget : opt_get route "duration_s" = get route "duration_s")
      by (destruct route; try discriminate; reflexivity).
    rewrite Hget in Hdur. rewrite Hroute, Hdur, Hnum. reflexivity.
  - intros Hroute Hdur. unfold status_eta. rewrite Hroute, Hdur. reflexivity.
  - intros Hroute. unfold status_eta, etaMinutesFromRoute. rewrite Hroute.
    reflexivity.
Qed.

Lemma aqiLevel_index (n : Z) :
  (0 <= n <= 500)%Z ->
  fst (aqiLevel StringToNumber NumberToString (VNum (of_Z n))) = us_aqi_band n.
Proof.
  intros Hn.
  assert (Hall :
    forallb (fun k =>
      String.eqb (fst (aqiLevel StringToNumber NumberToString
                         (VNum (of_Z (Z.of_nat k)))))
                 (us_aqi_band (Z.of_nat k)))
      (seq 0 501) = true) by (vm_compute; reflexivity).
  rewrite forallb_forall in Hall.
  specialize (Hall (Z.to_nat n)).
  rewrite Z2Nat.id in Hall by lia.
  apply String.eqb_eq, Hall, in_seq. lia.
Qed.

(** [aqiLevel] gives "Unknown" exactly for an index that is [null] or
    [undefined]; for a whole index from 0 to 500 it gives the band of the
    US AQI scale; and an index that is there but is no number ([NaN] once
    converted) is called "Hazardous". *)
Theorem aqiLevel_bands :
  (forall aqi,
     fst (aqiLevel StringToNumber NumberToString aqi) = "Unknown"
     <-> is_nullish aqi = true)
  /\ (forall n, (0 <= n <= 500)%Z ->
        fst (aqiLevel StringToNumber NumberToString (VNum (of_Z n)))
          = us_aqi_band n)
  /\ (forall aqi,
        is_nullish aqi = false ->
        isNaN StringToNumber NumberToString aqi = true ->
        aqiLevel StringToNumber NumberToString aqi = ("Hazardous", "#7f1d1d")).
Proof.
  split; [| split; [exact aqiLevel_index |]].
  - intros aqi. unfold aqiLevel.
    destruct (is_nullish aqi); [split; reflexivity |].
    repeat match goal with
           | |- context [if ?c then _ else _] => destruct c
           end; split; discriminate.
  - intros aqi Hnull Hnan. unfold aqiLevel, isNaN in *. rewrite Hnull.
    assert (Hle : forall c, (Number aqi <=? c)%float = false).
    { intros c. rewrite FloatAxioms.leb_spec.
      unfold PrimFloat.is_nan in Hnan. apply negb_true_iff in Hnan.
      rewrite FloatAxioms.eqb_spec in Hnan.
      destruct (Prim2SF (Number aqi)) as [s | s | | s m e];
        try reflexivity; cbn in Hnan.
      - discriminate.
      - destruct s; discriminate.
      - unfold SFeqb, SFcompare in Hnan.
        rewrite Z.compare_refl, Pos.compare_cont_refl in Hnan.
        destruct s; discriminate. }
    rewrite !Hle. reflexivity.
Qed.

End Shown.

(** A status and a map at 60 per cent of traffic: red in the panel, yellow
    on the map. *)
Lemma status_colour_thresholds_witness :
  CorridorPanel.status_traffic_color
    decimal_StringToNumber decimal_NumberToString (VNum (of_Z 60)) = red
  /\ getTrafficColor decimal_StringToNumber decimal_NumberToString
       (VNum (of_Z 60)) = yellow.
Proof.
  split.
  - apply (proj1 (status_colour_thresholds
                    decimal_StringToNumber decimal_NumberToString 60
                    ltac:(lia))). lia.
  - reflexivity.
Defined.

(** A route of which only the distance is known: six minutes in the list of
    alternatives, "NaN" in the status panel. *)
Lemma eta_displays_witness :
  CorridorPanel.alternative_eta decimal_StringToNumber decimal_NumberToString
    (VObj [("distance_m", VNum 3000)]) = "6.0"
  /\ CorridorPanel.status_eta decimal_StringToNumber decimal_NumberToString
       (VObj [("distance_m", VNum 3000)]) = "NaN".
Proof.
  destruct (eta_displays decimal_StringToNumber decimal_NumberToString
              (VObj [("distance_m", VNum 3000)])) as (Halt & Hstatus & _).
  split.
  - rewrite Halt; [reflexivity | discriminate].
  - apply Hstatus; reflexivity.
Defined.

(** The index 42, and an index that is a word. *)
Lemma aqiLevel_bands_witness :
  fst (AirQualityLevel.aqiLevel decimal_StringToNumber decimal_NumberToString
         (VNum (of_Z 42%Z))) = "Good"
  /\ AirQualityLevel.aqiLevel decimal_StringToNumber decimal_NumberToString
       (VStr "high") = ("Hazardous", "#7f1d1d").
Proof.
  destruct (aqiLevel_bands decimal_StringToNumber decimal_NumberToString)
    as (_ & Hband & Hnan).
  split.
  - apply (Hband 42%Z). lia.
  - apply Hnan; reflexivity.
Defined.

(** * The severity of a road on the two pages *)

Section Severities.

Import DashboardCards MapRoads.

Variable trim : string -> string.
Variable StringToNumber : string -> float.
Variable NumberToString : float -> string.
Variable net : network.

Abbreviation Number := (ToNumber StringToNumber NumberToString).
Abbreviation road_value' := (road_value StringToNumber NumberToString net).
Abbreviation road_severity' :=
  (road_severity StringToNumber NumberToString net).
Abbreviation severity_value' :=
  (Dashboard.severity_value StringToNumber NumberToString).

(** [computeSeverity] of Dashboard and the expression of MapView read the
    same severity from a response. *)
Lemma computeSeverity_agrees (t : value) :
  is_nullish t = false ->
  Dashboard.computeSeverity StringToNumber NumberToString t
    = opt_get (get t "data") "severity"
        ?? VNum (Math_round
                   ((Number (opt_get (get t "data") "jamFactor" ?? VNum 0)
                     * 10) * 10)%float).
Proof.
  intros Hnull. unfold Dashboard.computeSeverity, opt_get, js_or, coalesce.
  rewrite Hnull.
  destruct (get t "data") as [| | b | x | s | l | f]; cbn [is_nullish truthy];
    try reflexivity.
  - destruct b; reflexivity.
  - destruct (PrimFloat.is_zero x || PrimFloat.is_nan x); reflexivity.
  - destruct (String.eqb s ""); reflexivity.
  - destruct (is_nullish (get (VObj f) "severity")); reflexivity.
Qed.

Lemma road_value_severity (city : string) (road : value) :
  road_value' city road = severity_value' (road_severity' city road).
Proof.
  unfold road_value, road_severity.
  destruct (road_traffic net city road) as [t | e]; [| reflexivity].
  destruct (is_nullish t) eqn:Hnull.
  - destruct t; try discriminate; reflexivity.
  - rewrite computeSeverity_agrees by exact Hnull. reflexivity.
Qed.

Lemma severity_maps_agree (city : string) (list : list value)
    (preds sevMap : gmap string value) :
  (forall key, preds !! key
               = (fun v => VNum (severity_value' v)) <$> sevMap !! key) ->
  forall key,
    foldl (fun m road =>
             <[road_key NumberToString road := VNum (road_value' city road)]> m)
          preds list !! key
    = (fun v => VNum (severity_value' v))
        <$> foldl (fun m road =>
                     <[road_key NumberToString road := road_severity' city road]> m)
                  sevMap list !! key.
Proof.
  revert preds sevMap. induction list as [| road list IH];
    intros preds sevMap Hmaps key; [apply Hmaps |].
  cbn [foldl]. apply IH. intros k.
  destruct (decide (k = road_key NumberToString road)) as [-> | Hne].
  - rewrite !lookup_insert_eq. cbn. rewrite road_value_severity. reflexivity.
  - rewrite !lookup_insert_ne by congruence. apply Hmaps.
Qed.



End Severities.

(** Sample roads have printable names and distinct ids. *)
Lemma sample_roads_printable : Forall printable_name [road_a; road_b].
Proof. repeat constructor. Qed.

Lemma sample_roads_distinct :
  NoDup (map (road_key decimal_NumberToString) [road_a; road_b]).
Proof.
  vm_compute. apply (bool_decide_unpack _). vm_compute. exact I.
Qed.



(** * The line of a road on the map *)

Section RoadLines.

Import MapRoads.

Variable StringToNumber : string -> float.
Variable NumberToString : float -> string.

(** The order of IEEE 754: comparing the other way round gives the
    opposite. *)
Lemma SFcompare_opposite (a b : spec_float) :
  SFcompare b a = option_map CompOpp (SFcompare a b).
Proof.
  destruct a as [sa | sa | | sa ma ea], b as [sb | sb | | sb mb eb];
    cbn [SFcompare option_map CompOpp]; try reflexivity;
    try (destruct sa; reflexivity); try (destruct sb; reflexivity);
    try (destruct sa, sb; reflexivity).
  destruct sa, sb; try reflexivity;
    rewrite (Z.compare_antisym ea eb);
    destruct (ea ?= eb)%Z; cbn [CompOpp]; try reflexivity;
    change (Pos.compare_cont Eq mb ma) with (Pos.compare mb ma);
    change (Pos.compare_cont Eq ma mb) with (Pos.compare ma mb);
    rewrite (Pos.compare_antisym ma mb);
    destruct (ma ?= mb)%positive; reflexivity.
Qed.

Lemma is_nan_SF (x : float) :
  PrimFloat.is_nan x = false -> Prim2SF x <> S754_nan.
Proof.
  unfold PrimFloat.is_nan. intros H. apply negb_false_iff in H.
  rewrite FloatAxioms.eqb_spec in H. intros Hnan. rewrite Hnan in H.
  discriminate.
Qed.

Lemma ltb_leb (a b : float) : (a <? b)%float = true -> (a <=? b)%float = true.
Proof.
  rewrite FloatAxioms.ltb_spec, FloatAxioms.leb_spec. unfold SFltb, SFleb.
  destruct (SFcompare (Prim2SF a) (Prim2SF b)) as [[| |] |];
    try discriminate; reflexivity.
Qed.

(** Of two numbers, none [NaN], the first is at most the second unless the
    second is below it. *)
Lemma not_ltb_leb (a b : float) :
  PrimFloat.is_nan a = false -> PrimFloat.is_nan b = false ->
  (b <? a)%float = false -> (a <=? b)%float = true.
Proof.
  intros Ha Hb. apply is_nan_SF in Ha, Hb.
  rewrite FloatAxioms.ltb_spec, FloatAxioms.leb_spec. unfold SFltb, SFleb.
  rewrite (SFcompare_opposite (Prim2SF a) (Prim2SF b)).
  destruct (Prim2SF a) as [sa | sa | | sa ma ea]; try congruence;
    destruct (Prim2SF b) as [sb | sb | | sb mb eb]; try congruence;
    destruct (SFcompare _ _) as [[| |] |] eqn:E; cbn [option_map CompOpp];
    try discriminate; try reflexivity; cbn in E; discriminate.
Qed.

Lemma leb_refl (a : float) :
  PrimFloat.is_nan a = false -> (a <=? a)%float = true.
Proof.
  intros Ha. apply not_ltb_leb; [exact Ha | exact Ha |].
  rewrite FloatAxioms.ltb_spec. unfold SFltb.
  pose proof (SFcompare_opposite (Prim2SF a) (Prim2SF a)) as H.
  destruct (SFcompare (Prim2SF a) (Prim2SF a)) as [[| |] |];
    cbn in H; try reflexivity; discriminate.
Qed.

(** [Math.min(8, r)] and [Math.max(3, m)] on numbers that are not [NaN]. *)
Lemma Math_min_8 (r : float) :
  PrimFloat.is_nan r = false ->
  PrimFloat.is_nan (Math_min 8 r) = false
  /\ (Math_min 8 r <=? 8)%float = true.
Proof.
  intros Hr. unfold Math_min. rewrite Hr.
  change (PrimFloat.is_nan 8 || false) with false. cbv iota.
  destruct (8 <? r)%float eqn:H8; [split; reflexivity |].
  destruct (r <? 8)%float eqn:Hr8; [split; [exact Hr | apply ltb_leb, Hr8] |].
  change (PrimFloat.get_sign 8) with false. cbv iota.
  split; [exact Hr |]. apply not_ltb_leb; [exact Hr | reflexivity | exact H8].
Qed.

Lemma Math_max_3 (m : float) :
  PrimFloat.is_nan m = false -> (m <=? 8)%float = true ->
  (3 <=? Math_max 3 m)%float = true /\ (Math_max 3 m <=? 8)%float = true.
Proof.
  intros Hm Hle. unfold Math_max. rewrite Hm.
  change (PrimFloat.is_nan 3 || false) with false. cbv iota.
  destruct (3 <? m)%float eqn:H3; [split; [apply ltb_leb, H3 | exact Hle] |].
  destruct (m <? 3)%float eqn:Hm3; [split; reflexivity |].
  change (PrimFloat.get_sign 3) with false. cbv iota. split; reflexivity.
Qed.

(** The weight of the line of a road lies between 3 and 8, whatever
    severity the road has; it is [NaN] only when the severity, divided by
    15 and rounded, is [NaN]. A road for which no severity is recorded, and
    whose id names no property of [Object.prototype], is drawn as a road of
    severity 20: in green, with the weight 3. *)
Theorem road_weight_bounds (sev : value) :
  let weight := road_weight StringToNumber NumberToString sev in
  let rounded :=
    Math_round (ToNumber StringToNumber NumberToString sev / 15)%float in
  (PrimFloat.is_nan rounded = false ->
   (3 <=? weight)%float = true /\ (weight <=? 8)%float = true)
  /\ (PrimFloat.is_nan rounded = true -> PrimFloat.is_nan weight = true)
  /\ (forall severity road,
        severity !! ToString NumberToString (get road "id") = None ->
        PlainObject.inherited (ToString NumberToString (get road "id"))
          = false ->
        line_color StringToNumber NumberToString severity road = "#34d399"
        /\ line_weight StringToNumber NumberToString severity road = 3%float).
Proof.
  intros weight rounded. subst weight. unfold road_weight. fold rounded.
  split; [| split].
  - intros Hr. destruct (Math_min_8 rounded Hr) as [Hnan Hle].
    apply Math_max_3; assumption.
  - intros Hr. unfold Math_min, Math_max. rewrite Hr.
    rewrite orb_true_r. reflexivity.
  - intros severity road Hnone Hown.
    unfold line_color, line_weight, shown_severity, PlainObject.read.
    rewrite Hnone, Hown. split; reflexivity.
Qed.

End RoadLines.

(** A road of severity 200: the line is no thicker than 8. *)
Lemma road_weight_bounds_witness :
  (3 <=? MapRoads.road_weight decimal_StringToNumber decimal_NumberToString
           (VNum 200))%float = true
  /\ (MapRoads.road_weight decimal_StringToNumber decimal_NumberToString
        (VNum 200) <=? 8)%float = true.
Proof.
  apply (proj1 (road_weight_bounds decimal_StringToNumber
                  decimal_NumberToString (VNum 200))).
  reflexivity.
Defined.

(** * The air quality page *)

Section AirQualityPage.

Import AirQualityCharts.

Variable trim : string -> string.
Variable net : network.

Lemma chart_rows_spec (pm25 pm10 ozone uv : value) (times : list value) :
  Forall (fun t => exists s, t = VStr s) times ->
  forall i, exists rows,
    chart_rows pm25 pm10 ozone uv i times = Some rows
    /\ length rows = length times
    /\ forall k s, times !! k = Some (VStr s) ->
         rows !! k
         = Some (VObj [("time", VStr (substring 11 5 s));
                       ("pm25", get_index pm25 (i + k) ?? VNull);
                       ("pm10", get_index pm10 (i + k) ?? VNull);
                       ("ozone", get_index ozone (i + k) ?? VNull);
                       ("uv", get_index uv (i + k) ?? VNull)]).
Proof.
  induction 1 as [| t times [s ->] Htimes IH]; intros i.
  - exists []. split; [reflexivity |]. split; [reflexivity |].
    intros k s Hk. rewrite lookup_nil in Hk. discriminate.
  - destruct (IH (S i)) as (rows & Hrows & Hlen & Hlookup).
    cbn [chart_rows chart_row slice_11_16]. rewrite Hrows.
    eexists. split; [reflexivity |]. split; [cbn [length]; rewrite Hlen; reflexivity |].
    intros k s' Hk. destruct k as [| k].
    + cbn in Hk. inversion Hk; subst s'. rewrite Nat.add_0_r. reflexivity.
    + rewrite lookup_cons in Hk |- *. cbv iota in Hk |- *.
      rewrite (Hlookup k s' Hk). rewrite Nat.add_succ_r. reflexivity.
Qed.

(** On hourly data whose times are strings, [hourlyChartData] does not
    throw and gives one row for each time, in order; the row of a time holds
    the characters 11 to 15 of it (the hour and the minute) and, for each of
    the four series, the value of the series at the index of the row, or
    [null] where the series is missing or too short: never [undefined]. *)
Theorem hourlyChartData_rows (aqData : value) (times : list value) :
  get (opt_get aqData "hourly") "time" = VArr times ->
  Forall (fun t => exists s, t = VStr s) times ->
  exists rows,
    hourlyChartData aqData = Some rows
    /\ length rows = length times
    /\ forall k s row,
         times !! k = Some (VStr s) -> rows !! k = Some row ->
         get row "time" = VStr (substring 11 5 s)
         /\ forall key name,
              In (key, name) series ->
              get row key
                = get_index (get (opt_get aqData "hourly") name |.| VArr []) k
                    ?? VNull
              /\ get row key <> VUndef.
Proof.
  intros Htime Hstrings. unfold hourlyChartData.
  set (hourly := opt_get aqData "hourly") in *.
  assert (Hopt : opt_get hourly "time" = VArr times).
  { unfold opt_get. destruct (is_nullish hourly) eqn:E; [| exact Htime].
    destruct hourly; discriminate. }
  rewrite Hopt, Htime. cbn [truthy negb].
  destruct (chart_rows_spec (get hourly "pm2_5" |.| VArr [])
              (get hourly "pm10" |.| VArr []) (get hourly "ozone" |.| VArr [])
              (get hourly "uv_index" |.| VArr []) times Hstrings 0)
    as (rows & Hrows & Hlen & Hlookup).
  exists rows. split; [exact Hrows |]. split; [exact Hlen |].
  intros k s row Hk Hrow. rewrite (Hlookup k s Hk) in Hrow.
  inversion Hrow; subst row. clear Hrow.
  split; [reflexivity |].
  intros key name Hin. cbn [series In] in Hin.
  assert (Hdefined : forall v, (v ?? VNull) <> VUndef)
    by (intros v; unfold coalesce; destruct v; discriminate).
  destruct Hin as [H | [H | [H | [H | []]]]]; inversion H; subst key name;
    (split; [reflexivity | apply Hdefined]).
Qed.

(** What [load] of AirQuality leaves when a request fails. When the
    geocoding fails, the location and the data stay as they were, beside
    the error text. When the geocoding succeeds and the air-quality request
    then fails, the location is already the new one while the data are
    still the old ones: the page shows the new place with the air of the
    old place, and the error text. *)
Theorem air_quality_failures (fromButton : bool) (b : browser)
    (st : AirQuality.state) :
  fromButton || negb (truthy (AirQuality.aqData st)) = true ->
  let name := AirQuality.query_or_default trim (AirQuality.query st) in
  let final := snd (snd (AirQuality.load trim net fromButton (b, st))) in
  (request_fails net (OpenMeteoGeocode name) ->
   AirQuality.aqData final = AirQuality.aqData st
   /\ AirQuality.location_lat final = AirQuality.location_lat st
   /\ AirQuality.location_lon final = AirQuality.location_lon st
   /\ AirQuality.error final <> "")
  /\ (forall lat lon,
        (forall s, AirQuality.geocodeCity net name s = (Resolved (lat, lon), s)) ->
        request_fails net (OpenMeteoAirQuality lat lon) ->
        AirQuality.aqData final = AirQuality.aqData st
        /\ AirQuality.location_lat final = lat
        /\ AirQuality.location_lon final = lon
        /\ AirQuality.error final <> "").
Proof.
  intros Hneeded name final. subst name final. split.
  - intros Hfails. run. rewrite Hneeded.
    match goal with
    | |- context [AirQuality.geocodeCity net ?n ?s] =>
        destruct (geocodeCity_fails net n s Hfails) as [e ->]
    end.
    cbn [fst snd]. repeat split; try reflexivity.
    apply message_or_default_shown.
  - intros lat lon Hgeo Hfails.
    run. rewrite Hneeded. rewrite Hgeo. cbn [fst snd].
    match goal with
    | |- context [AirQuality.fetchAirQuality net ?x ?y ?s] =>
        destruct (fetchAirQuality_fails net x y s Hfails) as [e ->]
    end.
    cbn [fst snd]. repeat split; try reflexivity.
    apply message_or_default_shown.
Qed.

End AirQualityPage.

(** Three hours with two values of PM2.5: the third row holds [null]. *)
Lemma hourlyChartData_rows_witness :
  exists rows third,
    AirQualityCharts.hourlyChartData AirQualityCharts.three_hours = Some rows
    /\ length rows = 3
    /\ rows !! 2 = Some third
    /\ get third "time" = VStr "02:00"
    /\ get third "pm25" = VNull.
Proof.
  destruct (hourlyChartData_rows AirQualityCharts.three_hours
              [VStr "2025-01-01T00:00"; VStr "2025-01-01T01:00";
               VStr "2025-01-01T02:00"] eq_refl)
    as (rows & Hrows & Hlen & Hrow).
  - repeat constructor; eauto.
  - destruct rows as [| first [| second [| third rest]]]; try discriminate Hlen.
    exists (first :: second :: third :: rest), third.
    split; [exact Hrows |]. split; [exact Hlen |]. split; [reflexivity |].
    destruct (Hrow 2 "2025-01-01T02:00" third eq_refl eq_refl)
      as [Htime Hseries].
    split; [exact Htime |].
    exact (proj1 (Hseries "pm25" "pm2_5" (or_introl eq_refl))).
Defined.

(** A search for Pune when the geocoding answers and the air-quality
    service does not: the location moves, the data stay. *)
Lemma air_quality_failures_witness :
  let final :=
    snd (snd (AirQuality.load utf8_trim Samples.geocoding_only true
                (empty_browser, AirSamples.air_state))) in
  AirQuality.aqData final = AirQualityCharts.three_hours
  /\ AirQuality.location_lat final = VNum 18.5
  /\ AirQuality.location_lon final = VNum 73.875
  /\ AirQuality.error final <> "".
Proof.
  refine (proj2 (air_quality_failures utf8_trim Samples.geocoding_only true
                   empty_browser AirSamples.air_state eq_refl)
            (VNum 18.5) (VNum 73.875) _ _).
  - intros s. reflexivity.
  - exact I.
Defined.

(** * The predictive mode of Dashboard *)

Section Predictive.

Import PredictiveSummary.

Variable trim : string -> string.
Variable StringToNumber : string -> float.
Variable NumberToString : float -> string.
Variable net : network.

Lemma prediction_data city timeSteps road d :
  prediction net city timeSteps road = Some d -> is_nullish d = false.
Proof.
  unfold prediction. intros H.
  destruct (predictToday net (get road "id") 30 timeSteps city) as [res | e];
    [| discriminate].
  destruct (is_nullish res); [discriminate |].
  destruct (is_nullish (get res "data")) eqn:E; [discriminate |].
  cbn [orb] in H. inversion H; subst d. exact E.
Qed.

Lemma predict_road_run city timeSteps road d rows preds
    (s : browser * Dashboard.state) :
  printable_name road ->
  prediction net city timeSteps road = Some d ->
  Dashboard.predict_road NumberToString net city timeSteps road (rows, preds) s
    = (Resolved
         (<[road_key NumberToString road := row_of road d]> rows,
          <[road_key NumberToString road := get d "predicted_today"]> preds),
       s).
Proof.
  unfold printable_name, prediction, row_of. intros Hname Hd.
  unfold Dashboard.predict_road, prettifyRoadName, road_key. rewrite Hname.
  destruct (predictToday net (get road "id") 30 timeSteps city) as [res | e]
    eqn:Hres; [| discriminate].
  destruct (is_nullish res) eqn:Hnull; [discriminate |].
  destruct (is_nullish (get res "data")) eqn:E; [discriminate |].
  cbn [orb] in Hd. inversion Hd; subst d.
  run. rewrite Hnull, E. reflexivity.
Qed.

Lemma predict_loop_run city timeSteps (roads : list value) :
  Forall printable_name roads ->
  Forall (fun road => is_Some (prediction net city timeSteps road)) roads ->
  forall rows preds (s : browser * Dashboard.state),
  exists rows' preds',
    fold_each (Dashboard.predict_road NumberToString net city timeSteps)
      roads (rows, preds) s = (Resolved (rows', preds'), s)
    /\ (forall k, k ∉ map (road_key NumberToString) roads ->
                  rows' !! k = rows !! k)
    /\ (NoDup (map (road_key NumberToString) roads) ->
        forall road d,
          road ∈ roads -> prediction net city timeSteps road = Some d ->
          rows' !! road_key NumberToString road = Some (row_of road d)).
Proof.
  intros Hnames. induction Hnames as [| x roads Hx Hnames IH];
    intros Hpred rows preds s.
  - exists rows, preds. split; [reflexivity |]. split; [reflexivity |].
    intros _ road d Hin. inversion Hin.
  - apply Forall_cons in Hpred. destruct Hpred as [[dx Hdx] Hpred].
    cbn [fold_each]. unfold bind.
    rewrite (predict_road_run _ _ _ dx) by assumption.
    destruct (IH Hpred (<[road_key NumberToString x := row_of x dx]> rows)
                (<[road_key NumberToString x := get dx "predicted_today"]> preds)
                s) as (rows' & preds' & -> & Hkeep & Hrows).
    exists rows', preds'. split; [reflexivity |]. split.
    + intros k Hk. cbn [map] in Hk. apply not_elem_of_cons in Hk.
      destruct Hk as [Hne Hk]. rewrite Hkeep by exact Hk.
      apply lookup_insert_ne. congruence.
    + intros Hnd road d Hin Hd. cbn [map] in Hnd.
      apply NoDup_cons in Hnd. destruct Hnd as [Hfresh Hnd].
      apply elem_of_cons in Hin. destruct Hin as [-> | Hin].
      * rewrite Hkeep by exact Hfresh. rewrite lookup_insert_eq.
        congruence.
      * apply Hrows; assumption.
Qed.


End Predictive.


(** * The messages of the air quality page *)

Section AirQualityMessages.

Variable trim : string -> string.
Variable net : network.

Lemma geocodeCity_not_ok (name : string) (s : browser * AirQuality.state)
    (response : response) :
  fetch net (OpenMeteoGeocode name) = Resolved response ->
  ok response = false ->
  AirQuality.geocodeCity net name s = (Rejected "Failed to geocode city", s).
Proof.
  intros Hfetch Hok. unfold AirQuality.geocodeCity. run.
  rewrite Hfetch, Hok. reflexivity.
Qed.

Lemma geocodeCity_not_found (name : string) (s : browser * AirQuality.state)
    (response : response) (data : value) :
  fetch net (OpenMeteoGeocode name) = Resolved response ->
  ok response = true -> json response = Resolved data ->
  is_nullish data = false ->
  truthy (get data "results") = false
  \/ AirQuality.length_is_zero (get data "results") = true ->
  AirQuality.geocodeCity net name s = (Rejected "Location not found", s).
Proof.
  intros Hfetch Hok Hjson Hnull Hnone.
  assert (Hempty : negb (truthy (get data "results"))
                   || AirQuality.length_is_zero (get data "results") = true).
  { destruct Hnone as [H | H]; rewrite H; [reflexivity | apply orb_true_r]. }
  unfold AirQuality.geocodeCity. run.
  rewrite Hfetch, Hok. cbn [negb]. rewrite Hjson, Hnull. cbv beta iota.
  rewrite Hempty. reflexivity.
Qed.

(** The error text that [load] of AirQuality shows when the geocoder
    answers but finds nothing. An answer that is not [ok] gives "Failed to
    geocode city"; an answer without [results], or with an empty array of
    them, gives "Location not found". In both cases the location and the
    data stay as they were and [loading] ends false. *)
Theorem air_quality_not_found (fromButton : bool) (b : browser)
    (st : AirQuality.state) (response : response) :
  fromButton || negb (truthy (AirQuality.aqData st)) = true ->
  fetch net (OpenMeteoGeocode (AirQuality.query_or_default trim (AirQuality.query st)))
    = Resolved response ->
  let final := snd (snd (AirQuality.load trim net fromButton (b, st))) in
  (ok response = false ->
   final = AirQuality.mkState (AirQuality.query st) (AirQuality.location_lat st)
             (AirQuality.location_lon st) false "Failed to geocode city"
             (AirQuality.aqData st))
  /\ (forall data,
        ok response = true -> json response = Resolved data ->
        is_nullish data = false ->
        truthy (get data "results") = false
        \/ AirQuality.length_is_zero (get data "results") = true ->
        final = AirQuality.mkState (AirQuality.query st)
                  (AirQuality.location_lat st) (AirQuality.location_lon st)
                  false "Location not found" (AirQuality.aqData st)).
Proof.
  intros Hneeded Hfetch final. subst final. split.
  - intros Hok. run. rewrite Hneeded.
    match goal with
    | |- context [AirQuality.geocodeCity net ?n ?s] =>
        rewrite (geocodeCity_not_ok n s response Hfetch Hok)
    end.
    reflexivity.
  - intros data Hok Hjson Hnull Hnone. run. rewrite Hneeded.
    match goal with
    | |- context [AirQuality.geocodeCity net ?n ?s] =>
        rewrite (geocodeCity_not_found n s response data Hfetch Hok Hjson
                   Hnull Hnone)
    end.
    reflexivity.
Qed.

End AirQualityMessages.

(** A search for a place that the geocoder does not know. *)
Lemma air_quality_not_found_witness :
  AirQuality.error
    (snd (snd (AirQuality.load utf8_trim
                 (Samples.answering (VObj [("generationtime_ms", VNum 1)]))
                 true (empty_browser, AirSamples.air_state))))
  = "Location not found".
Proof.
  rewrite (proj2 (air_quality_not_found utf8_trim
                    (Samples.answering (VObj [("generationtime_ms", VNum 1)]))
                    true empty_browser AirSamples.air_state
                    (mkResponse true
                       (Resolved (VObj [("generationtime_ms", VNum 1)]))
                       (Resolved ""))
                    eq_refl eq_refl)
             (VObj [("generationtime_ms", VNum 1)])
             eq_refl eq_refl eq_refl (or_introl eq_refl)).
  reflexivity.
Defined.
